(** * gun_game: the per-frame simulation of [src/components/GameCanvas.tsx]

    A shallow embedding of the tick function [update] of the side-scrolling
    shooter, of the key handlers and of [initLevel], and of the mission
    briefing ([src/services/geminiService.ts], [startGame] of [src/App.tsx]),
    followed by the properties of the simulation that the specification
    states and further properties of the code.

    Modelling conventions.
    - A JavaScript [number] that holds a coordinate, a velocity or an extent
      is an exact rational ([Q]); binary64 rounding is not modelled.  The
      counters of the game ([hp], [score], [ttl], [penetration], the frame
      counter, ...) only ever hold integers and are [Z].
    - An optional field ([subtype?], [ttl?], ...) is an [option]; [None] is
      JavaScript's [undefined].
    - [entitiesRef.current] is a list used as a store: an object is the cell
      at its index, mutation of an object is [<[i:=e]>], [push] appends.
      [Array.prototype.forEach] visits the indices below the length the array
      had when the loop started, and reads the cell when it visits it.
    - [Math.sin], [Math.cos], [Math.atan2] and the stream of values returned
      by [Math.random()] belong to the host ([Host]); the world counts the
      draws made so far.  The [Date.now()] and [Math.random()] suffixes of
      the [id] template strings are not kept in [id] (no code reads an id),
      but the draw an id makes is still counted.
    - Drawing on the canvas is not modelled. *)

From Stdlib Require Import ZArith QArith Qround Qabs Lia Lqa String.
From stdpp Require Import base list.

Open Scope Z_scope.
Open Scope Q_scope.

(** ** Numbers *)

Definition Qltb (a b : Q) : bool := negb (Qle_bool b a).
Definition Qgtb (a b : Q) : bool := Qltb b a.
Definition Qgeb (a b : Q) : bool := Qle_bool b a.

(** [Math.max] *)
Definition Math_max (a b : Q) : Q := if Qle_bool a b then b else a.

(** ** src/types.ts *)

Inductive EntityType : Set :=
  | T_player | T_enemy | T_bullet | T_particle | T_platform | T_powerup
  | T_boss_projectile.

Inductive WeaponType : Set := rifle | spread | laser | flame.

Inductive EnemyType : Set := runner | drone | jumper | boss.

Definition EntityType_eqb (a b : EntityType) : bool :=
  match a, b with
  | T_player, T_player | T_enemy, T_enemy | T_bullet, T_bullet
  | T_particle, T_particle | T_platform, T_platform | T_powerup, T_powerup
  | T_boss_projectile, T_boss_projectile => true
  | _, _ => false
  end.

Definition WeaponType_eqb (a b : WeaponType) : bool :=
  match a, b with
  | rifle, rifle | spread, spread | laser, laser | flame, flame => true
  | _, _ => false
  end.

Definition EnemyType_eqb (a b : EnemyType) : bool :=
  match a, b with
  | runner, runner | drone, drone | jumper, jumper | boss, boss => true
  | _, _ => false
  end.

(** [e.subtype === t] and [e.weaponType === t] on optional fields. *)
Definition subtype_is (o : option EnemyType) (t : EnemyType) : bool :=
  match o with Some s => EnemyType_eqb s t | None => false end.

Definition weapon_is (o : option WeaponType) (t : WeaponType) : bool :=
  match o with Some s => WeaponType_eqb s t | None => false end.

Record Vector2 : Set := mkVector2 { x : Q; y : Q }.

Record Size : Set := mkSize { width : Q; height : Q }.

Record Entity : Set := mkEntity {
  id : string;
  type : EntityType;
  subtype : option EnemyType;
  weaponType : option WeaponType;
  pos : Vector2;
  vel : Vector2;
  size : Size;
  color : string;
  hp : Z;
  maxHp : Z;
  markedForDeletion : bool;
  direction : Z;
  isGrounded : option bool;
  ttl : option Z;
  attackTimer : option Z;
  bossPhase : option Z;
  penetration : option Z
}.

(** Field assignments [e.f = v]. *)

Definition set_x (v : Q) (p : Vector2) : Vector2 := mkVector2 v (y p).
Definition set_y (v : Q) (p : Vector2) : Vector2 := mkVector2 (x p) v.

Definition set_weaponType (v : option WeaponType) (e : Entity) : Entity :=
  mkEntity (id e) (type e) (subtype e) v (pos e) (vel e) (size e) (color e)
    (hp e) (maxHp e) (markedForDeletion e) (direction e) (isGrounded e)
    (ttl e) (attackTimer e) (bossPhase e) (penetration e).

Definition set_pos (v : Vector2) (e : Entity) : Entity :=
  mkEntity (id e) (type e) (subtype e) (weaponType e) v (vel e) (size e)
    (color e) (hp e) (maxHp e) (markedForDeletion e) (direction e)
    (isGrounded e) (ttl e) (attackTimer e) (bossPhase e) (penetration e).

Definition set_vel (v : Vector2) (e : Entity) : Entity :=
  mkEntity (id e) (type e) (subtype e) (weaponType e) (pos e) v (size e)
    (color e) (hp e) (maxHp e) (markedForDeletion e) (direction e)
    (isGrounded e) (ttl e) (attackTimer e) (bossPhase e) (penetration e).

Definition set_hp (v : Z) (e : Entity) : Entity :=
  mkEntity (id e) (type e) (subtype e) (weaponType e) (pos e) (vel e) (size e)
    (color e) v (maxHp e) (markedForDeletion e) (direction e)
    (isGrounded e) (ttl e) (attackTimer e) (bossPhase e) (penetration e).

Definition set_markedForDeletion (v : bool) (e : Entity) : Entity :=
  mkEntity (id e) (type e) (subtype e) (weaponType e) (pos e) (vel e) (size e)
    (color e) (hp e) (maxHp e) v (direction e)
    (isGrounded e) (ttl e) (attackTimer e) (bossPhase e) (penetration e).

Definition set_direction (v : Z) (e : Entity) : Entity :=
  mkEntity (id e) (type e) (subtype e) (weaponType e) (pos e) (vel e) (size e)
    (color e) (hp e) (maxHp e) (markedForDeletion e) v
    (isGrounded e) (ttl e) (attackTimer e) (bossPhase e) (penetration e).

Definition set_isGrounded (v : option bool) (e : Entity) : Entity :=
  mkEntity (id e) (type e) (subtype e) (weaponType e) (pos e) (vel e) (size e)
    (color e) (hp e) (maxHp e) (markedForDeletion e) (direction e)
    v (ttl e) (attackTimer e) (bossPhase e) (penetration e).

Definition set_ttl (v : option Z) (e : Entity) : Entity :=
  mkEntity (id e) (type e) (subtype e) (weaponType e) (pos e) (vel e) (size e)
    (color e) (hp e) (maxHp e) (markedForDeletion e) (direction e)
    (isGrounded e) v (attackTimer e) (bossPhase e) (penetration e).

Definition set_attackTimer (v : option Z) (e : Entity) : Entity :=
  mkEntity (id e) (type e) (subtype e) (weaponType e) (pos e) (vel e) (size e)
    (color e) (hp e) (maxHp e) (markedForDeletion e) (direction e)
    (isGrounded e) (ttl e) v (bossPhase e) (penetration e).

Definition set_bossPhase (v : option Z) (e : Entity) : Entity :=
  mkEntity (id e) (type e) (subtype e) (weaponType e) (pos e) (vel e) (size e)
    (color e) (hp e) (maxHp e) (markedForDeletion e) (direction e)
    (isGrounded e) (ttl e) (attackTimer e) v (penetration e).

Definition set_penetration (v : option Z) (e : Entity) : Entity :=
  mkEntity (id e) (type e) (subtype e) (weaponType e) (pos e) (vel e) (size e)
    (color e) (hp e) (maxHp e) (markedForDeletion e) (direction e)
    (isGrounded e) (ttl e) (attackTimer e) (bossPhase e) v.

Definition set_pos_x (v : Q) (e : Entity) : Entity := set_pos (set_x v (pos e)) e.
Definition set_pos_y (v : Q) (e : Entity) : Entity := set_pos (set_y v (pos e)) e.
Definition set_vel_x (v : Q) (e : Entity) : Entity := set_vel (set_x v (vel e)) e.
Definition set_vel_y (v : Q) (e : Entity) : Entity := set_vel (set_y v (vel e)) e.

(** ** src/components/GameCanvas.tsx: constants *)

Definition GRAVITY : Q := 0.6.
Definition FRICTION : Q := 0.8.
Definition PLAYER_SPEED : Q := 6.
Definition JUMP_FORCE : Q := -14.

Record WeaponStats : Set := mkWeaponStats {
  rate : Z;
  speed : Q;
  wcolor : string;
  wsize : Size
}.

Definition WEAPONS (w : WeaponType) : WeaponStats :=
  match w with
  | rifle => mkWeaponStats 10 12 "#facc15" (mkSize 8 4)
  | spread => mkWeaponStats 20 10 "#ef4444" (mkSize 10 10)
  | laser => mkWeaponStats 25 20 "#3b82f6" (mkSize 30 4)
  | flame => mkWeaponStats 4 7 "#f97316" (mkSize 6 6)
  end.

Definition BOSS_SPAWN_SCORE : Z := 1500.

(** ** The state held in the component's refs *)

Record Input : Set := mkInput {
  left : bool; right : bool; up : bool; down : bool; jump : bool; fire : bool
}.

Record HudState : Set := mkHud {
  hud_hp : Z;
  hud_score : Z;
  hud_weapon : WeaponType;
  hud_bossHp : Z;
  hud_maxBossHp : Z
}.

Inductive GameStatus : Set := MENU | BRIEFING | PLAYING | GAME_OVER.

Record World : Set := mkWorld {
  gameStatus : GameStatus;    (* the gameStatus prop (App's status) *)
  frameCount : Z;             (* frameCountRef *)
  bossActive : bool;          (* bossActiveRef *)
  player : Entity;            (* playerRef *)
  entities : list Entity;     (* entitiesRef *)
  platforms : list Entity;    (* platformsRef *)
  score : Z;                  (* scoreRef *)
  input : Input;              (* inputRef *)
  canvas : Size;              (* canvas.width, canvas.height *)
  hudState : HudState;        (* last value given to setHudState *)
  gameOver : list Z;          (* arguments of the onGameOver calls, newest first *)
  currentBossHp : Z;          (* the local currentBossHp of update *)
  randomCalls : nat           (* Math.random() draws made so far *)
}.

Definition set_gameStatus (v : GameStatus) (w : World) : World :=
  mkWorld v (frameCount w) (bossActive w) (player w) (entities w)
    (platforms w) (score w) (input w) (canvas w) (hudState w) (gameOver w)
    (currentBossHp w) (randomCalls w).

Definition set_frameCount (v : Z) (w : World) : World :=
  mkWorld (gameStatus w) v (bossActive w) (player w) (entities w)
    (platforms w) (score w) (input w) (canvas w) (hudState w) (gameOver w)
    (currentBossHp w) (randomCalls w).

Definition set_bossActive (v : bool) (w : World) : World :=
  mkWorld (gameStatus w) (frameCount w) v (player w) (entities w)
    (platforms w) (score w) (input w) (canvas w) (hudState w) (gameOver w)
    (currentBossHp w) (randomCalls w).

Definition set_player (v : Entity) (w : World) : World :=
  mkWorld (gameStatus w) (frameCount w) (bossActive w) v (entities w)
    (platforms w) (score w) (input w) (canvas w) (hudState w) (gameOver w)
    (currentBossHp w) (randomCalls w).

Definition set_entities (v : list Entity) (w : World) : World :=
  mkWorld (gameStatus w) (frameCount w) (bossActive w) (player w) v
    (platforms w) (score w) (input w) (canvas w) (hudState w) (gameOver w)
    (currentBossHp w) (randomCalls w).

Definition set_platforms (v : list Entity) (w : World) : World :=
  mkWorld (gameStatus w) (frameCount w) (bossActive w) (player w) (entities w)
    v (score w) (input w) (canvas w) (hudState w) (gameOver w)
    (currentBossHp w) (randomCalls w).

Definition set_score (v : Z) (w : World) : World :=
  mkWorld (gameStatus w) (frameCount w) (bossActive w) (player w) (entities w)
    (platforms w) v (input w) (canvas w) (hudState w) (gameOver w)
    (currentBossHp w) (randomCalls w).

Definition set_input (v : Input) (w : World) : World :=
  mkWorld (gameStatus w) (frameCount w) (bossActive w) (player w) (entities w)
    (platforms w) (score w) v (canvas w) (hudState w) (gameOver w)
    (currentBossHp w) (randomCalls w).

Definition set_canvas (v : Size) (w : World) : World :=
  mkWorld (gameStatus w) (frameCount w) (bossActive w) (player w) (entities w)
    (platforms w) (score w) (input w) v (hudState w) (gameOver w)
    (currentBossHp w) (randomCalls w).

Definition set_hudState (v : HudState) (w : World) : World :=
  mkWorld (gameStatus w) (frameCount w) (bossActive w) (player w) (entities w)
    (platforms w) (score w) (input w) (canvas w) v (gameOver w)
    (currentBossHp w) (randomCalls w).

Definition set_gameOver (v : list Z) (w : World) : World :=
  mkWorld (gameStatus w) (frameCount w) (bossActive w) (player w) (entities w)
    (platforms w) (score w) (input w) (canvas w) (hudState w) v
    (currentBossHp w) (randomCalls w).

Definition set_currentBossHp (v : Z) (w : World) : World :=
  mkWorld (gameStatus w) (frameCount w) (bossActive w) (player w) (entities w)
    (platforms w) (score w) (input w) (canvas w) (hudState w) (gameOver w) v
    (randomCalls w).

Definition set_randomCalls (v : nat) (w : World) : World :=
  mkWorld (gameStatus w) (frameCount w) (bossActive w) (player w) (entities w)
    (platforms w) (score w) (input w) (canvas w) (hudState w) (gameOver w)
    (currentBossHp w) v.

(** [entitiesRef.current.push(e)] *)
Definition push (e : Entity) (w : World) : World :=
  set_entities (entities w ++ [e]) w.

(** [entitiesRef.current[i]] is written through the object reference. *)
Definition store (i : nat) (e : Entity) (w : World) : World :=
  set_entities (<[i:=e]> (entities w)) w.

(** [a.forEach(...)]: the indices [0 .. n-1], in order, where [n] is the
    length of the array when the loop starts. *)
Definition forEach {S : Type} (n : nat) (body : nat -> S -> S) (s : S) : S :=
  foldl (fun acc i => body i acc) s (seq 0 n).

(** The functions of the JavaScript host that the simulation calls. *)
Record Host : Type := mkHost {
  Math_sin : Q -> Q;
  Math_cos : Q -> Q;
  Math_atan2 : Q -> Q -> Q;
  Math_random : nat -> Q       (* the n-th value returned by Math.random() *)
}.

(** ** Player physics (lines 206-239) *)

(** Left/right input sets the horizontal velocity, otherwise friction. *)
Definition steer (inp : Input) (p : Entity) : Entity :=
  if left inp then set_direction (-1) (set_vel_x (- PLAYER_SPEED) p)
  else if right inp then set_direction 1 (set_vel_x PLAYER_SPEED p)
  else set_vel_x (x (vel p) * FRICTION) p.

(** [vel.y += GRAVITY; pos.x += vel.x; pos.y += vel.y] *)
Definition integrate (p : Entity) : Entity :=
  let p := set_vel_y (y (vel p) + GRAVITY) p in
  let p := set_pos_x (x (pos p) + x (vel p)) p in
  set_pos_y (y (pos p) + y (vel p)) p.

(** Bounds and fall death. *)
Definition bounds (cv : Size) (p : Entity) : Entity :=
  let p := if Qltb (x (pos p)) 0 then set_pos_x 0 p else p in
  let p := if Qgtb (x (pos p) + width (size p)) (width cv)
           then set_pos_x (width cv - width (size p)) p else p in
  if Qgtb (y (pos p)) (height cv) then set_hp 0 p else p.

(** The landing condition of an entity against one platform. *)
Definition lands (e platform : Entity) : bool :=
  Qltb (x (pos e)) (x (pos platform) + width (size platform)) &&
  Qgtb (x (pos e) + width (size e)) (x (pos platform)) &&
  Qgtb (y (pos e) + height (size e)) (y (pos platform)) &&
  Qltb (y (pos e) + height (size e))
       (y (pos platform) + height (size platform) + 20) &&
  Qgeb (y (vel e)) 0.

(** The three assignments made on landing. *)
Definition land (platform e : Entity) : Entity :=
  let e := set_isGrounded (Some true) e in
  let e := set_vel_y 0 e in
  set_pos_y (y (pos platform) - height (size e)) e.

(** [platformsRef.current.forEach(platform => { if (...) {...} })] *)
Definition resolve_platforms (plats : list Entity) (e : Entity) : Entity :=
  foldl (fun e platform => if lands e platform then land platform e else e)
        e plats.

Definition player_physics (w : World) : World :=
  let p := steer (input w) (player w) in
  let p := integrate p in
  let p := bounds (canvas w) p in
  let p := set_isGrounded (Some false) p in
  set_player (resolve_platforms (platforms w) p) w.

(** [isColliding] *)
Definition isColliding (r1 r2 : Entity) : bool :=
  Qltb (x (pos r1)) (x (pos r2) + width (size r2)) &&
  Qgtb (x (pos r1) + width (size r1)) (x (pos r2)) &&
  Qltb (y (pos r1)) (y (pos r2) + height (size r2)) &&
  Qgtb (y (pos r1) + height (size r1)) (y (pos r2)).

Section Simulation.

Variable h : Host.

(** The value the next [Math.random()] call returns, and the call. *)
Definition random (w : World) : Q := Math_random h (randomCalls w).
Definition draw (w : World) : World := set_randomCalls (S (randomCalls w)) w.

(** ** Shooting (lines 241-276) *)

(** The entity that [spawnBullet(vx, vy, ttl)] pushes. *)
Definition spawnBullet (p : Entity) (wStats : WeaponStats) (vx vy : Q)
    (ttl0 : option Z) : Entity :=
  mkEntity "b-" T_bullet None None
    (mkVector2 (x (pos p) + (if (direction p =? 1)%Z then width (size p) else 0))
               (y (pos p) + 16))
    (mkVector2 vx vy) (wsize wStats) (wcolor wStats) 1 1 false (direction p)
    None ttl0 None None
    (Some (if weapon_is (weaponType p) laser then 5 else 1)%Z).

(** One call of [spawnBullet]: the id draws once, the bullet is pushed. *)
Definition fireBullet (wStats : WeaponStats) (vx vy : Q) (ttl0 : option Z)
    (w : World) : World :=
  push (spawnBullet (player w) wStats vx vy ttl0) (draw w).

Definition shoot (w : World) : World :=
  if fire (input w) then
    let p := player w in
    let wStats := WEAPONS (default rifle (weaponType p)) in
    if (Z.rem (frameCount w) (rate wStats) =? 0)%Z then
      let d := inject_Z (direction p) in
      if weapon_is (weaponType p) spread then
        let w := fireBullet wStats (d * speed wStats) 0 None w in
        let w := fireBullet wStats (d * speed wStats * 0.9) (-2) None w in
        fireBullet wStats (d * speed wStats * 0.9) 2 None w
      else if weapon_is (weaponType p) flame then
        let r := random w in
        fireBullet wStats (d * speed wStats) ((r - 0.5) * 2) (Some 30%Z) (draw w)
      else
        fireBullet wStats (d * speed wStats) 0 None w
    else w
  else w.

(** ** Spawning (lines 127-194, 278-284) *)

Definition is_boss (e : Entity) : bool := subtype_is (subtype e) boss.

(** The object literal of [spawnBoss]. *)
Definition newBoss (cv : Size) : Entity :=
  mkEntity "boss" T_enemy (Some boss) None
    (mkVector2 (width cv + 100) (height cv - 300))
    (mkVector2 (-1) 0) (mkSize 120 200) "#ef4444" 150 150 false (-1)
    None None (Some 0%Z) (Some 0%Z) None.

Definition spawnBoss (w : World) : World :=
  let w := set_bossActive true w in
  push (newBoss (canvas w)) w.

Definition spawnEnemy (w : World) : World :=
  if bossActive w then w
  else
    let rand := random w in
    let w := draw w in
    let yFloor := height (canvas w) - 80 in
    let '(ty, yPos, col, w) :=
      if Qgtb rand 0.7 then
        (drone, 50 + random w * 100, "#a855f7"%string, draw w)
      else if Qgtb rand 0.4 then (jumper, yFloor, "#f97316"%string, w)
      else (runner, yFloor, "#22c55e"%string, w) in
    push (mkEntity "enemy-" T_enemy (Some ty) None
            (mkVector2 (width (canvas w)) yPos) (mkVector2 (-2) 0)
            (mkSize 32 32) col
            (if EnemyType_eqb ty drone then 1 else 3)%Z 3 false (-1)
            (Some false) None (Some 0%Z) None None) w.

Definition spawnPowerup (w : World) : World :=
  let types := [spread; laser; flame] in
  let k := Qfloor (random w * 3) in
  let ty := if (k <? 0)%Z then None else types !! Z.to_nat k in
  let w := draw w in
  push (mkEntity "pw-" T_powerup None ty
          (mkVector2 (width (canvas w)) 200) (mkVector2 (-3) 0)
          (mkSize 24 24) "#fff" 1 1 false 1 None None None None None) w.

(** The condition of line 279. *)
Definition boss_due (w : World) : bool :=
  negb (bossActive w) && (score w >? BOSS_SPAWN_SCORE)%Z &&
  (length (List.filter is_boss (entities w)) =? 0)%nat.

Definition spawning (w : World) : World :=
  let w := if boss_due w then spawnBoss w else w in
  let w := if (Z.rem (frameCount w) 120 =? 0)%Z then spawnEnemy w else w in
  if (Z.rem (frameCount w) 900 =? 0)%Z && negb (bossActive w)
  then spawnPowerup w else w.

(** ** Entity update loop (lines 286-425) *)

(** Read-modify-write of the object in cell [i]. *)
Definition modify (i : nat) (f : Entity -> Entity) (w : World) : World :=
  match entities w !! i with
  | Some e => store i (f e) w
  | None => w
  end.

(** The guard of line 293. *)
Definition has_gravity (e : Entity) : bool :=
  negb (EntityType_eqb (type e) T_bullet) &&
  negb (EntityType_eqb (type e) T_particle) &&
  negb (EntityType_eqb (type e) T_powerup) &&
  negb (subtype_is (subtype e) drone) &&
  negb (subtype_is (subtype e) boss) &&
  negb (EntityType_eqb (type e) T_boss_projectile).

Definition apply_gravity (e : Entity) : Entity :=
  if has_gravity e then set_vel_y (y (vel e) + GRAVITY) e else e.

(** [if (e.ttl) { e.ttl--; ... if (e.ttl <= 0) e.markedForDeletion = true }];
    [floats] is the flame bullet's [e.vel.y -= 0.1]. *)
Definition tick_ttl (floats : bool) (e : Entity) : Entity :=
  match ttl e with
  | Some t =>
      if (t =? 0)%Z then e
      else
        let e := set_ttl (Some (t - 1)%Z) e in
        let e := if floats then set_vel_y (y (vel e) - 0.1) e else e in
        if (t - 1 <=? 0)%Z then set_markedForDeletion true e else e
  | None => e
  end.

Definition powerup_ai (w : World) (e : Entity) : Entity :=
  let e := set_pos_x (x (pos e) + x (vel e)) e in
  let e := set_pos_y
             (200 + Math_sin h (inject_Z (frameCount w) * 0.05) * 50) e in
  if Qltb (x (pos e)) (-50) then set_markedForDeletion true e else e.

(** The boss's phase switch of line 316. *)
Definition phase_switch (e : Entity) : Entity :=
  if Qltb (inject_Z (hp e)) (inject_Z (maxHp e) / 2) &&
     bool_decide (bossPhase e = Some 1%Z)
  then set_bossPhase (Some 2%Z) e else e.

Definition boss_projectile_aimed (w : World) (e : Entity) : Entity :=
  let p := player w in
  let angle :=
    Math_atan2 h (y (pos p) - y (pos e)) (x (pos p) - x (pos e)) in
  let phase2 := bool_decide (bossPhase e = Some 2%Z) in
  let speed := if phase2 then 8 else 5 in
  mkEntity "bp-" T_boss_projectile None None
    (mkVector2 (x (pos e)) (y (pos e) + height (size e) / 2))
    (mkVector2 (Math_cos h angle * speed) (Math_sin h angle * speed))
    (mkSize 12 12) (if phase2 then "#ff0000" else "#ffa500") 1 1 false (-1)
    None None None None None.

Definition boss_projectile_spread (e : Entity) : Entity :=
  mkEntity "bp-spread-" T_boss_projectile None None
    (mkVector2 (x (pos e)) (y (pos e) + 20)) (mkVector2 (-8) 0)
    (mkSize 16 16) "#ff0000" 1 1 false (-1) None None None None None.

(** Lines 304-348; the result is the boss and the projectiles it pushes. *)
Definition boss_ai (w : World) (e : Entity) : Entity * list Entity :=
  if bool_decide (bossPhase e = Some 0%Z) then
    let stop := width (canvas w) - width (size e) - 50 in
    let e := set_pos_x (Math_max stop (x (pos e) + x (vel e))) e in
    (if Qle_bool (x (pos e)) stop then set_bossPhase (Some 1%Z) e else e, [])
  else
    let e := set_pos_y
               (height (canvas w) - 300
                + Math_sin h (inject_Z (frameCount w) * 0.02) * 50) e in
    let e := phase_switch e in
    let timer := (default 0 (attackTimer e) + 1)%Z in
    let e := set_attackTimer (Some timer) e in
    let phase2 := bool_decide (bossPhase e = Some 2%Z) in
    let attackRate := (if phase2 then 40 else 80)%Z in
    if (Z.rem timer attackRate =? 0)%Z then
      (e, boss_projectile_aimed w e ::
          (if phase2 then [boss_projectile_spread e] else []))
    else (e, []).

Definition bomb (e : Entity) : Entity :=
  mkEntity "bomb-" T_boss_projectile None None
    (mkVector2 (x (pos e) + 16) (y (pos e) + 32)) (mkVector2 0 5)
    (mkSize 8 8) "#fff" 1 1 false 1 None None None None None.

(** Lines 350-365; the result also counts the [Math.random()] draws, of which
    [r] is the first. *)
Definition drone_ai (w : World) (r : Q) (e : Entity)
    : Entity * list Entity * nat :=
  let e := set_pos_x (x (pos e) + x (vel e)) e in
  let e := set_pos_y
             (100 + Math_sin h (inject_Z (frameCount w) * 0.05) * 50) e in
  if Qltb (Qabs (x (pos e) - x (pos (player w)))) 50 then
    if Qltb r 0.05 then (e, [bomb e], 1%nat) else (e, [], 1%nat)
  else (e, [], 0%nat).

(** Lines 366-374. *)
Definition jumper_ai (w : World) (r : Q) (e : Entity) : Entity * nat :=
  let e := set_pos_x (x (pos e) + x (vel e)) e in
  if bool_decide (isGrounded e = Some true) then
    if Qltb r 0.02 then
      let e := set_vel_y (-12) e in
      let e := set_vel_x
                 (if Qgtb (x (pos (player w)) - x (pos e)) 0 then 4 else -4) e in
      (set_isGrounded (Some false) e, 1%nat)
    else (e, 1%nat)
  else (e, 0%nat).

(** Lines 375-378. *)
Definition runner_ai (e : Entity) : Entity :=
  set_pos_x (x (pos e) + x (vel e)) e.

(** Lines 380-384, "Apply Position". *)
Definition apply_position (e : Entity) : Entity :=
  if negb (is_boss e) && negb (subtype_is (subtype e) drone) then
    let e := set_pos_x (x (pos e) + x (vel e)) e in
    set_pos_y (y (pos e) + y (vel e)) e
  else e.

(** Lines 386-401. *)
Definition enemy_platforms (w : World) (e : Entity) : Entity :=
  if negb (is_boss e) && negb (subtype_is (subtype e) drone)
  then resolve_platforms (platforms w) e else e.

(** Lines 403-405. *)
Definition enemy_cleanup (w : World) (e : Entity) : Entity :=
  let e := if Qgtb (y (pos e)) (height (canvas w) + 100)
           then set_markedForDeletion true e else e in
  if negb (is_boss e) && Qltb (x (pos e)) (-100)
  then set_markedForDeletion true e else e.

(** Lines 303-406: the enemy, what it pushes, and the draws it makes. *)
Definition enemy_ai (w : World) (e : Entity) : Entity * list Entity * nat :=
  let '(e, pushed, draws) :=
    if is_boss e then let '(e, ps) := boss_ai w e in (e, ps, 0%nat)
    else if subtype_is (subtype e) drone then drone_ai w (random w) e
    else if subtype_is (subtype e) jumper then
      let '(e, k) := jumper_ai w (random w) e in (e, [], k)
    else (runner_ai e, [], 0%nat) in
  let e := apply_position e in
  let e := enemy_platforms w e in
  (enemy_cleanup w e, pushed, draws).

(** Lines 407-416. *)
Definition projectile_ai (w : World) (e : Entity) : Entity :=
  let e := set_pos_x (x (pos e) + x (vel e)) e in
  let e := set_pos_y (y (pos e) + y (vel e)) e in
  let e := tick_ttl true e in
  if Qltb (x (pos e)) (-50) || Qgtb (x (pos e)) (width (canvas w) + 50)
  then set_markedForDeletion true e else e.

(** Lines 417-424. *)
Definition particle_ai (e : Entity) : Entity :=
  let e := set_pos_x (x (pos e) + x (vel e)) e in
  let e := set_pos_y (y (pos e) + y (vel e)) e in
  tick_ttl false e.

(** What one visit of the loop does to the visited entity [e]. *)
Definition ai (w : World) (e : Entity) : Entity * list Entity * nat :=
  let e := apply_gravity e in
  match type e with
  | T_powerup => (powerup_ai w e, [], 0%nat)
  | T_enemy => enemy_ai w e
  | T_bullet | T_boss_projectile => (projectile_ai w e, [], 0%nat)
  | T_particle => (particle_ai e, [], 0%nat)
  | _ => (e, [], 0%nat)
  end.

(** The callback of the loop at index [i]. *)
Definition update_entity (i : nat) (w : World) : World :=
  match entities w !! i with
  | None => w
  | Some e =>
      if markedForDeletion e then w
      else
        let w := if EntityType_eqb (type e) T_enemy && is_boss e
                 then set_currentBossHp (hp e) w else w in
        let '(e', pushed, draws) := ai w e in
        let w := store i e' w in
        let w := set_entities (entities w ++ pushed) w in
        set_randomCalls (randomCalls w + draws) w
  end.

Definition update_entities (w : World) : World :=
  forEach (length (entities w)) update_entity w.

(** ** Collisions (lines 427-490, 606-616) *)

(** [spawnParticle(px, py, col)]: the id draws first, then the velocity. *)
Definition spawnParticle (px py : Q) (col : string) (w : World) : World :=
  let w := draw w in
  let rx := random w in
  let w := draw w in
  let ry := random w in
  let w := draw w in
  push (mkEntity "p-" T_particle None None (mkVector2 px py)
          (mkVector2 ((rx - 0.5) * 6) ((ry - 0.5) * 6)) (mkSize 4 4) col
          1 1 false 1 None (Some 20%Z) None None None) w.

(** Lines 454-458: what a hit does to the bullet. *)
Definition bullet_hit (entity : Entity) : Entity :=
  match penetration entity with
  | Some n =>
      if negb (n =? 0)%Z && (n >? 1)%Z
      then set_penetration (Some (n - 1)%Z) entity
      else set_markedForDeletion true entity
  | None => set_markedForDeletion true entity
  end.

(** One particle of the boss's explosion (line 467). *)
Definition boss_spark (target : Entity) (w : World) : World :=
  let rx := random w in
  let w := draw w in
  let ry := random w in
  let w := draw w in
  spawnParticle (x (pos target) + rx * width (size target))
                (y (pos target) + ry * height (size target)) "#ef4444" w.

(** Lines 462-473: the target's hp has reached zero or less. *)
Definition kill (j : nat) (target : Entity) (w : World) : World :=
  if is_boss target then
    let w := set_score (score w + 5000)%Z w in
    let w := set_bossActive false w in
    let w := Nat.iter 50 (boss_spark target) w in
    modify j (set_markedForDeletion true) w
  else
    let w := set_score (score w + 100)%Z w in
    modify j (set_markedForDeletion true) w.

(** The callback of the inner loop (lines 443-476): the bullet is the object
    in cell [i], the target the object in cell [j]. *)
Definition hit (i j : nat) (w : World) : World :=
  match entities w !! i, entities w !! j with
  | Some entity, Some target =>
      if EntityType_eqb (type target) T_enemy &&
         negb (markedForDeletion target) &&
         isColliding entity target
      then
        let w := modify j (fun t => set_hp (hp t - 1)%Z t) w in
        let w := modify i bullet_hit w in
        let w := spawnParticle (x (pos entity)) (y (pos entity))
                               (color target) w in
        if (hp target - 1 <=? 0)%Z then kill j target w else w
      else w
  | _, _ => w
  end.

(** Lines 432-440. *)
Definition pickup (i : nat) (entity : Entity) (w : World) : World :=
  if isColliding (player w) entity then
    let w := set_player (set_weaponType (weaponType entity) (player w)) w in
    let w := set_score (score w + 500)%Z w in
    let w := modify i (set_markedForDeletion true) w in
    Nat.iter 10
      (spawnParticle (x (pos (player w))) (y (pos (player w))) "#fff") w
  else w.

(** Lines 479-489. *)
Definition hurt (i : nat) (entity : Entity) (w : World) : World :=
  if isColliding (player w) entity then
    let w := set_player (set_hp (hp (player w) - 10)%Z (player w)) w in
    let w := if EntityType_eqb (type entity) T_boss_projectile
             then modify i (set_markedForDeletion true) w else w in
    let p := player w in
    let p := set_vel_x
               (if Qgtb (x (pos entity)) (x (pos p)) then -10 else 10) p in
    let p := set_vel_y (-5) p in
    let w := set_player p w in
    spawnParticle (x (pos p)) (y (pos p)) "#ef4444" w
  else w.

(** The callback of the outer loop at index [i]. *)
Definition collide (i : nat) (w : World) : World :=
  match entities w !! i with
  | None => w
  | Some entity =>
      if markedForDeletion entity then w
      else
        match type entity with
        | T_powerup => pickup i entity w
        | T_bullet => forEach (length (entities w)) (hit i) w
        | T_enemy | T_boss_projectile => hurt i entity w
        | _ => w
        end
  end.

Definition collisions (w : World) : World :=
  forEach (length (entities w)) collide w.

(** ** The tick (lines 196-506) *)

(** Line 493. *)
Definition cleanup (w : World) : World :=
  set_entities
    (List.filter (fun e => negb (markedForDeletion e)) (entities w)) w.

(** Lines 496-504. *)
Definition syncHud (w : World) : World :=
  if (Z.rem (frameCount w) 5 =? 0)%Z then
    set_hudState
      (mkHud (hp (player w)) (score w) (default rifle (weaponType (player w)))
             (currentBossHp w) 150) w
  else w.

(** [onGameOver(score)]: App's [handleGameOver] leaves the PLAYING status;
    the status change is taken to reach the canvas before the next frame. *)
Definition onGameOver (w : World) : World :=
  set_gameStatus GAME_OVER (set_gameOver (score w :: gameOver w) w).

(** Lines 203-284: the frame counter, the player's physics, shooting and
    the boss check, up to the spawner. *)
Definition pre_spawn (w : World) : World :=
  let w := set_frameCount (frameCount w + 1)%Z w in
  let w := player_physics w in
  shoot w.

(** Lines 278-490: the spawner, [let currentBossHp = 0] and the two loops. *)
Definition pre_cleanup (w : World) : World :=
  let w := spawning (pre_spawn w) in
  let w := set_currentBossHp 0 w in
  let w := update_entities w in
  collisions w.

(** Lines 495-506: the HUD and the game-over check. *)
Definition finish (w : World) : World :=
  let w := syncHud w in
  if (hp (player w) <=? 0)%Z then onGameOver w else w.

Definition update (w : World) : World :=
  match gameStatus w with
  | PLAYING => finish (cleanup (pre_cleanup w))
  | _ => w
  end.

(** ** Key handlers and level set-up (lines 63-125) *)

Definition code_in (code : string) (codes : list string) : bool :=
  existsb (String.eqb code) codes.

Definition set_left (v : bool) (i : Input) : Input :=
  mkInput v (right i) (up i) (down i) (jump i) (fire i).
Definition set_right (v : bool) (i : Input) : Input :=
  mkInput (left i) v (up i) (down i) (jump i) (fire i).
Definition set_up (v : bool) (i : Input) : Input :=
  mkInput (left i) (right i) v (down i) (jump i) (fire i).
Definition set_down (v : bool) (i : Input) : Input :=
  mkInput (left i) (right i) (up i) v (jump i) (fire i).
Definition set_jump (v : bool) (i : Input) : Input :=
  mkInput (left i) (right i) (up i) (down i) v (fire i).
Definition set_fire (v : bool) (i : Input) : Input :=
  mkInput (left i) (right i) (up i) (down i) (jump i) v.

Definition handleKeyDown (code : string) (w : World) : World :=
  if code_in code ["ArrowLeft"; "KeyA"]%string
  then set_input (set_left true (input w)) w
  else if code_in code ["ArrowRight"; "KeyD"]%string
  then set_input (set_right true (input w)) w
  else if code_in code ["ArrowUp"; "KeyW"]%string
  then set_input (set_up true (input w)) w
  else if code_in code ["ArrowDown"; "KeyS"]%string
  then set_input (set_down true (input w)) w
  else if code_in code ["Space"; "KeyK"]%string then
    let w :=
      if negb (jump (input w)) &&
         bool_decide (isGrounded (player w) = Some true)
      then set_player
             (set_isGrounded (Some false) (set_vel_y JUMP_FORCE (player w))) w
      else w in
    set_input (set_jump true (input w)) w
  else if code_in code ["KeyJ"; "ShiftLeft"]%string
  then set_input (set_fire true (input w)) w
  else w.

Definition handleKeyUp (code : string) (w : World) : World :=
  if code_in code ["ArrowLeft"; "KeyA"]%string
  then set_input (set_left false (input w)) w
  else if code_in code ["ArrowRight"; "KeyD"]%string
  then set_input (set_right false (input w)) w
  else if code_in code ["ArrowUp"; "KeyW"]%string
  then set_input (set_up false (input w)) w
  else if code_in code ["ArrowDown"; "KeyS"]%string
  then set_input (set_down false (input w)) w
  else if code_in code ["Space"; "KeyK"]%string
  then set_input (set_jump false (input w)) w
  else if code_in code ["KeyJ"; "ShiftLeft"]%string
  then set_input (set_fire false (input w)) w
  else w.

Definition mkPlatform (name : string) (px py pw ph : Q) (col : string)
    : Entity :=
  mkEntity name T_platform None None (mkVector2 px py) (mkVector2 0 0)
    (mkSize pw ph) col 1 1 false 1 None None None None None.

Definition initLevel (w : World) : World :=
  let cw := width (canvas w) in
  let ch := height (canvas w) in
  let p := player w in
  let p := set_pos (mkVector2 100 (ch - 150)) p in
  let p := set_vel (mkVector2 0 0) p in
  let p := set_hp 100 p in
  let p := set_weaponType (Some rifle) p in
  let p := set_markedForDeletion false p in
  let w := set_player p w in
  let w := set_entities [] w in
  let w := set_score 0 w in
  let w := set_frameCount 0 w in
  let w := set_bossActive false w in
  set_platforms
    [ mkPlatform "floor" 0 (ch - 40) cw 40 "#334155";
      mkPlatform "p1" 300 (ch - 180) 200 20 "#475569";
      mkPlatform "p2" 600 (ch - 300) 200 20 "#475569";
      mkPlatform "p3" 100 (ch - 350) 150 20 "#475569" ] w.

(** The player object the component is mounted with (lines 31-44). *)
Definition initialPlayer : Entity :=
  mkEntity "player" T_player None (Some rifle) (mkVector2 100 300)
    (mkVector2 0 0) (mkSize 32 48) "#3b82f6" 100 100 false 1 (Some false)
    None None None None.

(** The refs when the game starts on a canvas of the given size: the mount
    values, then [initLevel]. *)
Definition start (cv : Size) : World :=
  initLevel
    (mkWorld PLAYING 0 false initialPlayer [] [] 0
       (mkInput false false false false false false) cv
       (mkHud 100 0 rifle 0 100) [] 0 0%nat).

(** What happens between two calls of [initLevel]: key events and frames. *)
Inductive Event : Set :=
  | KeyDown (code : string)
  | KeyUp (code : string)
  | Frame.

Definition step (w : World) (ev : Event) : World :=
  match ev with
  | KeyDown code => handleKeyDown code w
  | KeyUp code => handleKeyUp code w
  | Frame => update w
  end.

Definition run (w : World) (evs : list Event) : World := foldl step w evs.

End Simulation.

(** * The mission briefing: [src/services/geminiService.ts] and [src/App.tsx]

    The model call and [JSON.parse] belong to the outside ([Service]): a call
    returns or throws.  [response.text] may be [undefined].  [JSON.parse]
    returns a JSON value of any shape, and the cast [as MissionData] does
    not check it: what [generateMissionBriefing] returns, and what [App]
    keeps as its mission, is a JSON value ([JNull] is [null]).
    [console.error] is taken not to throw.  [startGame] is an async
    function; its state updates are composed in program order. *)

Unset Elimination Schemes.

(** The values of JavaScript that JSON has. *)
Inductive Json : Type :=
  | JNull
  | JBool (b : bool)
  | JNumber (q : Q)
  | JString (s : string)
  | JArray (items : list Json)
  | JObject (fields : list (string * Json)).

Set Elimination Schemes.

(** [MissionData]: an object with the three string fields. *)
Definition mkMission (codename objective intel : string) : Json :=
  JObject [("codename"%string, JString codename);
           ("objective"%string, JString objective);
           ("intel"%string, JString intel)].

(** [v.name], where it is a string. *)
Definition string_field (name : string) (v : Json) : option string :=
  match v with
  | JObject fields =>
      match List.find (fun f => String.eqb (fst f) name) fields with
      | Some (_, JString s) => Some s
      | _ => None
      end
  | _ => None
  end.

(** A value that has the shape of a [MissionData]. *)
Definition is_mission (v : Json) : bool :=
  match string_field "codename" v, string_field "objective" v,
        string_field "intel" v with
  | Some _, Some _, Some _ => true
  | _, _, _ => false
  end.

(** What a call does: it returns a value or it throws. *)
Inductive Outcome (A : Type) : Type :=
  | Returns (a : A)
  | Throws.

Arguments Returns {A} a.
Arguments Throws {A}.

Definition andThen {A B : Type} (c : Outcome A) (k : A -> Outcome B)
    : Outcome B :=
  match c with Returns a => k a | Throws => Throws end.

(** [try { body } catch (e) { handler }] *)
Definition try_catch {A : Type} (body handler : Outcome A) : Outcome A :=
  match body with Returns a => Returns a | Throws => handler end.

Record Service : Type := mkService {
  generateContent : Outcome (option string);   (* the awaited response.text *)
  JSON_parse : string -> Outcome Json
}.

(** [!text] *)
Definition no_text (text : option string) : bool :=
  match text with
  | None => true
  | Some t => String.eqb t EmptyString
  end.

(** The object literal of the [catch] of [generateMissionBriefing]. *)
Definition silentEcho : Json :=
  mkMission "OPERATION SILENT ECHO"
    "Infiltrate the cyber-factory and destroy the rogue AI core."
    "Enemy units are heavily armored. Aim for the optical sensors.".

Definition generateMissionBriefing (s : Service) : Outcome Json :=
  try_catch
    (andThen (generateContent s) (fun text =>
       if no_text text then Throws
       else match text with
            | Some t => JSON_parse s t
            | None => Throws
            end))
    (Returns silentEcho).

(** The state of [App]; the mission is [null] until a briefing is set. *)
Record App : Type := mkApp {
  app_status : GameStatus;
  app_score : Z;
  app_mission : Json;
  app_isLoading : bool
}.

Definition setStatus (v : GameStatus) (a : App) : App :=
  mkApp v (app_score a) (app_mission a) (app_isLoading a).
Definition setMission (v : Json) (a : App) : App :=
  mkApp (app_status a) (app_score a) v (app_isLoading a).
Definition setIsLoading (v : bool) (a : App) : App :=
  mkApp (app_status a) (app_score a) (app_mission a) v.

(** The object literal of the [catch] of [startGame]. *)
Definition alphaProtocol : Json :=
  mkMission "ALPHA PROTOCOL" "Survive the onslaught." "Communications down.".

Definition startGame (s : Service) (a : App) : App :=
  let a := setIsLoading true a in
  let a := setStatus BRIEFING a in
  let a :=
    match generateMissionBriefing s with
    | Returns data => setMission data a
    | Throws => setMission alphaProtocol a
    end in
  setIsLoading false a.

(** * Vocabulary of the properties

    The relations, predicates, stages of the tick and concrete worlds that
    the statements below are written with. *)

(** [l'] is [l] with its cells changed along [R], followed by pushed cells. *)
Definition tracks {A : Type} (R : A -> A -> Prop) (N : A -> Prop)
    (l l' : list A) : Prop :=
  (length l <= length l')%nat /\
  (forall k e e', l !! k = Some e -> l' !! k = Some e' -> R e e') /\
  (forall k e', (length l <= k)%nat -> l' !! k = Some e' -> N e').

(** How the collision phase may change an entity: it may lose hp, be
    flagged, and use up penetration; nothing else. *)
Record R_col (e e' : Entity) : Prop := mkRcol {
  Rc_type : type e' = type e;
  Rc_subtype : subtype e' = subtype e;
  Rc_pos : pos e' = pos e;
  Rc_vel : vel e' = vel e;
  Rc_size : size e' = size e;
  Rc_color : color e' = color e;
  Rc_maxHp : maxHp e' = maxHp e;
  Rc_isGrounded : isGrounded e' = isGrounded e;
  Rc_bossPhase : bossPhase e' = bossPhase e;
  Rc_hp : (hp e' <= hp e)%Z;
  Rc_marked : markedForDeletion e = true -> markedForDeletion e' = true
}.

(** The entities the collision phase pushes are particles. *)
Definition N_col (e : Entity) : Prop :=
  type e = T_particle /\ subtype e = None.

(** How the collision phase may change the player: the weapon may change;
    either hp and velocity are untouched, or the player was knocked back. *)
Record P_col (p p' : Entity) : Prop := mkPcol {
  Pc_pos : pos p' = pos p;
  Pc_size : size p' = size p;
  Pc_isGrounded : isGrounded p' = isGrounded p;
  Pc_marked : markedForDeletion p' = markedForDeletion p;
  Pc_hp : (hp p' <= hp p)%Z;
  Pc_knock :
    (vel p' = vel p /\ hp p' = hp p) \/
    (y (vel p') = -5 /\ (hp p' <= hp p - 10)%Z)
}.

(** The collision phase as a relation on worlds. *)
Record col_rel (w w' : World) : Prop := mkColRel {
  Cr_status : gameStatus w' = gameStatus w;
  Cr_frame : frameCount w' = frameCount w;
  Cr_platforms : platforms w' = platforms w;
  Cr_canvas : canvas w' = canvas w;
  Cr_input : input w' = input w;
  Cr_score : (score w <= score w')%Z;
  Cr_flag : bossActive w = false -> bossActive w' = false;
  Cr_player : P_col (player w) (player w');
  Cr_entities : tracks R_col N_col (entities w) (entities w')
}.

(** How a visit of the update loop may change an entity: it moves it, runs
    its timers and its phase, and may flag it. *)
Record R_mv (e e' : Entity) : Prop := mkRmv {
  Rm_id : id e' = id e;
  Rm_type : type e' = type e;
  Rm_subtype : subtype e' = subtype e;
  Rm_weaponType : weaponType e' = weaponType e;
  Rm_size : size e' = size e;
  Rm_color : color e' = color e;
  Rm_hp : hp e' = hp e;
  Rm_maxHp : maxHp e' = maxHp e;
  Rm_direction : direction e' = direction e;
  Rm_penetration : penetration e' = penetration e;
  Rm_marked : markedForDeletion e = true -> markedForDeletion e' = true
}.

(** What a visit pushes is an enemy projectile: one hp, not flagged. *)
Definition is_projectile (e : Entity) : Prop :=
  type e = T_boss_projectile /\ subtype e = None /\ hp e = 1%Z /\
  markedForDeletion e = false.

(** The update loop leaves everything but the entity list, the draw
    counter and [currentBossHp] alone. *)
Record upd_rel (w w' : World) : Prop := mkUpdRel {
  Ur_status : gameStatus w' = gameStatus w;
  Ur_frame : frameCount w' = frameCount w;
  Ur_flag : bossActive w' = bossActive w;
  Ur_player : player w' = player w;
  Ur_platforms : platforms w' = platforms w;
  Ur_score : score w' = score w;
  Ur_input : input w' = input w;
  Ur_canvas : canvas w' = canvas w;
  Ur_hud : hudState w' = hudState w;
  Ur_gameOver : gameOver w' = gameOver w
}.

(** What the loop makes of a cell: a flagged entity is skipped, any other is
    visited once, in a world that differs from the loop's first in the
    entity list, the draw counter and [currentBossHp] only. *)
Definition R_ai (h : Host) (w : World) (e e' : Entity) : Prop :=
  (markedForDeletion e = true /\ e' = e) \/
  (markedForDeletion e = false /\
   exists w', upd_rel w w' /\ e' = (ai h w' e).1.1).

(** The state of the loop after its first [k] visits. *)
Record upd_inv (h : Host) (w : World) (k : nat) (wk : World) : Prop :=
  mkUpdInv {
  Ui_rel : upd_rel w wk;
  Ui_len : (length (entities w) <= length (entities wk))%nat;
  Ui_done : forall i e e', (i < k)%nat ->
      entities w !! i = Some e -> entities wk !! i = Some e' ->
      R_ai h w e e';
  Ui_todo : forall i, (k <= i)%nat -> (i < length (entities w))%nat ->
      entities wk !! i = entities w !! i;
  Ui_new : forall i e', (length (entities w) <= i)%nat ->
      entities wk !! i = Some e' -> is_projectile e'
}.

(** A phase that only pushes entities (and may draw random numbers, set
    [currentBossHp] or the boss flag). *)
Record push_rel (w w' : World) : Prop := mkPushRel {
  Pr_status : gameStatus w' = gameStatus w;
  Pr_frame : frameCount w' = frameCount w;
  Pr_player : player w' = player w;
  Pr_platforms : platforms w' = platforms w;
  Pr_score : score w' = score w;
  Pr_input : input w' = input w;
  Pr_canvas : canvas w' = canvas w;
  Pr_hud : hudState w' = hudState w;
  Pr_gameOver : gameOver w' = gameOver w
}.

(** A bullet as [spawnBullet] makes it. *)
Definition is_new_bullet (e : Entity) : Prop :=
  type e = T_bullet /\ subtype e = None /\ hp e = 1%Z /\
  markedForDeletion e = false /\
  (penetration e = Some 1%Z \/ penetration e = Some 5%Z).

(** An ordinary enemy or a powerup as the spawner makes it. *)
Definition is_ambient (e : Entity) : bool :=
  (EntityType_eqb (type e) T_enemy && negb (is_boss e)) ||
  EntityType_eqb (type e) T_powerup.

Definition is_new_ambient (e : Entity) : Prop :=
  is_ambient e = true /\ is_boss e = false /\ (1 <= hp e)%Z /\
  markedForDeletion e = false.

(** An entity with no hp left is flagged. *)
Definition alive_or_flagged (e : Entity) : Prop :=
  (1 <= hp e)%Z \/ markedForDeletion e = true.

(** ... in every cell but [j]. *)
Definition ok_but (j : nat) (l : list Entity) : Prop :=
  forall k e, l !! k = Some e -> k <> j -> alive_or_flagged e.

(** The world at the spawner, after the loop over the entities, and after
    the collisions. *)
Definition at_spawn (h : Host) (w : World) : World := pre_spawn h w.

Definition at_loop (h : Host) (w : World) : World :=
  set_currentBossHp 0 (spawning h (pre_spawn h w)).

Definition at_collisions (h : Host) (w : World) : World :=
  update_entities h (at_loop h w).

(** An entity of the list at a tick boundary: hp left, not flagged. *)
Definition live (e : Entity) : Prop :=
  (1 <= hp e)%Z /\ markedForDeletion e = false.

(** The worlds of claim C4: every listed entity is live; the player is never
    flagged, and once its hp is gone the run has been declared over. *)
Definition hp_invariant (w : World) : Prop :=
  Forall live (entities w) /\
  markedForDeletion (player w) = false /\
  ((hp (player w) <= 0)%Z -> gameStatus w = GAME_OVER).

Definition count_bosses (l : list Entity) : nat :=
  length (List.filter is_boss l).

Definition count_ambient (l : list Entity) : nat :=
  length (List.filter is_ambient l).

(** A kind of entity that bullets, projectiles and particles are not, and
    that an entity keeps as long as its type and subtype stay. *)
Definition stable_kind (f : Entity -> bool) : Prop :=
  (forall a b, type b = type a -> subtype b = subtype a -> f a = f b) /\
  (forall a, is_projectile a -> f a = false) /\
  (forall a, N_col a -> f a = false) /\
  (forall a, is_new_bullet a -> f a = false).

(** Whether the tick that starts in [w] creates a boss: the condition of
    line 279, where the tick evaluates it. *)
Definition creates_boss (h : Host) (w : World) : bool :=
  match gameStatus w with
  | PLAYING => boss_due (pre_spawn h w)
  | _ => false
  end.

(** A host whose trigonometry is flat and whose random stream is constant;
    the scenarios below do not depend on either. *)
Definition flatHost : Host :=
  mkHost (fun _ => 0) (fun _ => 0) (fun _ _ => 0) (fun _ => 0.5).

(** The level on a 1000 x 600 canvas, as the game starts it. *)
Definition arena : World := start (mkSize 1000 600).

(** A runner as [spawnEnemy] makes it, placed at a position. *)
Definition runnerAt (px py : Q) : Entity :=
  mkEntity "enemy-" T_enemy (Some runner) None (mkVector2 px py)
    (mkVector2 (-2) 0) (mkSize 32 32) "#22c55e" 3 3 false (-1)
    (Some false) None (Some 0%Z) None None.

(** A rifle bullet as [spawnBullet] makes it, flying right. *)
Definition rifleBulletAt (px py : Q) : Entity :=
  mkEntity "b-" T_bullet None None (mkVector2 px py) (mkVector2 12 0)
    (mkSize 8 4) "#facc15" 1 1 false 1 None None None None (Some 1%Z).

(** The boss in phase 1 at its stop position, with the given hp. *)
Definition bossAt (cv : Size) (hp0 : Z) : Entity :=
  set_hp hp0
    (set_bossPhase (Some 1%Z)
       (set_pos_x (width cv - 120 - 50) (newBoss cv))).

(** The player is down to 10 hp and two runners are on it. *)
Definition mobbed : World :=
  set_entities [runnerAt 110 450; runnerAt 120 450]
    (set_player (set_hp 10 (player arena)) arena).

(** The boss fight at frame 118: the boss has one hp left and a rifle bullet
    is about to hit it. *)
Definition bossDying : World :=
  set_entities [bossAt (canvas arena) 1; rifleBulletAt 840 400]
    (set_frameCount 118 (set_score 1600 (set_bossActive true arena))).

(** An entity that rests on a platform of the list. *)
Definition landed (plats : list Entity) (e : Entity) : Prop :=
  isGrounded e = Some true /\ y (vel e) = 0 /\
  exists platform, platform ∈ plats /\
    y (pos e) + height (size e) == y (pos platform).

(** The player when the platform loop of the tick starts. *)
Definition player_before_platforms (w : World) : Entity :=
  set_isGrounded (Some false)
    (bounds (canvas w) (integrate (steer (input w) (player w)))).

(** The player stands on the floor and a runner walks into it. *)
Definition standoff : World :=
  set_entities [runnerAt 110 520]
    (set_player (set_pos (mkVector2 100 512) (player arena)) arena).

(** The player stands on the floor, alone. *)
Definition standing : World :=
  set_player (set_pos (mkVector2 100 512) (player arena)) arena.

(** A rifle bullet flies into two runners that walk side by side. *)
Definition crossfire : World :=
  set_entities [rifleBulletAt 500 460; runnerAt 510 450; runnerAt 512 450]
    arena.

(** The boss in phase 1 with 74 of its 150 hp. *)
Definition bossHalf : World :=
  set_entities [bossAt (canvas arena) 74]
    (set_score 1600 (set_bossActive true arena)).

(** The level at frame 119, nothing spawned yet. *)
Definition arena119 : World := set_frameCount 119 arena.

(** The key codes of the jump key. *)
Definition is_jump_key (code : string) : bool :=
  code_in code ["Space"; "KeyK"]%string.

(** An event that is not the release of the jump key. *)
Definition keeps_jump_held (ev : Event) : Prop :=
  match ev with
  | KeyUp code => is_jump_key code = false
  | _ => True
  end.

(** A particle as [spawnParticle] makes it. *)
Definition newParticle (px py vx vy : Q) (col : string) : Entity :=
  mkEntity "p-" T_particle None None (mkVector2 px py) (mkVector2 vx vy)
    (mkSize 4 4) col 1 1 false 1 None (Some 20%Z) None None None.

(** What the collision phase reports to the outside: nothing. *)
Definition same_reports (w w' : World) : Prop :=
  gameOver w' = gameOver w /\ hudState w' = hudState w.

(** Where the boss stops its entrance (line 309). *)
Definition boss_stop (cv : Size) (e : Entity) : Q :=
  width cv - width (size e) - 50.



(** A rifle bullet inside a runner. *)
Definition skirmish : World :=
  set_entities [rifleBulletAt 512 460; runnerAt 506 450] arena.


(** A drone as [spawnEnemy] makes it. *)
Definition droneAt (px py : Q) : Entity :=
  mkEntity "enemy-" T_enemy (Some drone) None (mkVector2 px py)
    (mkVector2 (-2) 0) (mkSize 32 32) "#a855f7" 1 3 false (-1)
    (Some false) None (Some 0%Z) None None.

(** The player has dropped below the bottom edge of the canvas. *)
Definition fallen : World :=
  set_player (set_pos (mkVector2 100 700) (player arena)) arena.

(** What the HUD shows is what the world holds. *)
Definition hud_current (w : World) : Prop :=
  hud_hp (hudState w) = hp (player w) /\
  hud_score (hudState w) = score w /\
  hud_weapon (hudState w) = default rifle (weaponType (player w)) /\
  hud_maxBossHp (hudState w) = 150%Z.

(** The level four frames into the game. *)
Definition arena4 : World := set_frameCount 4 arena.

(** The player's horizontal speed is at most 10, the speed of a knock-back. *)
Definition speed_ok (p : Entity) : Prop :=
  -10 <= x (vel p) /\ x (vel p) <= 10.

(** What a phase may do to the player's horizontal velocity: leave it, or
    knock the player back. *)
Definition vx_rel (w w' : World) : Prop :=
  x (vel (player w')) = x (vel (player w)) \/
  x (vel (player w')) = 10 \/ x (vel (player w')) = -10.

(** A bullet of the player [p] whose weapon has the stats [ws]. *)
Definition bullet_of (p : Entity) (ws : WeaponStats) (b : Entity) : Prop :=
  type b = T_bullet /\ direction b = direction p /\ size b = wsize ws /\
  x (pos b) =
    x (pos p) + (if (direction p =? 1)%Z then width (size p) else 0) /\
  y (pos b) = y (pos p) + 16 /\
  (x (vel b) = inject_Z (direction p) * speed ws \/
   x (vel b) = inject_Z (direction p) * speed ws * 0.9) /\
  ttl b = (if weapon_is (weaponType p) flame then Some 30%Z else None) /\
  penetration b =
    Some (if weapon_is (weaponType p) laser then 5 else 1)%Z /\
  markedForDeletion b = false.

(** How many bullets one shot of the player [p] is. *)
Definition volley (p : Entity) : nat :=
  if weapon_is (weaponType p) spread then 3 else 1.

(** A short session: run right, jump, fire, three frames. *)
Definition session : list Event :=
  [KeyDown "KeyD"; Frame; KeyDown "Space"; KeyDown "KeyJ"; Frame; Frame].

(** An ordinary enemy: an enemy that is not the boss. *)
Definition is_ordinary (e : Entity) : bool :=
  EntityType_eqb (type e) T_enemy && negb (is_boss e).

Definition is_powerup (e : Entity) : bool :=
  EntityType_eqb (type e) T_powerup.

Definition count_ordinary (l : list Entity) : nat :=
  length (List.filter is_ordinary l).

Definition count_powerups (l : list Entity) : nat :=
  length (List.filter is_powerup l).

(** The purge of line 493, on a list. *)
Definition unflagged (l : list Entity) : list Entity :=
  List.filter (fun e => negb (markedForDeletion e)) l.

(** The spawner's gate is closed for the tick that starts in [w]: the boss
    is active, or the tick creates it. *)
Definition gate_closed (w : World) : bool := bossActive w || boss_due w.

(** Whether the tick that starts in [w] is due an enemy, and a powerup. *)
Definition enemy_due (w : World) : bool :=
  negb (gate_closed w) && (Z.rem (frameCount w + 1) 120 =? 0)%Z.

Definition powerup_due (w : World) : bool :=
  negb (gate_closed w) && (Z.rem (frameCount w + 1) 900 =? 0)%Z.

(** The level at frame 1799: the next frame is due an enemy and a powerup. *)
Definition arena1799 : World := set_frameCount 1799 arena.

(** The phase a boss [b] has after its visit in the update loop of a tick
    on a canvas [cv], [b] being the boss as the tick finds it: from 0 it
    moves to 1 when its step reaches the stop position, from 1 to 2 when its
    hp is below half its maxHp; otherwise it stays. *)
Definition boss_next_phase (cv : Size) (b : Entity) : option Z :=
  if bool_decide (bossPhase b = Some 0%Z) then
    if Qle_bool (x (pos b) + x (vel b)) (boss_stop cv b)
    then Some 1%Z else Some 0%Z
  else if Qltb (inject_Z (hp b)) (inject_Z (maxHp b) / 2) &&
          bool_decide (bossPhase b = Some 1%Z)
  then Some 2%Z else bossPhase b.

(** A boss is an enemy in phase 0, 1 or 2. *)
Definition boss_ok (b : Entity) : Prop :=
  type b = T_enemy /\
  (bossPhase b = Some 0%Z \/ bossPhase b = Some 1%Z \/ bossPhase b = Some 2%Z).

(** The worlds of a run, as far as the boss goes: at most one boss in the
    list, and it is [boss_ok]. *)
Definition boss_inv (w : World) : Prop :=
  (count_bosses (entities w) <= 1)%nat /\
  Forall (fun b => is_boss b = true -> boss_ok b) (entities w).

(** The boss in phase 1 with exactly half its hp, and a rifle bullet that is
    about to hit it. *)
Definition bossAtHalf : World :=
  set_entities [bossAt (canvas arena) 75; rifleBulletAt 840 400]
    (set_score 1600 (set_bossActive true arena)).

(** The boss of [bossHalf] after one tick. *)
Definition bossHalfAfter : Entity :=
  set_bossPhase (Some 2%Z)
    (set_attackTimer (Some 1%Z) (bossAt (canvas arena) 74)).

(** A ground-bound enemy: a runner or a jumper. *)
Definition ground_enemy (e : Entity) : bool :=
  EntityType_eqb (type e) T_enemy && negb (is_boss e) &&
  negb (subtype_is (subtype e) drone).

(** A ground-bound enemy when its platform loop starts (line 387): after
    gravity, its own branch and "Apply Position", in the loop state [w]. *)
Definition enemy_before_platforms (h : Host) (w : World) (e : Entity)
    : Entity :=
  let e := apply_gravity e in
  apply_position
    (if subtype_is (subtype e) jumper
     then (jumper_ai w (random h w) e).1 else runner_ai e).

(** A runner falls onto the floor of the level. *)
Definition runnerLanding : World :=
  set_entities [runnerAt 500 528] arena.

(** An entity that hurts the player on contact. *)
Definition hurtful (e : Entity) : bool :=
  EntityType_eqb (type e) T_enemy || EntityType_eqb (type e) T_boss_projectile.

(** A live hurtful entity that overlaps the player [p]. *)
Definition in_contact (p e : Entity) : bool :=
  negb (markedForDeletion e) && hurtful e && isColliding p e.

(** How many entities of a list are in contact with [p]. *)
Definition count_contacts (p : Entity) (l : list Entity) : nat :=
  length (List.filter (in_contact p) l).

(** Whether the visit of cell [k] by the collision loop, in the loop state
    [s], is a contact. *)
Definition touches (k : nat) (s : World) : bool :=
  match entities s !! k with
  | Some e => in_contact (player s) e
  | None => false
  end.

(** The number of contacts among the first [n] visits of the collision loop
    that starts in [w]. *)
Fixpoint contacts (h : Host) (w : World) (n : nat) : nat :=
  match n with
  | O => O
  | S k =>
      (contacts h w k +
       (if touches k (forEach k (collide h) w) then 1 else 0))%nat
  end.

(** The player has been knocked back. *)
Definition knocked (p : Entity) : Prop :=
  y (vel p) = -5 /\ (x (vel p) = 10 \/ x (vel p) = -10).

(** An enemy projectile as the boss fires it, placed on the player of
    [standing]. *)
Definition projectileAt (px py : Q) : Entity :=
  mkEntity "bp-" T_boss_projectile None None (mkVector2 px py)
    (mkVector2 (-5) 0) (mkSize 12 12) "#ffa500" 1 1 false (-1)
    None None None None None.

(** A runner and an enemy projectile are on the standing player. *)
Definition crowded : World :=
  set_entities [runnerAt 110 520; projectileAt 120 530] standing.



(** What a restart keeps of the state [r] it finds, on top of [w]: the
    status, the input flags, the HUD, the game-over reports, the draw
    counter and [currentBossHp], and the player's direction and grounding.
    Everything else is [w]'s. *)
Definition carried (r w : World) : World :=
  mkWorld (gameStatus r) (frameCount w) (bossActive w)
    (set_isGrounded (isGrounded (player r))
       (set_direction (direction (player r)) (player w)))
    (entities w) (platforms w) (score w) (input r) (canvas w)
    (hudState r) (gameOver r) (currentBossHp r) (randomCalls r).

(** The fields of the player that nothing in the game writes. *)
Record P_static (p p' : Entity) : Prop := mkPstatic {
  Ps_id : id p' = id p;
  Ps_type : type p' = type p;
  Ps_subtype : subtype p' = subtype p;
  Ps_size : size p' = size p;
  Ps_color : color p' = color p;
  Ps_maxHp : maxHp p' = maxHp p;
  Ps_ttl : ttl p' = ttl p;
  Ps_attackTimer : attackTimer p' = attackTimer p;
  Ps_bossPhase : bossPhase p' = bossPhase p;
  Ps_penetration : penetration p' = penetration p
}.

(** The briefing comes from the model: the call returned the text [t], which
    is not empty, and [JSON.parse] made [v] of it. *)
Definition from_model (s : Service) (v : Json) : Prop :=
  exists t, generateContent s = Returns (Some t) /\ t <> EmptyString /\
            JSON_parse s t = Returns v.

(** The model answers with the text [null], which [JSON.parse] reads as
    [null]. *)
Definition nullService : Service :=
  mkService (Returns (Some "null"%string)) (fun _ => Returns JNull).

(** [App] as it is mounted. *)
Definition initialApp : App := mkApp MENU 0 JNull false.

(** * Properties of the simulation *)

(** ** Comparisons *)

Lemma Qltb_lt (a b : Q) : Qltb a b = true <-> a < b.
Proof.
  unfold Qltb. rewrite negb_true_iff. split.
  - intros Hf. apply Qnot_le_lt. intros Hle.
    apply Qle_bool_iff in Hle. congruence.
  - intros Hlt. destruct (Qle_bool b a) eqn:E; [|reflexivity].
    apply Qle_bool_iff in E. exfalso. exact (Qlt_not_le _ _ Hlt E).
Qed.

Lemma Qgtb_lt (a b : Q) : Qgtb a b = true <-> b < a.
Proof. unfold Qgtb. apply Qltb_lt. Qed.

Lemma Qgeb_le (a b : Q) : Qgeb a b = true <-> b <= a.
Proof. unfold Qgeb. apply Qle_bool_iff. Qed.

(** ** Loops over indices *)

Section Loops.

Context {St : Type}.

Lemma forEach_S (n : nat) (body : nat -> St -> St) (s : St) :
  forEach (S n) body s = body n (forEach n body s).
Proof. unfold forEach. rewrite seq_S, foldl_app. reflexivity. Qed.

(** A relation between the state before and after a loop that every
    iteration respects, under an invariant that every iteration keeps. *)
Lemma foldl_rel (Inv : St -> Prop) (T : St -> St -> Prop)
    (body : nat -> St -> St) :
  (forall s, T s s) ->
  (forall a b c, T a b -> T b c -> T a c) ->
  (forall i s, Inv s -> T s (body i s) /\ Inv (body i s)) ->
  forall (l : list nat) (s : St),
    Inv s ->
    T s (foldl (fun acc i => body i acc) s l) /\
    Inv (foldl (fun acc i => body i acc) s l).
Proof.
  intros Hrefl Htrans Hstep l. induction l as [|i l IH]; intros s Hs.
  - simpl. split; [apply Hrefl | exact Hs].
  - simpl. destruct (Hstep i s Hs) as [H1 H2].
    destruct (IH _ H2) as [H3 H4]. split; [|exact H4].
    eapply Htrans; eassumption.
Qed.

Lemma forEach_rel (Inv : St -> Prop) (T : St -> St -> Prop)
    (body : nat -> St -> St) :
  (forall s, T s s) ->
  (forall a b c, T a b -> T b c -> T a c) ->
  (forall i s, Inv s -> T s (body i s) /\ Inv (body i s)) ->
  forall (n : nat) (s : St),
    Inv s -> T s (forEach n body s) /\ Inv (forEach n body s).
Proof. intros ? ? ? n s. unfold forEach. apply foldl_rel; assumption. Qed.

End Loops.

(** ** Lists as stores: what became of each cell *)

Section Tracks.

Context {A : Type}.
Variable R : A -> A -> Prop.     (* how a cell may change *)
Variable N : A -> Prop.          (* what a pushed cell looks like *)

Hypothesis R_refl : forall e, R e e.
Hypothesis R_trans : forall a b c, R a b -> R b c -> R a c.
Hypothesis N_closed : forall a b, N a -> R a b -> N b.

Lemma tracks_refl (l : list A) : tracks R N l l.
Proof.
  split; [lia|]. split.
  - intros k e e' H1 H2. rewrite H1 in H2. injection H2 as <-. apply R_refl.
  - intros k e' Hk H. apply lookup_lt_Some in H. lia.
Qed.

Lemma tracks_trans (l1 l2 l3 : list A) :
  tracks R N l1 l2 -> tracks R N l2 l3 -> tracks R N l1 l3.
Proof.
  intros (L12 & C12 & P12) (L23 & C23 & P23). split; [lia|]. split.
  - intros k e e'' H1 H3.
    assert (Hk : (k < length l2)%nat) by (apply lookup_lt_Some in H1; lia).
    apply lookup_lt_is_Some in Hk. destruct Hk as [e' H2].
    eapply R_trans; [eapply C12 | eapply C23]; eassumption.
  - intros k e'' Hk H3.
    destruct (l2 !! k) as [e'|] eqn:H2.
    + eapply N_closed; [eapply P12 | eapply C23]; eassumption.
    + apply lookup_ge_None in H2. eapply P23; eassumption.
Qed.

Lemma tracks_insert (l : list A) (i : nat) (e e' : A) :
  l !! i = Some e -> R e e' -> tracks R N l (<[i:=e']> l).
Proof.
  intros Hi HR. split; [rewrite length_insert; lia|]. split.
  - intros k a a' H1 H2. destruct (decide (i = k)) as [->|Hne].
    + rewrite list_lookup_insert_eq in H2
        by (eapply lookup_lt_Some; eassumption).
      injection H2 as <-. rewrite Hi in H1. injection H1 as <-. exact HR.
    + rewrite list_lookup_insert_ne in H2 by assumption.
      rewrite H1 in H2. injection H2 as <-. apply R_refl.
  - intros k a' Hk H. apply lookup_lt_Some in H.
    rewrite length_insert in H. lia.
Qed.

Lemma tracks_app (l ps : list A) : Forall N ps -> tracks R N l (l ++ ps).
Proof.
  intros HN. split; [rewrite length_app; lia|]. split.
  - intros k e e' H1 H2.
    rewrite lookup_app_l in H2 by (eapply lookup_lt_Some; eassumption).
    rewrite H1 in H2. injection H2 as <-. apply R_refl.
  - intros k e' Hk H. rewrite lookup_app_r in H by assumption.
    eapply Forall_lookup in HN; eassumption.
Qed.

End Tracks.

Lemma tracks_impl {A : Type} (R R' : A -> A -> Prop) (N N' : A -> Prop)
    (l l' : list A) :
  (forall a b, R a b -> R' a b) -> (forall a, N a -> N' a) ->
  tracks R N l l' -> tracks R' N' l l'.
Proof.
  intros HR HN (L & C & P). split; [exact L|]. split.
  - intros k e e' H1 H2. apply HR. eapply C; eassumption.
  - intros k e' Hk H. apply HN. eapply P; eassumption.
Qed.

(** A count that [R] keeps and no pushed cell adds to is unchanged. *)
Lemma tracks_count {A : Type} (R : A -> A -> Prop) (N : A -> Prop)
    (f : A -> bool) :
  (forall a b, R a b -> f a = f b) -> (forall a, N a -> f a = false) ->
  forall l l' : list A,
    tracks R N l l' ->
    length (List.filter f l') = length (List.filter f l).
Proof.
  intros HR HN l. induction l as [|a l IH]; intros l' (L & C & P).
  - simpl. assert (Hall : Forall (fun e => f e = false) l').
    { apply Forall_lookup. intros k e Hk. apply HN.
      eapply P; [simpl; lia | exact Hk]. }
    clear - Hall. induction Hall as [|e l' He _ IH]; [reflexivity|].
    simpl. rewrite He. exact IH.
  - destruct l' as [|b l']; [simpl in L; lia|].
    assert (Hab : f a = f b) by (apply HR; apply (C 0%nat); reflexivity).
    simpl. rewrite Hab.
    assert (Hrec : length (List.filter f l') = length (List.filter f l)).
    { apply IH. split; [simpl in L; lia|]. split.
      - intros k e e' H1 H2. apply (C (S k)); assumption.
      - intros k e' Hk H. apply (P (S k)); [simpl; lia | exact H]. }
    destruct (f b); simpl; rewrite Hrec; reflexivity.
Qed.

(** ** What the collision phase can do *)

Lemma R_col_refl (e : Entity) : R_col e e.
Proof. split; auto with zarith. Qed.

Lemma R_col_trans (a b c : Entity) : R_col a b -> R_col b c -> R_col a c.
Proof.
  intros [] []. split; try congruence; auto with zarith.
Qed.

Lemma N_col_closed (a b : Entity) : N_col a -> R_col a b -> N_col b.
Proof. unfold N_col. intros [Ha Hb] []. split; congruence. Qed.

Lemma P_col_refl (p : Entity) : P_col p p.
Proof. split; auto with zarith. Qed.

Lemma P_col_trans (a b c : Entity) : P_col a b -> P_col b c -> P_col a c.
Proof.
  intros [? ? ? ? ? K1] [? ? ? ? ? K2]. split; try congruence; [lia|].
  destruct K1 as [[V1 H1]|[V1 H1]], K2 as [[V2 H2]|[V2 H2]].
  - left. split; congruence.
  - right. split; [exact V2 | lia].
  - right. split; [congruence | lia].
  - right. split; [exact V2 | lia].
Qed.

Lemma tracks_col_refl (l : list Entity) : tracks R_col N_col l l.
Proof. apply tracks_refl. apply R_col_refl. Qed.

Lemma tracks_col_trans (l1 l2 l3 : list Entity) :
  tracks R_col N_col l1 l2 -> tracks R_col N_col l2 l3 ->
  tracks R_col N_col l1 l3.
Proof.
  apply tracks_trans; [apply R_col_trans | apply N_col_closed].
Qed.

Lemma col_rel_refl (w : World) : col_rel w w.
Proof.
  split; auto with zarith; [apply P_col_refl | apply tracks_col_refl].
Qed.

Lemma col_rel_trans (a b c : World) : col_rel a b -> col_rel b c -> col_rel a c.
Proof.
  intros [] []. split; try congruence; auto with zarith.
  - eapply P_col_trans; eassumption.
  - eapply tracks_col_trans; eassumption.
Qed.

Section CollisionFacts.

Variable h : Host.

Lemma col_rel_modify (i : nat) (f : Entity -> Entity) (w : World) :
  (forall e, R_col e (f e)) -> col_rel w (modify i f w).
Proof.
  intros Hf. unfold modify. destruct (entities w !! i) as [e|] eqn:Hi.
  - split; try reflexivity; auto with zarith; [apply P_col_refl|].
    simpl. eapply tracks_insert; [apply R_col_refl | exact Hi | apply Hf].
  - apply col_rel_refl.
Qed.

Lemma col_rel_spawnParticle (px py : Q) (col : string) (w : World) :
  col_rel w (spawnParticle h px py col w).
Proof.
  split; try reflexivity; auto with zarith; [apply P_col_refl|].
  simpl. apply tracks_app; [apply R_col_refl|].
  constructor; [split; reflexivity | constructor].
Qed.

Lemma col_rel_iter (n : nat) (f : World -> World) (w : World) :
  (forall w0, col_rel w0 (f w0)) -> col_rel w (Nat.iter n f w).
Proof.
  intros Hf. induction n as [|n IH]; simpl.
  - apply col_rel_refl.
  - eapply col_rel_trans; [exact IH | apply Hf].
Qed.

Lemma col_rel_score (v : Z) (w : World) :
  (score w <= v)%Z -> col_rel w (set_score v w).
Proof.
  intros Hv. split; try reflexivity; auto;
    [apply P_col_refl | apply tracks_col_refl].
Qed.

Lemma col_rel_flag (w : World) : col_rel w (set_bossActive false w).
Proof.
  split; try reflexivity; auto with zarith;
    [apply P_col_refl | apply tracks_col_refl].
Qed.

Lemma col_rel_player (p' : Entity) (w : World) :
  P_col (player w) p' -> col_rel w (set_player p' w).
Proof.
  intros Hp. split; try reflexivity; auto with zarith.
  apply tracks_col_refl.
Qed.

Lemma R_col_set_marked (e : Entity) : R_col e (set_markedForDeletion true e).
Proof. split; auto with zarith. Qed.

Lemma R_col_dec_hp (e : Entity) : R_col e (set_hp (hp e - 1) e).
Proof. split; simpl; auto with zarith. Qed.

Lemma R_col_bullet_hit (e : Entity) : R_col e (bullet_hit e).
Proof.
  unfold bullet_hit. destruct (penetration e) as [n|].
  - destruct (negb (n =? 0)%Z && (n >? 1)%Z).
    + split; auto with zarith.
    + apply R_col_set_marked.
  - apply R_col_set_marked.
Qed.

Lemma col_rel_boss_spark (target : Entity) (w : World) :
  col_rel w (boss_spark h target w).
Proof.
  unfold boss_spark.
  eapply col_rel_trans; [|apply col_rel_spawnParticle].
  split; try reflexivity; auto with zarith;
    [apply P_col_refl | apply tracks_col_refl].
Qed.

Lemma col_rel_kill (j : nat) (target : Entity) (w : World) :
  col_rel w (kill h j target w).
Proof.
  unfold kill. destruct (is_boss target).
  - eapply col_rel_trans; [|apply col_rel_modify, R_col_set_marked].
    eapply col_rel_trans; [|apply col_rel_iter, col_rel_boss_spark].
    eapply col_rel_trans; [|apply col_rel_flag].
    apply col_rel_score. lia.
  - eapply col_rel_trans; [|apply col_rel_modify, R_col_set_marked].
    apply col_rel_score. lia.
Qed.

Lemma col_rel_hit (i j : nat) (w : World) : col_rel w (hit h i j w).
Proof.
  unfold hit.
  destruct (entities w !! i) as [entity|]; [|apply col_rel_refl].
  destruct (entities w !! j) as [target|]; [|apply col_rel_refl].
  destruct (_ && _); [|apply col_rel_refl].
  assert (H3 : col_rel w
    (spawnParticle h (x (pos entity)) (y (pos entity)) (color target)
       (modify i bullet_hit
          (modify j (fun t => set_hp (hp t - 1) t) w)))).
  { eapply col_rel_trans; [|apply col_rel_spawnParticle].
    eapply col_rel_trans; [|apply col_rel_modify, R_col_bullet_hit].
    apply col_rel_modify, R_col_dec_hp. }
  destruct (hp target - 1 <=? 0)%Z; [|exact H3].
  eapply col_rel_trans; [exact H3 | apply col_rel_kill].
Qed.

Lemma col_rel_pickup (i : nat) (entity : Entity) (w : World) :
  col_rel w (pickup h i entity w).
Proof.
  unfold pickup. destruct (isColliding (player w) entity);
    [|apply col_rel_refl].
  eapply col_rel_trans; [|apply col_rel_iter; intros; apply col_rel_spawnParticle].
  eapply col_rel_trans; [|apply col_rel_modify, R_col_set_marked].
  eapply col_rel_trans; [|apply col_rel_score; simpl; lia].
  apply col_rel_player. split; auto with zarith.
Qed.

Lemma P_col_hurt (entity p : Entity) :
  P_col p
    (set_vel_y (-5)
       (set_vel_x (if Qgtb (x (pos entity)) (x (pos p)) then -10 else 10)
          (set_hp (hp p - 10) p))).
Proof.
  split; simpl; try reflexivity;
    try (right; split; [reflexivity | lia]); lia.
Qed.

Lemma col_rel_hurt (i : nat) (entity : Entity) (w : World) :
  col_rel w (hurt h i entity w).
Proof.
  unfold hurt. destruct (isColliding (player w) entity);
    [|apply col_rel_refl].
  eapply col_rel_trans; [|apply col_rel_spawnParticle].
  destruct (EntityType_eqb (type entity) T_boss_projectile).
  - unfold modify. simpl. destruct (entities w !! i) as [e|] eqn:Hi; simpl.
    + split; try reflexivity; simpl; auto with zarith.
      * apply P_col_hurt.
      * eapply tracks_insert;
          [apply R_col_refl | exact Hi | apply R_col_set_marked].
    + split; try reflexivity; simpl; auto with zarith.
      * apply P_col_hurt.
      * apply tracks_col_refl.
  - split; try reflexivity; simpl; auto with zarith.
    + apply P_col_hurt.
    + apply tracks_col_refl.
Qed.

Lemma col_rel_forEach (body : nat -> World -> World) (n : nat) (w : World) :
  (forall i w0, col_rel w0 (body i w0)) -> col_rel w (forEach n body w).
Proof.
  intros Hb.
  refine (proj1 (forEach_rel (fun _ => True) col_rel body
                   col_rel_refl col_rel_trans _ n w I)).
  intros i s _. split; [apply Hb | exact I].
Qed.

Lemma col_rel_collide (i : nat) (w : World) : col_rel w (collide h i w).
Proof.
  unfold collide. destruct (entities w !! i) as [entity|];
    [|apply col_rel_refl].
  destruct (markedForDeletion entity); [apply col_rel_refl|].
  destruct (type entity); try apply col_rel_refl.
  - apply col_rel_hurt.
  - apply col_rel_forEach. intros j w0. apply col_rel_hit.
  - apply col_rel_pickup.
  - apply col_rel_hurt.
Qed.

Lemma col_rel_collisions (w : World) : col_rel w (collisions h w).
Proof. apply col_rel_forEach. apply col_rel_collide. Qed.

End CollisionFacts.

(** ** What the entity update loop can do *)

Lemma R_mv_refl (e : Entity) : R_mv e e.
Proof. split; auto. Qed.

Lemma R_mv_trans (a b c : Entity) : R_mv a b -> R_mv b c -> R_mv a c.
Proof. intros [] []. split; try congruence; auto. Qed.

Ltac break_if :=
  match goal with
  | |- context [if ?c then _ else _] => destruct c
  end.

Ltac solve_mv := repeat break_if; split; simpl; auto.

Lemma R_mv_land (platform e : Entity) : R_mv e (land platform e).
Proof. split; auto. Qed.

Lemma R_mv_resolve_platforms (plats : list Entity) (e : Entity) :
  R_mv e (resolve_platforms plats e).
Proof.
  unfold resolve_platforms. revert e.
  induction plats as [|p plats IH]; intros e; simpl.
  - apply R_mv_refl.
  - eapply R_mv_trans; [|apply IH].
    destruct (lands e p); [apply R_mv_land | apply R_mv_refl].
Qed.

Lemma R_mv_apply_gravity (e : Entity) : R_mv e (apply_gravity e).
Proof. unfold apply_gravity. solve_mv. Qed.

Lemma R_mv_tick_ttl (floats : bool) (e : Entity) : R_mv e (tick_ttl floats e).
Proof.
  unfold tick_ttl. destruct (ttl e) as [t|]; [|apply R_mv_refl]. solve_mv.
Qed.

Section UpdateFacts.

Variable h : Host.

Lemma R_mv_powerup_ai (w : World) (e : Entity) : R_mv e (powerup_ai h w e).
Proof. unfold powerup_ai. solve_mv. Qed.

Lemma R_mv_phase_switch (e : Entity) : R_mv e (phase_switch e).
Proof. unfold phase_switch. solve_mv. Qed.

Lemma R_mv_boss_ai (w : World) (e : Entity) : R_mv e (boss_ai h w e).1.
Proof.
  unfold boss_ai. destruct (bool_decide (bossPhase e = Some 0%Z)).
  - simpl. solve_mv.
  - match goal with
    | |- context [phase_switch ?a] =>
        assert (H1 : R_mv e a) by (split; auto);
        assert (H2 := R_mv_phase_switch a);
        generalize dependent (phase_switch a)
    end.
    intros e2 H2. assert (H3 := R_mv_trans _ _ _ H1 H2). clear H1 H2.
    simpl. break_if; simpl; destruct H3; split; simpl; auto.
Qed.

Lemma R_mv_drone_ai (w : World) (r : Q) (e : Entity) :
  R_mv e (drone_ai h w r e).1.1.
Proof. unfold drone_ai. solve_mv. Qed.

Lemma R_mv_jumper_ai (w : World) (r : Q) (e : Entity) :
  R_mv e (jumper_ai w r e).1.
Proof. unfold jumper_ai. solve_mv. Qed.

Lemma R_mv_runner_ai (e : Entity) : R_mv e (runner_ai e).
Proof. split; auto. Qed.

Lemma R_mv_apply_position (e : Entity) : R_mv e (apply_position e).
Proof. unfold apply_position. solve_mv. Qed.

Lemma R_mv_enemy_platforms (w : World) (e : Entity) :
  R_mv e (enemy_platforms w e).
Proof.
  unfold enemy_platforms. break_if;
    [apply R_mv_resolve_platforms | apply R_mv_refl].
Qed.

Lemma R_mv_enemy_cleanup (w : World) (e : Entity) : R_mv e (enemy_cleanup w e).
Proof. unfold enemy_cleanup. solve_mv. Qed.

Lemma R_mv_enemy_ai (w : World) (e : Entity) : R_mv e (enemy_ai h w e).1.1.
Proof.
  unfold enemy_ai.
  assert (Hstep : forall e1, R_mv e e1 ->
            R_mv e (enemy_cleanup w (enemy_platforms w (apply_position e1)))).
  { intros e1 H1. eapply R_mv_trans; [|apply R_mv_enemy_cleanup].
    eapply R_mv_trans; [|apply R_mv_enemy_platforms].
    eapply R_mv_trans; [exact H1 | apply R_mv_apply_position]. }
  destruct (is_boss e).
  - pose proof (R_mv_boss_ai w e) as Hb.
    destruct (boss_ai h w e) as [e1 ps]. simpl. apply Hstep, Hb.
  - destruct (subtype_is (subtype e) drone).
    + pose proof (R_mv_drone_ai w (random h w) e) as Hd.
      destruct (drone_ai h w (random h w) e) as [[e1 ps] k]. simpl.
      apply Hstep, Hd.
    + destruct (subtype_is (subtype e) jumper).
      * pose proof (R_mv_jumper_ai w (random h w) e) as Hj.
        destruct (jumper_ai w (random h w) e) as [e1 k]. simpl.
        apply Hstep, Hj.
      * simpl. apply Hstep, R_mv_runner_ai.
Qed.

Lemma R_mv_projectile_ai (w : World) (e : Entity) :
  R_mv e (projectile_ai w e).
Proof.
  unfold projectile_ai.
  match goal with
  | |- context [tick_ttl true ?a] =>
      assert (H1 : R_mv e a) by (split; auto);
      assert (H2 := R_mv_tick_ttl true a);
      generalize dependent (tick_ttl true a)
  end.
  intros e2 H2. assert (H3 := R_mv_trans _ _ _ H1 H2). clear H1 H2.
  simpl. break_if; destruct H3; split; simpl; auto.
Qed.

Lemma R_mv_particle_ai (e : Entity) : R_mv e (particle_ai e).
Proof.
  unfold particle_ai. eapply R_mv_trans; [|apply R_mv_tick_ttl].
  split; auto.
Qed.

(** The visited entity keeps its identity, kind, hp and penetration. *)
Lemma R_mv_ai (w : World) (e : Entity) : R_mv e (ai h w e).1.1.
Proof.
  unfold ai. pose proof (R_mv_apply_gravity e) as Hg.
  generalize dependent (apply_gravity e). intros e1 Hg.
  destruct (type e1); simpl; try exact Hg.
  - eapply R_mv_trans; [exact Hg | apply R_mv_enemy_ai].
  - eapply R_mv_trans; [exact Hg | apply R_mv_projectile_ai].
  - eapply R_mv_trans; [exact Hg | apply R_mv_particle_ai].
  - eapply R_mv_trans; [exact Hg | apply R_mv_powerup_ai].
  - eapply R_mv_trans; [exact Hg | apply R_mv_projectile_ai].
Qed.

Lemma ai_pushed (w : World) (e : Entity) :
  Forall is_projectile (ai h w e).1.2.
Proof.
  unfold ai. generalize (apply_gravity e). intros e1.
  destruct (type e1); simpl; try constructor.
  unfold enemy_ai.
  destruct (is_boss e1).
  - assert (Hb : Forall is_projectile (boss_ai h w e1).2).
    { unfold boss_ai. repeat break_if; simpl;
        repeat constructor. }
    destruct (boss_ai h w e1) as [e2 ps]. exact Hb.
  - destruct (subtype_is (subtype e1) drone).
    + assert (Hd : Forall is_projectile (drone_ai h w (random h w) e1).1.2).
      { unfold drone_ai. repeat break_if; simpl; repeat constructor. }
      destruct (drone_ai h w (random h w) e1) as [[e2 ps] k]. exact Hd.
    + destruct (subtype_is (subtype e1) jumper).
      * destruct (jumper_ai w (random h w) e1) as [e2 k]. constructor.
      * constructor.
Qed.

End UpdateFacts.

Lemma upd_rel_refl (w : World) : upd_rel w w.
Proof. split; reflexivity. Qed.

Lemma upd_rel_trans (a b c : World) : upd_rel a b -> upd_rel b c -> upd_rel a c.
Proof. intros [] []. split; congruence. Qed.

Section UpdateLoop.

Variable h : Host.

Lemma update_entity_upd_rel (i : nat) (w : World) :
  upd_rel w (update_entity h i w).
Proof.
  unfold update_entity. destruct (entities w !! i) as [e|];
    [|apply upd_rel_refl].
  destruct (markedForDeletion e); [apply upd_rel_refl|].
  match goal with |- context [ai h ?w1 e] => destruct (ai h w1 e) as [[e' ps] k] end.
  break_if; split; reflexivity.
Qed.

Lemma update_entity_entities (i : nat) (w : World) (e : Entity) :
  entities w !! i = Some e ->
  markedForDeletion e = false ->
  exists w1, upd_rel w w1 /\
    entities (update_entity h i w) =
      <[i := (ai h w1 e).1.1]> (entities w) ++ (ai h w1 e).1.2.
Proof.
  intros Hi Hm. unfold update_entity. rewrite Hi, Hm.
  match goal with |- context [ai h ?w1 e] => exists w1 end.
  split; [break_if; split; reflexivity|].
  match goal with |- context [ai h ?w1 e] => destruct (ai h w1 e) as [[e' ps] k] end.
  break_if; reflexivity.
Qed.

Lemma update_entity_skip (i : nat) (w : World) :
  match entities w !! i with
  | Some e => markedForDeletion e = true
  | None => True
  end ->
  update_entity h i w = w.
Proof.
  unfold update_entity. destruct (entities w !! i) as [e|]; [|reflexivity].
  intros ->. reflexivity.
Qed.

Lemma upd_inv_0 (w : World) : upd_inv h w 0 w.
Proof.
  split.
  - apply upd_rel_refl.
  - lia.
  - intros i e e' Hi. lia.
  - reflexivity.
  - intros i e' Hi He. apply lookup_lt_Some in He. lia.
Qed.

Lemma upd_inv_S (w : World) (k : nat) (wk : World) :
  (k < length (entities w))%nat ->
  upd_inv h w k wk -> upd_inv h w (S k) (update_entity h k wk).
Proof.
  intros Hk [Hrel Hlen Hdone Htodo Hnew].
  destruct (entities w !! k) as [e|] eqn:Hwk;
    [|apply lookup_ge_None in Hwk; lia].
  assert (Hcell : entities wk !! k = Some e)
    by (rewrite Htodo by lia; exact Hwk).
  destruct (markedForDeletion e) eqn:Hm.
  - rewrite update_entity_skip by (rewrite Hcell; exact Hm).
    split; auto.
    + intros i a a' Hi Ha Ha'. destruct (decide (i = k)) as [->|Hne].
      * left. rewrite Hwk in Ha. injection Ha as <-.
        rewrite Hcell in Ha'. injection Ha' as <-. auto.
      * eapply Hdone; [|eassumption..]. lia.
    + intros i Hi1 Hi2. apply Htodo; lia.
  - destruct (update_entity_entities k wk e Hcell Hm) as (w1 & Hw1 & Heq).
    assert (Hkk : (k < length (entities wk))%nat) by lia.
    split.
    + eapply upd_rel_trans; [exact Hrel | apply update_entity_upd_rel].
    + rewrite Heq, length_app, length_insert. lia.
    + intros i a a' Hi Ha Ha'. rewrite Heq in Ha'.
      assert (Hil : (i < length (entities wk))%nat)
        by (apply lookup_lt_Some in Ha; lia).
      rewrite lookup_app_l in Ha' by (rewrite length_insert; exact Hil).
      destruct (decide (i = k)) as [->|Hne].
      * rewrite list_lookup_insert_eq in Ha' by exact Hil.
        injection Ha' as <-. rewrite Hwk in Ha. injection Ha as <-.
        right. split; [exact Hm|]. exists w1. split; [|reflexivity].
        eapply upd_rel_trans; eassumption.
      * rewrite list_lookup_insert_ne in Ha' by auto.
        eapply Hdone; [|eassumption..]. lia.
    + intros i Hi1 Hi2. rewrite Heq.
      rewrite lookup_app_l by (rewrite length_insert; lia).
      rewrite list_lookup_insert_ne by lia. apply Htodo; lia.
    + intros i a' Hi Ha'. rewrite Heq in Ha'.
      destruct (decide (i < length (entities wk))%nat) as [Hlt|Hge].
      * rewrite lookup_app_l in Ha' by (rewrite length_insert; exact Hlt).
        rewrite list_lookup_insert_ne in Ha' by lia.
        eapply Hnew; eassumption.
      * rewrite lookup_app_r in Ha' by (rewrite length_insert; lia).
        pose proof (ai_pushed h w1 e) as Hp.
        eapply Forall_lookup in Hp; eassumption.
Qed.

Lemma upd_inv_forEach (w : World) (k : nat) :
  (k <= length (entities w))%nat ->
  upd_inv h w k (forEach k (update_entity h) w).
Proof.
  induction k as [|k IH]; intros Hk.
  - apply upd_inv_0.
  - rewrite forEach_S. apply upd_inv_S; [lia|]. apply IH. lia.
Qed.

(** The update loop, cell by cell. *)
Lemma update_entities_tracks (w : World) :
  upd_rel w (update_entities h w) /\
  tracks (R_ai h w) is_projectile (entities w) (entities (update_entities h w)).
Proof.
  unfold update_entities.
  destruct (upd_inv_forEach w (length (entities w)) (le_n _))
    as [Hrel Hlen Hdone Htodo Hnew].
  split; [exact Hrel|]. split; [exact Hlen|]. split.
  - intros k e e' He He'. eapply Hdone; [|eassumption..].
    eapply lookup_lt_Some; eassumption.
  - exact Hnew.
Qed.

(** A visit keeps identity, kind and hp, whether it skips or not. *)
Lemma R_ai_R_mv (w : World) (e e' : Entity) : R_ai h w e e' -> R_mv e e'.
Proof.
  intros [[_ ->]|[_ (w' & _ & ->)]]; [apply R_mv_refl | apply R_mv_ai].
Qed.

End UpdateLoop.

(** ** The phases before the loops *)

Section Phases.

Variable h : Host.

Lemma update_playing (w : World) :
  gameStatus w = PLAYING ->
  update h w = finish (cleanup (pre_cleanup h w)).
Proof. intros H. unfold update. rewrite H. reflexivity. Qed.

Lemma update_not_playing (w : World) :
  gameStatus w <> PLAYING -> update h w = w.
Proof. unfold update. destruct (gameStatus w); congruence. Qed.

Lemma spawnBullet_new (p : Entity) (ws : WeaponStats) (vx vy : Q)
    (t : option Z) :
  is_new_bullet (spawnBullet p ws vx vy t).
Proof.
  unfold is_new_bullet, spawnBullet. simpl.
  destruct (weapon_is (weaponType p) laser); auto 10.
Qed.

Lemma shoot_spec (w : World) :
  push_rel w (shoot h w) /\ bossActive (shoot h w) = bossActive w /\
  exists bs, entities (shoot h w) = entities w ++ bs /\
             Forall is_new_bullet bs.
Proof.
  unfold shoot, fireBullet, push, draw.
  repeat break_if; simpl;
    (split; [split; reflexivity|]; split; [reflexivity|]).
  all: try (exists []; rewrite app_nil_r; split; [reflexivity|constructor]).
  - eexists [_; _; _]. rewrite <- !app_assoc. simpl.
    split; [reflexivity|]. repeat (constructor; [apply spawnBullet_new|]); constructor.
  - eexists [_]. split; [reflexivity|].
    repeat (constructor; [apply spawnBullet_new|]); constructor.
  - eexists [_]. split; [reflexivity|].
    repeat (constructor; [apply spawnBullet_new|]); constructor.
Qed.

Lemma player_physics_spec (w : World) :
  player_physics w =
  set_player
    (resolve_platforms (platforms w)
       (set_isGrounded (Some false)
          (bounds (canvas w) (integrate (steer (input w) (player w)))))) w.
Proof. reflexivity. Qed.

Lemma spawnEnemy_spec (w : World) :
  push_rel w (spawnEnemy h w) /\
  bossActive (spawnEnemy h w) = bossActive w /\
  exists ps, entities (spawnEnemy h w) = entities w ++ ps /\
             Forall is_new_ambient ps /\
             (bossActive w = true -> ps = []) /\
             (bossActive w = false -> length ps = 1%nat).
Proof.
  unfold spawnEnemy. destruct (bossActive w) eqn:Hb.
  - split; [split; reflexivity|]. split; [auto|].
    exists []. rewrite app_nil_r. repeat split; auto. discriminate.
  - unfold push, draw, random.
    repeat break_if; simpl;
      (split; [split; reflexivity|]; split; [exact Hb|]);
      (eexists [_]; split; [reflexivity|]);
      (split; [repeat constructor; simpl; lia|]);
      (split; [discriminate | reflexivity]).
Qed.

Lemma spawnPowerup_spec (w : World) :
  push_rel w (spawnPowerup h w) /\
  bossActive (spawnPowerup h w) = bossActive w /\
  exists e, entities (spawnPowerup h w) = entities w ++ [e] /\
            is_new_ambient e /\ type e = T_powerup.
Proof.
  unfold spawnPowerup, push, draw. simpl.
  split; [split; reflexivity|]. split; [reflexivity|].
  eexists. split; [reflexivity|]. split; [|reflexivity].
  repeat split; simpl; lia.
Qed.

Lemma push_rel_refl (w : World) : push_rel w w.
Proof. split; reflexivity. Qed.

Lemma push_rel_trans (a b c : World) :
  push_rel a b -> push_rel b c -> push_rel a c.
Proof. intros [] []. split; congruence. Qed.

(** The spawner: a boss exactly when one is due, and ordinary enemies and
    powerups only when no boss is active after that. *)
Lemma spawning_spec (w : World) :
  push_rel w (spawning h w) /\
  bossActive (spawning h w) = bossActive w || boss_due w /\
  exists ambient,
    entities (spawning h w) =
      entities w ++ (if boss_due w then [newBoss (canvas w)] else [])
                 ++ ambient /\
    Forall is_new_ambient ambient /\
    (bossActive w || boss_due w = true -> ambient = []).
Proof.
  unfold spawning.
  set (w1 := if boss_due w then spawnBoss w else w).
  assert (H1 : push_rel w w1 /\ bossActive w1 = bossActive w || boss_due w /\
               entities w1 = entities w ++
                 (if boss_due w then [newBoss (canvas w)] else [])).
  { subst w1. destruct (boss_due w) eqn:Hd.
    - split; [split; reflexivity|]. split; [|reflexivity].
      simpl. rewrite orb_true_r. reflexivity.
    - split; [apply push_rel_refl|]. rewrite orb_false_r, app_nil_r. auto. }
  clearbody w1. destruct H1 as (P1 & F1 & E1).
  set (w2 := if (Z.rem (frameCount w1) 120 =? 0)%Z then spawnEnemy h w1 else w1).
  assert (H2 : push_rel w1 w2 /\ bossActive w2 = bossActive w1 /\
               exists ps, entities w2 = entities w1 ++ ps /\
                 Forall is_new_ambient ps /\
                 (bossActive w1 = true -> ps = [])).
  { subst w2. destruct (Z.rem (frameCount w1) 120 =? 0)%Z.
    - destruct (spawnEnemy_spec w1) as (P & F & ps & E & A & Z1 & _).
      split; [exact P|]. split; [exact F|]. exists ps. auto.
    - split; [apply push_rel_refl|]. split; [reflexivity|].
      exists []. rewrite app_nil_r. auto. }
  clearbody w2. destruct H2 as (P2 & F2 & ps & E2 & A2 & Z2).
  destruct ((Z.rem (frameCount w2) 900 =? 0)%Z && negb (bossActive w2)) eqn:Hc.
  - destruct (spawnPowerup_spec w2) as (P & F & e & E & A & _).
    apply andb_true_iff in Hc. destruct Hc as [_ Hc].
    apply negb_true_iff in Hc.
    split; [eapply push_rel_trans; [|exact P];
            eapply push_rel_trans; eassumption|].
    split; [congruence|].
    exists (ps ++ [e]). split; [rewrite E, E2, E1, <- !app_assoc; reflexivity|].
    split; [apply Forall_app; split;
            [exact A2 | constructor; [exact A | constructor]]|].
    intros Hb. rewrite F2, F1 in Hc. congruence.
  - split; [eapply push_rel_trans; eassumption|]. split; [congruence|].
    exists ps. split; [rewrite E2, E1, <- !app_assoc; reflexivity|].
    split; [exact A2|]. intros Hb. apply Z2. congruence.
Qed.

End Phases.

(** ** Reading a cell after a write *)

Lemma modify_lookup (i j : nat) (f : Entity -> Entity) (w : World) :
  entities (modify i f w) !! j =
  if decide (i = j) then f <$> (entities w !! j) else entities w !! j.
Proof.
  unfold modify. destruct (decide (i = j)) as [->|Hne].
  - destruct (entities w !! j) as [e|] eqn:Hj; simpl.
    + apply list_lookup_insert_eq. eapply lookup_lt_Some; eassumption.
    + exact Hj.
  - destruct (entities w !! i) as [e|]; [|reflexivity].
    simpl. apply list_lookup_insert_ne. exact Hne.
Qed.

Lemma modify_length (i : nat) (f : Entity -> Entity) (w : World) :
  length (entities (modify i f w)) = length (entities w).
Proof.
  unfold modify. destruct (entities w !! i); [|reflexivity].
  simpl. apply length_insert.
Qed.

(** ** No live entity without hp *)

Lemma ok_but_of_Forall (j : nat) (l : list Entity) :
  Forall alive_or_flagged l -> ok_but j l.
Proof. intros H k e Hk _. eapply Forall_lookup in H; eassumption. Qed.

Lemma ok_but_close (j : nat) (l : list Entity) :
  ok_but j l ->
  (forall e, l !! j = Some e -> alive_or_flagged e) ->
  Forall alive_or_flagged l.
Proof.
  intros H Hj. apply Forall_lookup. intros k e Hk.
  destruct (decide (k = j)) as [->|Hne]; [apply Hj | eapply H]; eassumption.
Qed.

Lemma ok_but_modify (i j : nat) (f : Entity -> Entity) (w : World) :
  (i = j \/ forall e, alive_or_flagged e -> alive_or_flagged (f e)) ->
  ok_but j (entities w) -> ok_but j (entities (modify i f w)).
Proof.
  intros Hf H k e Hk Hne. rewrite modify_lookup in Hk.
  destruct (decide (i = k)) as [->|Hik]; [|eapply H; eassumption].
  destruct Hf as [->|Hf]; [congruence|].
  destruct (entities w !! k) as [e0|] eqn:Hk0; [|discriminate].
  injection Hk as <-. apply Hf. eapply H; eassumption.
Qed.

Lemma ok_but_app (j : nat) (l ps : list Entity) :
  (j < length l)%nat -> Forall alive_or_flagged ps ->
  ok_but j l -> ok_but j (l ++ ps).
Proof.
  intros Hj Hps H k e Hk Hne.
  destruct (decide (k < length l)%nat) as [Hlt|Hge].
  - rewrite lookup_app_l in Hk by exact Hlt. eapply H; eassumption.
  - rewrite lookup_app_r in Hk by lia.
    eapply Forall_lookup in Hps; eassumption.
Qed.

Lemma alive_bullet_hit (e : Entity) :
  alive_or_flagged e -> alive_or_flagged (bullet_hit e).
Proof.
  unfold alive_or_flagged, bullet_hit. intros H.
  destruct (penetration e) as [n|]; [|right; reflexivity].
  break_if; [exact H | right; reflexivity].
Qed.

Lemma bullet_hit_hp (e : Entity) : hp (bullet_hit e) = hp e.
Proof.
  unfold bullet_hit. destruct (penetration e); repeat break_if; reflexivity.
Qed.

Section Alive.

Variable h : Host.

(** The entity list after [spawnParticle]. *)
Lemma spawnParticle_entities (px py : Q) (col : string) (w : World) :
  exists p, entities (spawnParticle h px py col w) = entities w ++ [p] /\
            type p = T_particle /\ hp p = 1%Z /\
            markedForDeletion p = false.
Proof. eexists. split; [reflexivity|]. auto. Qed.

Lemma boss_spark_entities (target : Entity) (w : World) :
  exists p, entities (boss_spark h target w) = entities w ++ [p] /\
            type p = T_particle /\ hp p = 1%Z /\
            markedForDeletion p = false.
Proof. eexists. split; [reflexivity|]. auto. Qed.

Lemma ok_but_spawnParticle (j : nat) (px py : Q) (col : string) (w : World) :
  (j < length (entities w))%nat ->
  ok_but j (entities w) -> ok_but j (entities (spawnParticle h px py col w)).
Proof.
  intros Hj H.
  destruct (spawnParticle_entities px py col w) as (p & -> & _ & Hp & _).
  apply ok_but_app; [exact Hj | | exact H].
  constructor; [left; lia | constructor].
Qed.

Lemma ok_but_sparks (j : nat) (target : Entity) (n : nat) (w : World) :
  (j < length (entities w))%nat ->
  ok_but j (entities w) ->
  ok_but j (entities (Nat.iter n (boss_spark h target) w)) /\
  (j < length (entities (Nat.iter n (boss_spark h target) w)))%nat.
Proof.
  intros Hj H. induction n as [|n [IH1 IH2]]; [simpl; auto|].
  rewrite Nat.iter_succ.
  destruct (boss_spark_entities target (Nat.iter n (boss_spark h target) w))
    as (p & -> & _ & Hp & _).
  split; [|rewrite length_app; lia].
  apply ok_but_app; [exact IH2 | | exact IH1].
  constructor; [left; lia | constructor].
Qed.

Lemma alive_modify_flag (j : nat) (w : World) :
  ok_but j (entities w) ->
  Forall alive_or_flagged
    (entities (modify j (set_markedForDeletion true) w)).
Proof.
  intros H. eapply (ok_but_close j).
  - apply ok_but_modify; [left; reflexivity | exact H].
  - intros e He. rewrite modify_lookup in He.
    destruct (decide (j = j)); [|congruence].
    destruct (entities w !! j); [|discriminate].
    injection He as <-. right. reflexivity.
Qed.

Lemma alive_kill (j : nat) (target : Entity) (w : World) :
  (j < length (entities w))%nat ->
  ok_but j (entities w) ->
  Forall alive_or_flagged (entities (kill h j target w)).
Proof.
  intros Hj H. unfold kill. destruct (is_boss target).
  - apply alive_modify_flag.
    apply (ok_but_sparks j target 50
             (set_bossActive false (set_score (score w + 5000) w)));
      assumption.
  - apply alive_modify_flag. exact H.
Qed.

Lemma alive_hit (i j : nat) (w : World) :
  Forall alive_or_flagged (entities w) ->
  Forall alive_or_flagged (entities (hit h i j w)).
Proof.
  intros H. unfold hit.
  destruct (entities w !! i) as [entity|] eqn:Hi; [|exact H].
  destruct (entities w !! j) as [target|] eqn:Hj; [|exact H].
  destruct (_ && _) eqn:Hc; [|exact H].
  set (w1 := modify j (fun t => set_hp (hp t - 1) t) w).
  set (w2 := modify i bullet_hit w1).
  assert (Hlen : (j < length (entities w2))%nat).
  { subst w2 w1. rewrite !modify_length.
    eapply lookup_lt_Some; eassumption. }
  assert (Hok : ok_but j (entities w2)).
  { subst w2 w1. apply ok_but_modify; [right; apply alive_bullet_hit|].
    apply ok_but_modify; [left; reflexivity|].
    apply ok_but_of_Forall, H. }
  assert (Hok3 := ok_but_spawnParticle j (x (pos entity)) (y (pos entity))
                    (color target) w2 Hlen Hok).
  destruct (hp target - 1 <=? 0)%Z eqn:Hz.
  - apply alive_kill; [|exact Hok3].
    destruct (spawnParticle_entities (x (pos entity)) (y (pos entity))
                (color target) w2) as (p & -> & _).
    rewrite length_app. lia.
  - apply (ok_but_close j); [exact Hok3|].
    intros e He.
    destruct (spawnParticle_entities (x (pos entity)) (y (pos entity))
                (color target) w2) as (p & Hp & _).
    rewrite Hp in He. rewrite lookup_app_l in He by exact Hlen.
    subst w2 w1. rewrite !modify_lookup in He. rewrite Hj in He.
    left. apply Z.leb_gt in Hz.
    destruct (decide (j = j)); [|congruence]. simpl in He.
    destruct (decide (i = j)); simpl in He; injection He as <-.
    + rewrite bullet_hit_hp. simpl. lia.
    + simpl. lia.
Qed.

Lemma alive_modify (i : nat) (f : Entity -> Entity) (w : World) :
  (forall e, alive_or_flagged e -> alive_or_flagged (f e)) ->
  Forall alive_or_flagged (entities w) ->
  Forall alive_or_flagged (entities (modify i f w)).
Proof.
  intros Hf H. apply Forall_lookup. intros k e Hk.
  rewrite modify_lookup in Hk.
  destruct (decide (i = k)); [|eapply Forall_lookup in H; eassumption].
  destruct (entities w !! k) eqn:Hk0; [|discriminate]. injection Hk as <-.
  apply Hf. eapply Forall_lookup in H; eassumption.
Qed.

Lemma alive_spawnParticle (px py : Q) (col : string) (w : World) :
  Forall alive_or_flagged (entities w) ->
  Forall alive_or_flagged (entities (spawnParticle h px py col w)).
Proof.
  intros H. simpl. apply Forall_app. split; [exact H|].
  constructor; [left; simpl; lia | constructor].
Qed.

Lemma alive_iter_spawnParticle (n : nat) (px py : Q) (col : string)
    (w : World) :
  Forall alive_or_flagged (entities w) ->
  Forall alive_or_flagged
    (entities (Nat.iter n (spawnParticle h px py col) w)).
Proof.
  intros H. induction n as [|n IH]; [exact H|].
  rewrite Nat.iter_succ. apply alive_spawnParticle, IH.
Qed.

Lemma alive_flag (e : Entity) :
  alive_or_flagged e -> alive_or_flagged (set_markedForDeletion true e).
Proof. intros _. right. reflexivity. Qed.

Lemma alive_collide (i : nat) (w : World) :
  Forall alive_or_flagged (entities w) ->
  Forall alive_or_flagged (entities (collide h i w)).
Proof.
  intros H. unfold collide.
  destruct (entities w !! i) as [entity|]; [|exact H].
  destruct (markedForDeletion entity); [exact H|].
  assert (Hhurt : Forall alive_or_flagged (entities (hurt h i entity w))).
  { unfold hurt. break_if; [|exact H]. apply alive_spawnParticle.
    simpl. destruct (EntityType_eqb (type entity) T_boss_projectile);
      [|exact H].
    apply (alive_modify i _
             (set_player (set_hp (hp (player w) - 10) (player w)) w));
      [apply alive_flag | exact H]. }
  destruct (type entity); try exact H; try exact Hhurt.
  - refine (proj2 (forEach_rel
              (fun s => Forall alive_or_flagged (entities s))
              (fun _ _ => True) (hit h i) _ _ _ _ w H)); auto.
    intros j s Hs. split; [exact I | apply alive_hit, Hs].
  - unfold pickup. break_if; [|exact H].
    apply alive_iter_spawnParticle.
    apply alive_modify; [apply alive_flag | exact H].
Qed.

Lemma alive_collisions (w : World) :
  Forall alive_or_flagged (entities w) ->
  Forall alive_or_flagged (entities (collisions h w)).
Proof.
  intros H.
  refine (proj2 (forEach_rel
            (fun s => Forall alive_or_flagged (entities s))
            (fun _ _ => True) (collide h) _ _ _ _ w H)); auto.
  intros i s Hs. split; [exact I | apply alive_collide, Hs].
Qed.

End Alive.

(** ** The tick, stage by stage *)

Section Tick.

Variable h : Host.

Lemma pre_cleanup_stages (w : World) :
  pre_cleanup h w = collisions h (at_collisions h w).
Proof. unfold pre_cleanup, at_collisions, at_loop. reflexivity. Qed.

Lemma update_cases (w : World) :
  gameStatus w = PLAYING \/ update h w = w.
Proof.
  destruct (gameStatus w) eqn:Hs; [right..|left; reflexivity|right];
    apply update_not_playing; congruence.
Qed.

Lemma at_spawn_spec (w : World) :
  gameStatus (at_spawn h w) = gameStatus w /\
  frameCount (at_spawn h w) = (frameCount w + 1)%Z /\
  bossActive (at_spawn h w) = bossActive w /\
  score (at_spawn h w) = score w /\
  platforms (at_spawn h w) = platforms w /\
  canvas (at_spawn h w) = canvas w /\
  input (at_spawn h w) = input w /\
  player (at_spawn h w) =
    player (player_physics (set_frameCount (frameCount w + 1)%Z w)) /\
  exists bs, entities (at_spawn h w) = entities w ++ bs /\
             Forall is_new_bullet bs.
Proof.
  unfold at_spawn, pre_spawn.
  set (w0 := player_physics (set_frameCount (frameCount w + 1)%Z w)).
  destruct (shoot_spec h w0) as ([] & F & bs & E & B).
  repeat split; try assumption.
  exists bs. split; [exact E | exact B].
Qed.

Lemma at_loop_spec (w : World) :
  gameStatus (at_loop h w) = gameStatus w /\
  frameCount (at_loop h w) = (frameCount w + 1)%Z /\
  bossActive (at_loop h w) = bossActive w || boss_due (at_spawn h w) /\
  score (at_loop h w) = score w /\
  platforms (at_loop h w) = platforms w /\
  canvas (at_loop h w) = canvas w /\
  input (at_loop h w) = input w /\
  player (at_loop h w) = player (at_spawn h w) /\
  exists ambient,
    entities (at_loop h w) =
      entities (at_spawn h w)
      ++ (if boss_due (at_spawn h w) then [newBoss (canvas w)] else [])
      ++ ambient /\
    Forall is_new_ambient ambient /\
    (bossActive w || boss_due (at_spawn h w) = true -> ambient = []).
Proof.
  destruct (at_spawn_spec w) as (S1 & S2 & S3 & S4 & S5 & S6 & S7 & _).
  destruct (spawning_spec h (at_spawn h w)) as ([] & F & amb & E & A & Z0).
  unfold at_loop. fold (at_spawn h w).
  generalize dependent (spawning h (at_spawn h w)). intros ws Pst Pfr Ppl Ppf
    Psc Pin Pcv Phu Pgo F E.
  cbn [set_currentBossHp gameStatus frameCount bossActive player entities
       platforms score input canvas].
  rewrite <- S3, <- S6.
  repeat split; try congruence.
  exists amb. repeat split; assumption.
Qed.

Lemma at_collisions_spec (w : World) :
  upd_rel (at_loop h w) (at_collisions h w) /\
  tracks (R_ai h (at_loop h w)) is_projectile
    (entities (at_loop h w)) (entities (at_collisions h w)).
Proof. apply update_entities_tracks. Qed.

Lemma finish_spec (w : World) :
  entities (finish w) = entities w /\ score (finish w) = score w /\
  player (finish w) = player w /\ bossActive (finish w) = bossActive w /\
  frameCount (finish w) = frameCount w /\
  platforms (finish w) = platforms w /\ canvas (finish w) = canvas w /\
  input (finish w) = input w.
Proof.
  unfold finish, syncHud, onGameOver. repeat break_if; simpl; auto 10.
Qed.

Lemma cleanup_score (w : World) : score (cleanup w) = score w.
Proof. reflexivity. Qed.

Lemma cleanup_player (w : World) : player (cleanup w) = player w.
Proof. reflexivity. Qed.

Lemma cleanup_bossActive (w : World) : bossActive (cleanup w) = bossActive w.
Proof. reflexivity. Qed.

Lemma cleanup_frameCount (w : World) : frameCount (cleanup w) = frameCount w.
Proof. reflexivity. Qed.

Lemma cleanup_gameStatus (w : World) : gameStatus (cleanup w) = gameStatus w.
Proof. reflexivity. Qed.

Lemma cleanup_entities (w : World) :
  entities (cleanup w) =
  List.filter (fun e => negb (markedForDeletion e)) (entities w).
Proof. reflexivity. Qed.

Lemma score_pre_cleanup (w : World) : (score w <= score (pre_cleanup h w))%Z.
Proof.
  rewrite pre_cleanup_stages.
  pose proof (Cr_score _ _ (col_rel_collisions h (at_collisions h w))) as C.
  pose proof (Ur_score _ _ (proj1 (at_collisions_spec w))) as U.
  destruct (at_loop_spec w) as (_ & _ & _ & S4 & _).
  lia.
Qed.

Lemma score_update (w : World) : (score w <= score (update h w))%Z.
Proof.
  destruct (update_cases w) as [Hp| ->]; [|lia].
  rewrite update_playing by exact Hp.
  destruct (finish_spec (cleanup (pre_cleanup h w))) as (_ & -> & _).
  rewrite cleanup_score. apply score_pre_cleanup.
Qed.

Lemma handleKeyDown_spec (code : string) (w : World) :
  gameStatus (handleKeyDown code w) = gameStatus w /\
  frameCount (handleKeyDown code w) = frameCount w /\
  bossActive (handleKeyDown code w) = bossActive w /\
  entities (handleKeyDown code w) = entities w /\
  platforms (handleKeyDown code w) = platforms w /\
  score (handleKeyDown code w) = score w /\
  canvas (handleKeyDown code w) = canvas w /\
  hp (player (handleKeyDown code w)) = hp (player w).
Proof.
  unfold handleKeyDown. repeat break_if; simpl; auto 10.
Qed.

Lemma handleKeyUp_spec (code : string) (w : World) :
  gameStatus (handleKeyUp code w) = gameStatus w /\
  frameCount (handleKeyUp code w) = frameCount w /\
  bossActive (handleKeyUp code w) = bossActive w /\
  entities (handleKeyUp code w) = entities w /\
  platforms (handleKeyUp code w) = platforms w /\
  score (handleKeyUp code w) = score w /\
  canvas (handleKeyUp code w) = canvas w /\
  player (handleKeyUp code w) = player w.
Proof.
  unfold handleKeyUp. repeat break_if; simpl; auto 10.
Qed.

Lemma score_step (w : World) (ev : Event) : (score w <= score (step h w ev))%Z.
Proof.
  destruct ev as [code|code|]; simpl.
  - destruct (handleKeyDown_spec code w) as (_ & _ & _ & _ & _ & -> & _). lia.
  - destruct (handleKeyUp_spec code w) as (_ & _ & _ & _ & _ & -> & _). lia.
  - apply score_update.
Qed.

(** C10. Within a run the score never decreases: after any sequence of
    frames and key events the score is at least what it was. *)
Theorem C10_score_never_decreases (w : World) (evs : list Event) :
  (score w <= score (run h w evs))%Z.
Proof.
  unfold run. revert w. induction evs as [|ev evs IH]; intros w; simpl.
  - lia.
  - etransitivity; [apply score_step | apply IH].
Qed.

End Tick.

Lemma tracks_Forall {A : Type} (R : A -> A -> Prop) (N : A -> Prop)
    (P P' : A -> Prop) (l l' : list A) :
  tracks R N l l' -> Forall P l ->
  (forall a b, P a -> R a b -> P' b) -> (forall a, N a -> P' a) ->
  Forall P' l'.
Proof.
  intros (L & C & F) Hl HR HN. apply Forall_lookup. intros k e' Hk.
  destruct (l !! k) as [e|] eqn:Hlk.
  - eapply HR; [|eapply C; eassumption].
    eapply Forall_lookup in Hl; eassumption.
  - apply HN. eapply F; [|exact Hk]. apply lookup_ge_None. exact Hlk.
Qed.

Lemma resolve_platforms_marked (plats : list Entity) (e : Entity) :
  markedForDeletion (resolve_platforms plats e) = markedForDeletion e.
Proof.
  unfold resolve_platforms. revert e.
  induction plats as [|p plats IH]; intros e; simpl; [reflexivity|].
  rewrite IH. destruct (lands e p); reflexivity.
Qed.

Lemma player_physics_marked (w : World) :
  markedForDeletion (player (player_physics w)) =
  markedForDeletion (player w).
Proof.
  rewrite player_physics_spec. cbn [player set_player].
  rewrite resolve_platforms_marked.
  unfold bounds, integrate, steer. repeat break_if; reflexivity.
Qed.

Section HpInvariant.

Variable h : Host.

Lemma live_after_tick (w : World) :
  Forall (fun e => (1 <= hp e)%Z) (entities w) ->
  Forall live (entities (cleanup (pre_cleanup h w))).
Proof.
  intros H.
  assert (H2 : Forall (fun e => (1 <= hp e)%Z) (entities (at_loop h w))).
  { destruct (at_loop_spec h w) as (_ & _ & _ & _ & _ & _ & _ & _ &
                                    amb & -> & A & _).
    destruct (at_spawn_spec h w) as (_ & _ & _ & _ & _ & _ & _ & _ &
                                     bs & -> & B).
    repeat apply Forall_app_2; try exact H.
    - eapply Forall_impl; [exact B|]. intros e (_ & _ & -> & _). lia.
    - break_if; repeat constructor. simpl. lia.
    - eapply Forall_impl; [exact A|]. intros e (_ & _ & He & _). exact He. }
  assert (H3 : Forall alive_or_flagged (entities (at_collisions h w))).
  { destruct (at_collisions_spec h w) as [_ T].
    eapply tracks_Forall; [exact T | exact H2 | |].
    - intros a b Ha Hab. apply R_ai_R_mv in Hab. destruct Hab.
      left. congruence.
    - intros a (_ & _ & Hh & _). left. lia. }
  apply (alive_collisions h) in H3. rewrite <- pre_cleanup_stages in H3.
  rewrite cleanup_entities. apply Forall_forall. intros e He.
  apply list_elem_of_In, filter_In in He. destruct He as [He Hm].
  apply negb_true_iff in Hm. apply list_elem_of_In in He.
  eapply Forall_forall in H3; [|exact He].
  destruct H3 as [Hhp|Hfl]; [split; assumption | congruence].
Qed.

Lemma player_marked_pre_cleanup (w : World) :
  markedForDeletion (player (pre_cleanup h w)) = markedForDeletion (player w).
Proof.
  rewrite pre_cleanup_stages.
  pose proof (Pc_marked _ _
                (Cr_player _ _ (col_rel_collisions h (at_collisions h w))))
    as C.
  pose proof (Ur_player _ _ (proj1 (at_collisions_spec h w))) as U.
  destruct (at_loop_spec h w) as (_ & _ & _ & _ & _ & _ & _ & L8 & _).
  destruct (at_spawn_spec h w) as (_ & _ & _ & _ & _ & _ & _ & S8 & _).
  rewrite C, U, L8, S8, player_physics_marked.
  reflexivity.
Qed.

Lemma finish_game_over (w : World) :
  (hp (player (finish w)) <= 0)%Z -> gameStatus (finish w) = GAME_OVER.
Proof.
  unfold finish. destruct (hp (player (syncHud w)) <=? 0)%Z eqn:Hz.
  - reflexivity.
  - apply Z.leb_gt in Hz. lia.
Qed.

Lemma hp_invariant_update (w : World) :
  hp_invariant w -> hp_invariant (update h w).
Proof.
  intros (He & Hm & Hg).
  destruct (update_cases h w) as [Hp| ->]; [|repeat split; assumption].
  rewrite update_playing by exact Hp.
  destruct (finish_spec (cleanup (pre_cleanup h w)))
    as (E & _ & P & _).
  split; [|split].
  - rewrite E. apply live_after_tick.
    eapply Forall_impl; [exact He|]. intros e [H1 _]. exact H1.
  - rewrite P, cleanup_player, player_marked_pre_cleanup. exact Hm.
  - apply finish_game_over.
Qed.

Lemma hp_invariant_step (w : World) (ev : Event) :
  hp_invariant w -> hp_invariant (step h w ev).
Proof.
  destruct ev as [code|code|]; simpl; [| |apply hp_invariant_update].
  - intros (He & Hm & Hg). unfold hp_invariant.
    destruct (handleKeyDown_spec code w) as (-> & _ & _ & -> & _ & _ & _ & ->).
    repeat split; try assumption.
    unfold handleKeyDown. repeat break_if; simpl; exact Hm.
  - intros (He & Hm & Hg). unfold hp_invariant.
    destruct (handleKeyUp_spec code w) as (-> & _ & _ & -> & _ & _ & _ & ->).
    repeat split; assumption.
Qed.

Lemma hp_invariant_start (cv : Size) : hp_invariant (start cv).
Proof.
  split; [constructor|]. split; [reflexivity|]. simpl. lia.
Qed.

Lemma hp_invariant_run (w : World) (evs : list Event) :
  hp_invariant w -> hp_invariant (run h w evs).
Proof.
  unfold run. revert w. induction evs as [|ev evs IH]; intros w Hw; simpl.
  - exact Hw.
  - apply IH, hp_invariant_step, Hw.
Qed.

(** C4, as the code has it.  At every tick boundary of a run every entity
    of the entity list has at least one hp and no removal flag: an enemy
    whose hp reaches zero is flagged by that hit and purged in the same
    tick.  The player is outside the list and outside this guarantee: it is
    never flagged, and when its hp is zero or negative at the end of a tick
    the run has been declared over. *)
Theorem C4_listed_entities_live (cv : Size) (evs : list Event) :
  let w := run h (start cv) evs in
  Forall (fun e => (1 <= hp e)%Z /\ markedForDeletion e = false)
         (entities w) /\
  markedForDeletion (player w) = false /\
  ((hp (player w) <= 0)%Z -> gameStatus w = GAME_OVER).
Proof. apply hp_invariant_run, hp_invariant_start. Qed.

End HpInvariant.

(** ** Counting kinds of entities *)

Lemma count_app (f : Entity -> bool) (l l' : list Entity) :
  length (List.filter f (l ++ l')) =
  (length (List.filter f l) + length (List.filter f l'))%nat.
Proof. rewrite List.filter_app, length_app. reflexivity. Qed.

Lemma count_none (f : Entity -> bool) (l : list Entity) :
  Forall (fun e => f e = false) l -> length (List.filter f l) = 0%nat.
Proof.
  induction 1 as [|e l He _ IH]; [reflexivity|]. simpl. rewrite He. exact IH.
Qed.

Lemma count_filter_le (f g : Entity -> bool) (l : list Entity) :
  (length (List.filter f (List.filter g l)) <= length (List.filter f l))%nat.
Proof.
  induction l as [|e l IH]; simpl; [lia|].
  destruct (g e), (f e) eqn:Hf; simpl; try rewrite Hf; simpl; lia.
Qed.

Lemma stable_is_boss : stable_kind is_boss.
Proof.
  unfold stable_kind, is_boss. repeat split.
  - intros a b _ ->. reflexivity.
  - intros a (_ & -> & _). reflexivity.
  - intros a (_ & ->). reflexivity.
  - intros a (_ & -> & _). reflexivity.
Qed.

Lemma stable_is_ambient : stable_kind is_ambient.
Proof.
  unfold stable_kind, is_ambient, is_boss. repeat split.
  - intros a b -> ->. reflexivity.
  - intros a (-> & -> & _). reflexivity.
  - intros a (-> & ->). reflexivity.
  - intros a (-> & -> & _). reflexivity.
Qed.

Section Counting.

Variable h : Host.
Variable f : Entity -> bool.
Hypothesis f_stable : stable_kind f.

Lemma count_at_spawn (w : World) :
  length (List.filter f (entities (at_spawn h w))) =
  length (List.filter f (entities w)).
Proof.
  destruct f_stable as (_ & _ & _ & Hb).
  destruct (at_spawn_spec h w) as (_ & _ & _ & _ & _ & _ & _ & _ &
                                   bs & -> & B).
  rewrite count_app, (count_none f bs); [lia|].
  eapply Forall_impl; [exact B | exact Hb].
Qed.

Lemma count_loops (w : World) :
  length (List.filter f (entities (pre_cleanup h w))) =
  length (List.filter f (entities (at_loop h w))).
Proof.
  destruct f_stable as (Hk & Hp & Hn & _).
  rewrite pre_cleanup_stages.
  destruct (col_rel_collisions h (at_collisions h w)) as [_ _ _ _ _ _ _ _ T2].
  destruct (at_collisions_spec h w) as [_ T1].
  rewrite (tracks_count R_col N_col f) with (l := entities (at_collisions h w));
    [|intros a b []; apply Hk; assumption | exact Hn | exact T2].
  apply (tracks_count (R_ai h (at_loop h w)) is_projectile f);
    [|exact Hp | exact T1].
  intros a b Hab. apply R_ai_R_mv in Hab. destruct Hab. apply Hk; assumption.
Qed.

Lemma count_update_le (w : World) :
  gameStatus w = PLAYING ->
  (length (List.filter f (entities (update h w))) <=
   length (List.filter f (entities (at_loop h w))))%nat.
Proof.
  intros Hp. rewrite update_playing by exact Hp.
  destruct (finish_spec (cleanup (pre_cleanup h w))) as (-> & _).
  rewrite cleanup_entities, <- count_loops. apply count_filter_le.
Qed.

End Counting.

(** ** The spawner's gates *)

Section Spawner.

Variable h : Host.

Lemma boss_due_at_spawn (w : World) : boss_due (at_spawn h w) = boss_due w.
Proof.
  unfold boss_due.
  rewrite (count_at_spawn h is_boss stable_is_boss).
  destruct (at_spawn_spec h w) as (_ & _ & -> & -> & _). reflexivity.
Qed.

Lemma boss_due_iff (w : World) :
  boss_due w = true <->
  bossActive w = false /\ (score w > 1500)%Z /\
  count_bosses (entities w) = 0%nat.
Proof.
  unfold boss_due, count_bosses, BOSS_SPAWN_SCORE.
  rewrite !andb_true_iff, negb_true_iff, Z.gtb_gt, Nat.eqb_eq. tauto.
Qed.

Lemma count_bosses_at_loop (w : World) :
  count_bosses (entities (at_loop h w)) =
  (count_bosses (entities w) + (if boss_due w then 1 else 0))%nat.
Proof.
  unfold count_bosses.
  destruct (at_loop_spec h w) as (_ & _ & _ & _ & _ & _ & _ & _ &
                                  amb & -> & A & _).
  rewrite !count_app, (count_at_spawn h is_boss stable_is_boss),
    boss_due_at_spawn.
  rewrite (count_none is_boss amb)
    by (eapply Forall_impl; [exact A|]; intros e (_ & He & _); exact He).
  destruct (boss_due w); simpl; lia.
Qed.

Lemma count_ambient_at_loop_closed (w : World) :
  bossActive w || boss_due w = true ->
  count_ambient (entities (at_loop h w)) = count_ambient (entities w).
Proof.
  intros Hg. unfold count_ambient.
  destruct (at_loop_spec h w) as (_ & _ & _ & _ & _ & _ & _ & _ &
                                  amb & -> & _ & Z0).
  rewrite boss_due_at_spawn in *. rewrite (Z0 Hg), app_nil_r.
  rewrite count_app, (count_at_spawn h is_ambient stable_is_ambient).
  destruct (boss_due w); simpl; lia.
Qed.

Lemma boss_count_update (w : World) :
  (count_bosses (entities w) <= 1)%nat ->
  (count_bosses (entities (update h w)) <= 1)%nat.
Proof.
  intros Hc. destruct (update_cases h w) as [Hp| ->]; [|exact Hc].
  pose proof (count_update_le h is_boss stable_is_boss w Hp) as Hle.
  fold (count_bosses (entities (update h w))) in Hle.
  fold (count_bosses (entities (at_loop h w))) in Hle.
  rewrite count_bosses_at_loop in Hle.
  destruct (boss_due w) eqn:Hd; [|lia].
  apply boss_due_iff in Hd. lia.
Qed.

Lemma boss_count_run (w : World) (evs : list Event) :
  (count_bosses (entities w) <= 1)%nat ->
  (count_bosses (entities (run h w evs)) <= 1)%nat.
Proof.
  unfold run. revert w. induction evs as [|ev evs IH]; intros w Hw; simpl.
  - exact Hw.
  - apply IH. destruct ev as [code|code|]; simpl.
    + destruct (handleKeyDown_spec code w) as (_ & _ & _ & -> & _). exact Hw.
    + destruct (handleKeyUp_spec code w) as (_ & _ & _ & -> & _). exact Hw.
    + apply boss_count_update, Hw.
Qed.

Lemma creates_boss_iff (w : World) :
  creates_boss h w = true <->
  gameStatus w = PLAYING /\ bossActive w = false /\ (score w > 1500)%Z /\
  count_bosses (entities w) = 0%nat.
Proof.
  unfold creates_boss. fold (at_spawn h w).
  rewrite <- boss_due_iff, boss_due_at_spawn.
  destruct (gameStatus w); split; try tauto; try discriminate;
    intros [? _]; discriminate.
Qed.

(** When the spawner's gate is open and the frame is due, an enemy (every
    120 frames) and a powerup (every 900 frames) are pushed. *)
Lemma spawning_open (w : World) :
  bossActive w = false -> boss_due w = false ->
  (Z.rem (frameCount w) 120 = 0)%Z \/ (Z.rem (frameCount w) 900 = 0)%Z ->
  (count_ambient (entities w) <
   count_ambient (entities (spawning h w)))%nat.
Proof.
  intros Hf Hd Hz. unfold spawning. rewrite Hd.
  assert (He : forall w0, bossActive w0 = false ->
            bossActive (spawnEnemy h w0) = false /\
            frameCount (spawnEnemy h w0) = frameCount w0 /\
            count_ambient (entities (spawnEnemy h w0)) =
              S (count_ambient (entities w0))).
  { intros w0 H0. unfold spawnEnemy. rewrite H0. unfold count_ambient.
    repeat break_if; simpl; rewrite count_app; simpl;
      (split; [exact H0|]; split; [reflexivity|lia]). }
  assert (Hp : forall w0,
            count_ambient (entities (spawnPowerup h w0)) =
              S (count_ambient (entities w0))).
  { intros w0. unfold spawnPowerup, count_ambient. simpl.
    rewrite count_app. simpl. lia. }
  destruct (Z.rem (frameCount w) 120 =? 0)%Z eqn:H120.
  - destruct (He w Hf) as (F1 & F2 & F3).
    rewrite F2, F1. destruct (_ && _); [rewrite Hp|]; rewrite F3; lia.
  - apply Z.eqb_neq in H120. destruct Hz as [Hz|Hz]; [contradiction|].
    rewrite Hz, Hf. cbn [Z.eqb negb andb]. rewrite Hp. lia.
Qed.

End Spawner.

(** ** Movement of the ground enemies (C1) *)

Lemma resolve_platforms_x (plats : list Entity) (e : Entity) :
  x (pos (resolve_platforms plats e)) = x (pos e) /\
  x (vel (resolve_platforms plats e)) = x (vel e).
Proof.
  unfold resolve_platforms. revert e.
  induction plats as [|p plats IH]; intros e; simpl; [auto|].
  destruct (IH (if lands e p then land p e else e)) as [-> ->].
  destruct (lands e p); auto.
Qed.

Section Movement.

Variable h : Host.

(** C1 fails on the code for runners and jumpers: in one visit of the update
    loop the x coordinate of an enemy that is neither the boss nor a drone is
    advanced by its x velocity twice, once by its own branch and once by
    "Apply Position". *)
Theorem C1_ground_enemy_x_advanced_twice (w : World) (e : Entity) :
  is_boss e = false ->
  subtype_is (subtype e) drone = false ->
  let e' := (enemy_ai h w e).1.1 in
  x (pos e') = x (pos e) + x (vel e) + x (vel e') /\
  (subtype_is (subtype e) jumper = false -> x (vel e') = x (vel e)).
Proof.
  intros Hb Hd. unfold enemy_ai. rewrite Hb, Hd.
  assert (Hstep : forall e1 : Entity,
            subtype e1 = subtype e ->
            let e' := enemy_cleanup w (enemy_platforms w (apply_position e1)) in
            x (pos e') = x (pos e1) + x (vel e1) /\ x (vel e') = x (vel e1)).
  { intros e1 Hs. unfold enemy_cleanup, enemy_platforms, apply_position.
    unfold is_boss in *. simpl. rewrite Hs, Hb, Hd. simpl.
    rewrite Hs, Hb, Hd. simpl.
    match goal with |- context [resolve_platforms ?ps ?a] =>
      destruct (resolve_platforms_x ps a) as [Hx Hv];
      generalize dependent (resolve_platforms ps a) end.
    intros r Hx Hv. simpl in Hx, Hv.
    repeat break_if; simpl; rewrite ?Hx, ?Hv; auto. }
  destruct (subtype_is (subtype e) jumper) eqn:Hj.
  - assert (Hja : subtype (jumper_ai w (random h w) e).1 = subtype e /\
                  x (pos (jumper_ai w (random h w) e).1) =
                    x (pos e) + x (vel e)).
    { unfold jumper_ai. repeat break_if; simpl; auto. }
    destruct (jumper_ai w (random h w) e) as [e1 k]. simpl in Hja.
    destruct Hja as [Hs Hx]. simpl.
    destruct (Hstep e1 Hs) as [H1 H2]. rewrite H1, H2, Hx.
    split; [reflexivity | discriminate].
  - simpl. destruct (Hstep (runner_ai e) eq_refl) as [H1 H2].
    rewrite H1, H2. simpl. auto.
Qed.

End Movement.

(** ** Landing (C8) *)

Lemma land_landed (plats : list Entity) (platform e : Entity) :
  platform ∈ plats -> landed plats (land platform e).
Proof.
  intros Hin. split; [reflexivity|]. split; [reflexivity|].
  exists platform. split; [exact Hin|]. simpl. ring.
Qed.

(** Once landed, the rest of the platform loop keeps the entity landed. *)
Lemma resolve_platforms_keeps (plats rest : list Entity) (e : Entity) :
  (forall p, p ∈ rest -> p ∈ plats) ->
  landed plats e -> landed plats (resolve_platforms rest e).
Proof.
  unfold resolve_platforms. revert e.
  induction rest as [|p rest IH]; intros e Hsub He; simpl; [exact He|].
  apply IH.
  - intros q Hq. apply Hsub. right. exact Hq.
  - destruct (lands e p); [|exact He].
    apply land_landed, Hsub. left.
Qed.

(** If the entity meets the landing condition of some platform when the
    platform loop starts, the loop leaves it landed. *)
Lemma resolve_platforms_lands (plats rest : list Entity) (e : Entity) :
  (forall p, p ∈ rest -> p ∈ plats) ->
  (exists p, p ∈ rest /\ lands e p = true) ->
  landed plats (resolve_platforms rest e).
Proof.
  revert e. induction rest as [|p rest IH]; intros e Hsub (q & Hq & Hl).
  - inversion Hq.
  - assert (Hsub' : forall r, r ∈ rest -> r ∈ plats)
      by (intros r Hr; apply Hsub; right; exact Hr).
    change (resolve_platforms (p :: rest) e)
      with (resolve_platforms rest (if lands e p then land p e else e)).
    destruct (lands e p) eqn:Hp.
    + apply resolve_platforms_keeps; [exact Hsub'|].
      apply land_landed, Hsub. left.
    + apply IH; [exact Hsub'|]. exists q. split; [|exact Hl].
      apply elem_of_cons in Hq. destruct Hq as [->|Hq]; [congruence|exact Hq].
Qed.

Section Landing.

Variable h : Host.

Lemma player_after_tick (w : World) :
  gameStatus w = PLAYING ->
  P_col (resolve_platforms (platforms w) (player_before_platforms w))
        (player (update h w)).
Proof.
  intros Hp. rewrite update_playing by exact Hp.
  destruct (finish_spec (cleanup (pre_cleanup h w))) as (_ & _ & -> & _).
  rewrite cleanup_player, pre_cleanup_stages.
  destruct (col_rel_collisions h (at_collisions h w))
    as [_ _ _ _ _ _ _ HP _].
  pose proof (Ur_player _ _ (proj1 (at_collisions_spec h w))) as U.
  destruct (at_loop_spec h w) as (_ & _ & _ & _ & _ & _ & _ & L8 & _).
  destruct (at_spawn_spec h w) as (_ & _ & _ & _ & _ & _ & _ & S8 & _).
  rewrite U, L8, S8 in HP. exact HP.
Qed.

End Landing.

(** ** Contact damage (C9) *)

Lemma forEach_split {St : Type} (n k : nat) (body : nat -> St -> St) (s : St) :
  (k < n)%nat ->
  forEach n body s =
  foldl (fun acc i => body i acc) (body k (forEach k body s))
        (seq (S k) (n - S k)).
Proof.
  intros Hk. unfold forEach.
  replace n with (k + S (n - S k))%nat at 1 by lia.
  rewrite seq_app, foldl_app. simpl. reflexivity.
Qed.

Lemma isColliding_ext (p p' e e' : Entity) :
  pos p' = pos p -> size p' = size p -> pos e' = pos e -> size e' = size e ->
  isColliding p' e' = isColliding p e.
Proof. unfold isColliding. intros -> -> -> ->. reflexivity. Qed.

Section Contact.

Variable h : Host.

(** What a contact does to the player. *)
Lemma hurt_player (i : nat) (entity : Entity) (w : World) :
  isColliding (player w) entity = true ->
  let p' := player (hurt h i entity w) in
  hp p' = (hp (player w) - 10)%Z /\
  y (vel p') = -5 /\
  x (vel p') =
    (if Qgtb (x (pos entity)) (x (pos (player w))) then -10 else 10) /\
  pos p' = pos (player w).
Proof.
  intros Hc. unfold hurt. rewrite Hc. simpl.
  assert (Hpl : forall b : bool,
            player (if b
                    then modify i (set_markedForDeletion true)
                           (set_player
                              (set_hp (hp (player w) - 10) (player w)) w)
                    else set_player
                           (set_hp (hp (player w) - 10) (player w)) w) =
            set_hp (hp (player w) - 10) (player w)).
  { intros [|]; [|reflexivity]. unfold modify. simpl.
    destruct (entities w !! i); reflexivity. }
  rewrite Hpl. simpl. auto.
Qed.

Lemma collide_hurts (i : nat) (e : Entity) (w : World) :
  entities w !! i = Some e ->
  markedForDeletion e = false ->
  type e = T_enemy \/ type e = T_boss_projectile ->
  collide h i w = hurt h i e w.
Proof.
  intros Hi Hm Ht. unfold collide. rewrite Hi, Hm.
  destruct Ht as [-> | ->]; reflexivity.
Qed.

Lemma col_rel_foldl (l : list nat) (w : World) :
  col_rel w (foldl (fun acc i => collide h i acc) w l).
Proof.
  refine (proj1 (foldl_rel (fun _ => True) col_rel (collide h)
                   col_rel_refl col_rel_trans _ l w I)).
  intros i s _. split; [apply col_rel_collide | exact I].
Qed.

(** An enemy that the collision loop leaves unflagged and in contact with
    the player has hurt the player in that loop. *)
Lemma collisions_contact (w : World) (k : nat) (e' : Entity) :
  entities (collisions h w) !! k = Some e' ->
  type e' = T_enemy ->
  markedForDeletion e' = false ->
  isColliding (player (collisions h w)) e' = true ->
  (hp (player (collisions h w)) <= hp (player w) - 10)%Z /\
  y (vel (player (collisions h w))) = -5.
Proof.
  intros Hk Ht Hm Hc.
  assert (Hkn : (k < length (entities w))%nat).
  { destruct (col_rel_collisions h w) as [_ _ _ _ _ _ _ _ (_ & _ & N)].
    destruct (decide (k < length (entities w))%nat) as [Hlt|Hge]; [exact Hlt|].
    destruct (N k e' ltac:(lia) Hk). congruence. }
  unfold collisions in *.
  rewrite (forEach_split (length (entities w)) k) in * by exact Hkn.
  set (sk := forEach k (collide h) w) in *.
  pose proof (col_rel_forEach (collide h) k w (col_rel_collide h)) as Hpre.
  fold sk in Hpre.
  pose proof (col_rel_collide h k sk) as Hmid.
  pose proof (col_rel_foldl (seq (S k) (length (entities w) - S k))
                (collide h k sk)) as Hpost.
  set (sf := foldl (fun acc i => collide h i acc) (collide h k sk)
               (seq (S k) (length (entities w) - S k))) in *.
  (* the cell before and after its visit *)
  destruct Hpre as [_ _ _ _ _ _ _ Ppre (Lpre & _ & _)].
  destruct (entities sk !! k) as [ek|] eqn:Hek;
    [|apply lookup_ge_None in Hek; lia].
  destruct Hmid as [_ _ _ _ _ _ _ Pmid (Lmid & Cmid & _)].
  destruct (entities (collide h k sk) !! k) as [em|] eqn:Hem;
    [|apply lookup_ge_None in Hem; apply lookup_lt_Some in Hek; lia].
  destruct Hpost as [_ _ _ _ _ _ _ Ppost (_ & Cpost & _)].
  pose proof (Cmid k ek em Hek Hem) as Rm.
  pose proof (Cpost k em e' Hem Hk) as Rp.
  pose proof (R_col_trans _ _ _ Rm Rp) as [R1 _ R3 _ R5 _ _ _ _ _ R11].
  assert (Hmk : markedForDeletion ek = false).
  { destruct (markedForDeletion ek) eqn:E; [|reflexivity].
    rewrite (R11 eq_refl) in Hm. discriminate. }
  pose proof (P_col_trans _ _ _ Pmid Ppost) as [Q1 Q2 _ _ _ _].
  assert (Hck : isColliding (player sk) ek = true).
  { rewrite <- Hc. symmetry. apply isColliding_ext; assumption. }
  rewrite (collide_hurts k ek sk Hek Hmk) in *
    by (left; congruence).
  destruct (hurt_player k ek sk Hck) as (Hh & Hv & _).
  destruct Ppre as [_ _ _ _ Hle _].
  destruct Ppost as [_ _ _ _ Hle2 [[Hv2 Hh2]|[Hv2 Hh2]]].
  - split; [lia|]. rewrite Hv2. exact Hv.
  - split; [lia | exact Hv2].
Qed.

End Contact.

(** ** The claims at concrete worlds *)

Lemma C1_witness :
  let e := runnerAt 500 450 in
  let e' := (enemy_ai flatHost arena e).1.1 in
  x (pos e') = x (pos e) + x (vel e) + x (vel e') /\
  (subtype_is (subtype e) jumper = false -> x (vel e') = x (vel e)).
Proof.
  exact (C1_ground_enemy_x_advanced_twice flatHost arena (runnerAt 500 450)
           eq_refl eq_refl).
Defined.

(** C1 at a failing input: after one tick a runner that started at x = 500
    with x velocity -2 is at x = 496, not at 498. *)
Lemma C1_runner_moves_four :
  List.map (fun e => Qeq_bool (x (pos e)) 496)
    (entities (update flatHost (set_entities [runnerAt 500 450] arena)))
  = [true].
Proof. vm_compute. reflexivity. Qed.

(** C2 fails as stated: the run of [bossDying] already has its boss; the
    tick kills and purges it, and the very next tick creates a boss again. *)
Lemma C2_second_boss :
  count_bosses (entities bossDying) = 1%nat /\
  count_bosses (entities (update flatHost bossDying)) = 0%nat /\
  (score (update flatHost bossDying) > 1500)%Z /\
  creates_boss flatHost (update flatHost bossDying) = true /\
  count_bosses (entities (update flatHost (update flatHost bossDying)))
    = 1%nat.
Proof. vm_compute. repeat split. Qed.

(** C3 at a failing input: one rifle bullet (penetration 1) that overlaps
    two runners in the same tick takes one hp from each of them. *)
Lemma C3_rifle_bullet_hits_two :
  List.map (fun e => (type e, penetration e, hp e)) (entities crossfire) =
    [(T_bullet, Some 1%Z, 1%Z); (T_enemy, None, 3%Z); (T_enemy, None, 3%Z)] /\
  List.map hp
    (List.filter (fun e => EntityType_eqb (type e) T_enemy)
       (entities (update flatHost crossfire))) = [2%Z; 2%Z].
Proof. vm_compute. split; reflexivity. Qed.

(** C4 fails as stated for the player: hit by two runners at 10 hp, it ends
    the tick with -10 hp and no removal flag. *)
Lemma C4_player_below_zero :
  gameStatus mobbed = PLAYING /\
  hp (player mobbed) = 10%Z /\
  hp (player (update flatHost mobbed)) = (-10)%Z /\
  markedForDeletion (player (update flatHost mobbed)) = false.
Proof. vm_compute. repeat split. Qed.

(** C6 fails as stated: the tick of frame 119 kills the boss and clears the
    flag; frame 120 is divisible by 120, yet no ordinary enemy appears: the
    tick creates the next boss instead. *)
Lemma C6_no_enemy_after_boss :
  bossActive (update flatHost bossDying) = false /\
  frameCount (update flatHost (update flatHost bossDying)) = 120%Z /\
  count_ambient (entities (update flatHost (update flatHost bossDying)))
    = 0%nat /\
  bossActive (update flatHost (update flatHost bossDying)) = true.
Proof. vm_compute. repeat split. Qed.

(** C8 fails as stated: the player lands on the floor in the tick in which
    a runner touches it, and ends the tick grounded with vertical velocity
    -5. *)
Lemma C8_grounded_but_knocked_back :
  existsb (lands (player_before_platforms standoff)) (platforms standoff)
    = true /\
  isGrounded (player (update flatHost standoff)) = Some true /\
  y (vel (player (update flatHost standoff))) = -5.
Proof. vm_compute. repeat split. Qed.

(** ** Key handlers *)

Ltac break_code :=
  match goal with
  | |- context [code_in ?c ?l] =>
      let E := fresh "E" in destruct (code_in c l) eqn:E
  end.

(** X1. A repeated keydown of a key that is already down changes nothing:
    the auto-repeat of a held key cannot jump again or disturb the input. *)
Theorem X1_keydown_repeat (code : string) (w : World) :
  handleKeyDown code (handleKeyDown code w) = handleKeyDown code w.
Proof.
  unfold handleKeyDown.
  repeat (break_code; try reflexivity).
Qed.

(** X2. A key code that is none of the twelve the game listens to is
    ignored by both handlers, and a release undoes a press: after keydown
    then keyup of the same key the input snapshot is what keyup alone would
    have left, and entities, score and frame counter are untouched. *)
Theorem X2_keyup_undoes_keydown (code : string) (w : World) :
  (code_in code
     ["ArrowLeft"; "KeyA"; "ArrowRight"; "KeyD"; "ArrowUp"; "KeyW";
      "ArrowDown"; "KeyS"; "Space"; "KeyK"; "KeyJ"; "ShiftLeft"]%string
   = false ->
   handleKeyDown code w = w /\ handleKeyUp code w = w) /\
  input (handleKeyUp code (handleKeyDown code w)) = input (handleKeyUp code w) /\
  entities (handleKeyUp code (handleKeyDown code w)) = entities w /\
  score (handleKeyUp code (handleKeyDown code w)) = score w /\
  frameCount (handleKeyUp code (handleKeyDown code w)) = frameCount w.
Proof.
  split.
  - unfold code_in. simpl. rewrite !orb_false_iff.
    intros (A & B & C & D & E & F & G & H & I & J & K & L & _).
    unfold handleKeyDown, handleKeyUp, code_in. simpl.
    rewrite A, B, C, D, E, F, G, H, I, J, K, L. simpl. auto.
  - unfold handleKeyUp, handleKeyDown.
    repeat (break_code; try (repeat split; reflexivity)).
    destruct (negb (jump (input w)) &&
              bool_decide (isGrounded (player w) = Some true));
      repeat split; reflexivity.
Qed.

Lemma X2_witness :
  handleKeyDown "KeyZ" arena = arena /\ handleKeyUp "KeyZ" arena = arena.
Proof. exact (proj1 (X2_keyup_undoes_keydown "KeyZ" arena) eq_refl). Defined.

Lemma cleanup_input (w : World) : input (cleanup w) = input w.
Proof. reflexivity. Qed.

Section JumpLatch.

Variable h : Host.

Lemma input_update (w : World) : input (update h w) = input w.
Proof.
  destruct (update_cases h w) as [Hp| ->]; [|reflexivity].
  rewrite update_playing by exact Hp.
  destruct (finish_spec (cleanup (pre_cleanup h w)))
    as (_ & _ & _ & _ & _ & _ & _ & ->).
  rewrite cleanup_input.
  rewrite pre_cleanup_stages.
  rewrite (Cr_input _ _ (col_rel_collisions h (at_collisions h w))).
  rewrite (Ur_input _ _ (proj1 (at_collisions_spec h w))).
  destruct (at_loop_spec h w) as (_ & _ & _ & _ & _ & _ & -> & _).
  reflexivity.
Qed.

Lemma jump_held_step (w : World) (ev : Event) :
  keeps_jump_held ev -> jump (input w) = true ->
  jump (input (step h w ev)) = true.
Proof.
  destruct ev as [code|code|]; simpl; intros Hk Hj.
  - unfold handleKeyDown. repeat break_code; simpl; try exact Hj; reflexivity.
  - unfold is_jump_key in Hk. unfold handleKeyUp.
    repeat break_code; simpl; try exact Hj; congruence.
  - rewrite input_update. exact Hj.
Qed.

(** X3. The jump is edge-triggered.  While the jump key stays down (no keyup
    of Space or KeyK), whatever frames and other key events happen, a
    further keydown of the jump key leaves the player as it is: holding the
    key across a landing does not jump again. *)
Theorem X3_jump_needs_new_press (w : World) (evs : list Event)
    (code : string) :
  jump (input w) = true ->
  Forall keeps_jump_held evs ->
  is_jump_key code = true ->
  player (handleKeyDown code (run h w evs)) = player (run h w evs).
Proof.
  intros Hj Hevs Hc.
  assert (Hrun : jump (input (run h w evs)) = true).
  { unfold run. revert w Hj.
    induction Hevs as [|ev evs Hev _ IH]; intros w Hj; simpl; [exact Hj|].
    apply IH, jump_held_step; assumption. }
  unfold is_jump_key in Hc. unfold handleKeyDown.
  repeat (break_code; try reflexivity); try congruence.
  rewrite Hrun. reflexivity.
Qed.

End JumpLatch.

Lemma X3_witness :
  player (handleKeyDown "Space"
            (run flatHost (handleKeyDown "Space" standing)
               [Frame; KeyDown "KeyJ"; Frame]))
  = player (run flatHost (handleKeyDown "Space" standing)
              [Frame; KeyDown "KeyJ"; Frame]).
Proof.
  apply (X3_jump_needs_new_press flatHost).
  - reflexivity.
  - repeat constructor.
  - reflexivity.
Defined.

(** ** Overlap test *)

(** X4. [isColliding] is symmetric, and two boxes of which one lies
    entirely left of the other (touching edges included) do not collide. *)
Theorem X4_isColliding_symmetric (r1 r2 : Entity) :
  isColliding r1 r2 = isColliding r2 r1 /\
  (x (pos r1) + width (size r1) <= x (pos r2) -> isColliding r1 r2 = false).
Proof.
  split.
  - unfold isColliding, Qgtb.
    destruct (Qltb (x (pos r1)) (x (pos r2) + width (size r2)));
      destruct (Qltb (x (pos r2)) (x (pos r1) + width (size r1)));
      destruct (Qltb (y (pos r1)) (y (pos r2) + height (size r2)));
      destruct (Qltb (y (pos r2)) (y (pos r1) + height (size r1)));
      reflexivity.
  - intros Hle. unfold isColliding.
    assert (Hf : Qgtb (x (pos r1) + width (size r1)) (x (pos r2)) = false).
    { destruct (Qgtb _ _) eqn:E; [|reflexivity].
      apply Qgtb_lt in E. exfalso. exact (Qlt_not_le _ _ E Hle). }
    rewrite Hf, andb_false_r. reflexivity.
Qed.

Lemma X4_witness :
  isColliding (runnerAt 0 0) (runnerAt 32 0) = false.
Proof.
  apply (proj2 (X4_isColliding_symmetric (runnerAt 0 0) (runnerAt 32 0))).
  vm_compute. discriminate.
Defined.

(** ** Purge *)

Lemma filter_unmarked_idem (l : list Entity) :
  List.filter (fun e => negb (markedForDeletion e))
    (List.filter (fun e => negb (markedForDeletion e)) l) =
  List.filter (fun e => negb (markedForDeletion e)) l.
Proof.
  induction l as [|e l IH]; [reflexivity|]. simpl.
  destruct (negb (markedForDeletion e)) eqn:E; simpl; rewrite ?E, IH;
    reflexivity.
Qed.

(** X5. The purge is idempotent, leaves no flagged entity and keeps
    exactly the unflagged ones. *)
Theorem X5_cleanup_idempotent (w : World) :
  cleanup (cleanup w) = cleanup w /\
  Forall (fun e => markedForDeletion e = false) (entities (cleanup w)) /\
  (forall e, e ∈ entities (cleanup w) <->
             e ∈ entities w /\ markedForDeletion e = false).
Proof.
  split; [|split].
  - unfold cleanup. simpl. rewrite filter_unmarked_idem. reflexivity.
  - apply Forall_forall. intros e He. rewrite cleanup_entities in He.
    apply list_elem_of_In, filter_In in He. destruct He as [_ He].
    apply negb_true_iff in He. exact He.
  - intros e. rewrite cleanup_entities. rewrite !list_elem_of_In, filter_In.
    rewrite negb_true_iff. reflexivity.
Qed.

(** ** Lifetimes *)

Lemma particle_ai_ttl (e : Entity) (t : Z) :
  ttl e = Some t -> (0 < t)%Z ->
  ttl (particle_ai e) = Some (t - 1)%Z /\
  markedForDeletion (particle_ai e) =
    (markedForDeletion e || (t - 1 <=? 0)%Z) /\
  type (particle_ai e) = type e.
Proof.
  intros Ht Hpos. unfold particle_ai, tick_ttl. simpl. rewrite Ht.
  assert (Hz : (t =? 0)%Z = false) by (apply Z.eqb_neq; lia).
  rewrite Hz. simpl.
  destruct (t - 1 <=? 0)%Z; simpl; rewrite ?orb_true_r, ?orb_false_r; auto.
Qed.

(** X6. A particle lives for exactly twenty updates: after [n < 20] updates
    it is unflagged with ttl [20 - n]; the twentieth flags it. *)
Theorem X6_particle_lifetime (px py vx vy : Q) (col : string) (n : nat) :
  (n < 20)%nat ->
  let p := Nat.iter n particle_ai (newParticle px py vx vy col) in
  markedForDeletion p = false /\ ttl p = Some (20 - Z.of_nat n)%Z /\
  markedForDeletion (particle_ai p) = bool_decide (n = 19%nat).
Proof.
  intros Hn.
  assert (Hind : forall m : nat, (m <= 19)%nat ->
            markedForDeletion
              (Nat.iter m particle_ai (newParticle px py vx vy col)) = false /\
            ttl (Nat.iter m particle_ai (newParticle px py vx vy col))
              = Some (20 - Z.of_nat m)%Z).
  { induction m as [|m IH]; intros Hm; [simpl; auto|].
    destruct (IH ltac:(lia)) as [Hmk Ht].
    rewrite Nat.iter_succ.
    destruct (particle_ai_ttl _ _ Ht ltac:(lia)) as (T & M & _).
    rewrite T, M, Hmk. simpl.
    split; [apply Z.leb_gt; lia | f_equal; lia]. }
  destruct (Hind n ltac:(lia)) as [Hmk Ht]. intros p. fold p in Hmk, Ht.
  split; [exact Hmk|]. split; [exact Ht|].
  destruct (particle_ai_ttl _ _ Ht ltac:(lia)) as (_ & M & _).
  rewrite M, Hmk. simpl.
  destruct (bool_decide (n = 19%nat)) eqn:E.
  - apply bool_decide_eq_true in E. apply Z.leb_le. lia.
  - apply bool_decide_eq_false in E. apply Z.leb_gt. lia.
Qed.

Lemma X6_witness :
  let p := Nat.iter 19 particle_ai (newParticle 0 0 1 1 "#fff") in
  markedForDeletion p = false /\ ttl p = Some (20 - Z.of_nat 19)%Z /\
  markedForDeletion (particle_ai p) = bool_decide (19%nat = 19%nat).
Proof. apply X6_particle_lifetime. lia. Defined.

(** ** Platforms *)

(** X7. Only a descending entity lands: with upward velocity the platform
    loop changes nothing, whatever platforms it overlaps, so a jump passes
    through platforms from below. *)
Theorem X7_ascending_passes_through (plats : list Entity) (e : Entity) :
  y (vel e) < 0 -> resolve_platforms plats e = e.
Proof.
  intros Hv. unfold resolve_platforms.
  induction plats as [|p plats IH]; [reflexivity|]. simpl.
  assert (Hl : lands e p = false).
  { unfold lands.
    assert (Hg : Qgeb (y (vel e)) 0 = false).
    { destruct (Qgeb _ _) eqn:E; [|reflexivity].
      apply Qgeb_le in E. exfalso. exact (Qlt_not_le _ _ Hv E). }
    rewrite Hg, andb_false_r. reflexivity. }
  rewrite Hl. exact IH.
Qed.

Lemma X7_witness :
  resolve_platforms (platforms arena)
    (set_vel_y JUMP_FORCE (player standing)) =
  set_vel_y JUMP_FORCE (player standing).
Proof. apply X7_ascending_passes_through. vm_compute. reflexivity. Defined.

(** Reduce the projections of records that setters have built, and nothing
    else (no arithmetic). *)
Ltac fields :=
  cbn [id type subtype weaponType pos vel size color hp maxHp
       markedForDeletion direction isGrounded ttl attackTimer bossPhase
       penetration x y width height
       set_x set_y set_weaponType set_pos set_vel set_hp
       set_markedForDeletion set_direction set_isGrounded set_ttl
       set_attackTimer set_bossPhase set_penetration
       set_pos_x set_pos_y set_vel_x set_vel_y
       gameStatus frameCount bossActive player entities platforms score
       input canvas hudState gameOver currentBossHp randomCalls
       set_gameStatus set_frameCount set_bossActive set_player set_entities
       set_platforms set_score set_input set_canvas set_hudState
       set_gameOver set_currentBossHp set_randomCalls] in *.

(** ** The player's physics *)

Lemma Qltb_false (a b : Q) : Qltb a b = false -> b <= a.
Proof.
  intros Hf. apply Qnot_lt_le. intros Hlt. apply Qltb_lt in Hlt. congruence.
Qed.

Lemma Qgtb_false (a b : Q) : Qgtb a b = false -> a <= b.
Proof. unfold Qgtb. apply Qltb_false. Qed.

Lemma Qgeb_false (a b : Q) : Qgeb a b = false -> a < b.
Proof.
  intros Hf. apply Qnot_le_lt. intros Hle. apply Qgeb_le in Hle. congruence.
Qed.

(** Turn the boolean comparisons among the hypotheses into propositions. *)
Ltac q_hyps :=
  repeat match goal with
  | H : Qltb _ _ = true |- _ => apply Qltb_lt in H
  | H : Qltb _ _ = false |- _ => apply Qltb_false in H
  | H : Qgtb _ _ = true |- _ => apply Qgtb_lt in H
  | H : Qgtb _ _ = false |- _ => apply Qgtb_false in H
  | H : Qgeb _ _ = true |- _ => apply Qgeb_le in H
  | H : Qgeb _ _ = false |- _ => apply Qgeb_false in H
  | H : Qle_bool _ _ = true |- _ => apply Qle_bool_iff in H
  end.

Lemma bounds_spec (cv : Size) (p : Entity) :
  size (bounds cv p) = size p /\ vel (bounds cv p) = vel p /\
  y (pos (bounds cv p)) = y (pos p) /\
  (width (size p) <= width cv ->
   0 <= x (pos (bounds cv p)) /\
   x (pos (bounds cv p)) + width (size p) <= width cv).
Proof.
  unfold bounds.
  destruct (Qltb (x (pos p)) 0) eqn:E1; fields;
    match goal with |- context [Qgtb ?a ?b] => destruct (Qgtb a b) eqn:E2 end;
    fields;
    match goal with |- context [Qgtb ?a ?b] => destruct (Qgtb a b) eqn:E3 end;
    fields; (split; [reflexivity|]; split; [reflexivity|];
             split; [reflexivity|]); intros Hw;
    q_hyps; lra.
Qed.

Lemma integrate_steer_size (inp : Input) (p : Entity) :
  size (integrate (steer inp p)) = size p.
Proof. unfold integrate, steer. repeat break_if; reflexivity. Qed.

Lemma before_platforms_fields (w : World) :
  size (player_before_platforms w) =
    size (bounds (canvas w) (integrate (steer (input w) (player w)))) /\
  pos (player_before_platforms w) =
    pos (bounds (canvas w) (integrate (steer (input w) (player w)))) /\
  vel (player_before_platforms w) =
    vel (bounds (canvas w) (integrate (steer (input w) (player w)))) /\
  hp (player_before_platforms w) =
    hp (bounds (canvas w) (integrate (steer (input w) (player w)))).
Proof.
  unfold player_before_platforms.
  generalize (bounds (canvas w) (integrate (steer (input w) (player w)))).
  intros e. auto.
Qed.

Lemma bounds_fall (cv : Size) (p : Entity) :
  height cv < y (pos p) -> hp (bounds cv p) = 0%Z.
Proof.
  intros Hf. unfold bounds.
  match goal with |- context [Qgtb (y ?a) ?b] =>
    assert (Hg : Qgtb (y a) b = true) end.
  { apply Qgtb_lt. repeat break_if; fields; exact Hf. }
  rewrite Hg. reflexivity.
Qed.

Lemma physics_size (w : World) :
  size (resolve_platforms (platforms w) (player_before_platforms w))
  = size (player w).
Proof.
  rewrite (Rm_size _ _ (R_mv_resolve_platforms _ _)).
  destruct (before_platforms_fields w) as (-> & _).
  destruct (bounds_spec (canvas w) (integrate (steer (input w) (player w))))
    as (-> & _).
  apply integrate_steer_size.
Qed.

Lemma cleanup_platforms (w : World) : platforms (cleanup w) = platforms w.
Proof. reflexivity. Qed.

Lemma cleanup_canvas (w : World) : canvas (cleanup w) = canvas w.
Proof. reflexivity. Qed.

Lemma cleanup_gameOver (w : World) : gameOver (cleanup w) = gameOver w.
Proof. reflexivity. Qed.

(** The end of the tick reports a dead player, with the score. *)
Lemma finish_reports (w : World) :
  (hp (player (finish w)) <= 0)%Z ->
  gameStatus (finish w) = GAME_OVER /\
  gameOver (finish w) = score (finish w) :: gameOver w.
Proof.
  unfold finish.
  assert (Hs : hp (player (syncHud w)) = hp (player w) /\
               score (syncHud w) = score w /\
               gameOver (syncHud w) = gameOver w)
    by (unfold syncHud; break_if; auto).
  destruct Hs as (S1 & S2 & S3).
  destruct (hp (player (syncHud w)) <=? 0)%Z eqn:Hz.
  - intros _. split; [reflexivity|]. unfold onGameOver. fields.
    rewrite S2, S3. reflexivity.
  - apply Z.leb_gt in Hz. intros Hle. lia.
Qed.

Section PlayerTick.

Variable h : Host.

(** X8. The player never leaves the canvas sideways: if it is no wider than
    the canvas, then after every tick its box lies between the left and the
    right edge. *)
Theorem X8_player_stays_on_screen (w : World) :
  gameStatus w = PLAYING ->
  width (size (player w)) <= width (canvas w) ->
  let p' := player (update h w) in
  0 <= x (pos p') /\ x (pos p') + width (size p') <= width (canvas w).
Proof.
  intros Hp Hw p'.
  destruct (player_after_tick h w Hp) as [Q1 Q2 _ _ _ _].
  fold p' in Q1, Q2. rewrite Q1, Q2, physics_size.
  destruct (resolve_platforms_x (platforms w) (player_before_platforms w))
    as [-> _].
  destruct (before_platforms_fields w) as (_ & -> & _).
  destruct (bounds_spec (canvas w) (integrate (steer (input w) (player w))))
    as (_ & _ & _ & Hb).
  rewrite integrate_steer_size in Hb. apply Hb, Hw.
Qed.

Lemma same_reports_refl (w : World) : same_reports w w.
Proof. split; reflexivity. Qed.

Lemma same_reports_trans (a b c : World) :
  same_reports a b -> same_reports b c -> same_reports a c.
Proof. intros [] []. split; congruence. Qed.

Lemma same_reports_modify (i : nat) (f : Entity -> Entity) (w : World) :
  same_reports w (modify i f w).
Proof.
  unfold modify. destruct (entities w !! i); split; reflexivity.
Qed.

Lemma same_reports_iter (n : nat) (f : World -> World) (w : World) :
  (forall w0, same_reports w0 (f w0)) -> same_reports w (Nat.iter n f w).
Proof.
  intros Hf. induction n as [|n IH]; [apply same_reports_refl|].
  rewrite Nat.iter_succ. eapply same_reports_trans; [exact IH | apply Hf].
Qed.

Lemma same_reports_hit (i j : nat) (w : World) : same_reports w (hit h i j w).
Proof.
  unfold hit. destruct (entities w !! i) as [entity|];
    [|apply same_reports_refl].
  destruct (entities w !! j) as [target|]; [|apply same_reports_refl].
  destruct (_ && _); [|apply same_reports_refl].
  assert (H3 : same_reports w
    (spawnParticle h (x (pos entity)) (y (pos entity)) (color target)
       (modify i bullet_hit
          (modify j (fun t => set_hp (hp t - 1) t) w)))).
  { eapply same_reports_trans; [apply same_reports_modify|].
    eapply same_reports_trans; [apply same_reports_modify|].
    split; reflexivity. }
  destruct (hp target - 1 <=? 0)%Z; [|exact H3].
  eapply same_reports_trans; [exact H3|]. unfold kill.
  destruct (is_boss target).
  - eapply same_reports_trans; [|apply same_reports_modify].
    eapply same_reports_trans; [|apply same_reports_iter].
    + split; reflexivity.
    + intros w0. split; reflexivity.
  - eapply same_reports_trans; [|apply same_reports_modify].
    split; reflexivity.
Qed.

Lemma same_reports_collide (i : nat) (w : World) :
  same_reports w (collide h i w).
Proof.
  unfold collide. destruct (entities w !! i) as [entity|];
    [|apply same_reports_refl].
  destruct (markedForDeletion entity); [apply same_reports_refl|].
  assert (Hhurt : same_reports w (hurt h i entity w)).
  { unfold hurt. destruct (isColliding (player w) entity);
      [|apply same_reports_refl].
    destruct (EntityType_eqb (type entity) T_boss_projectile).
    - unfold modify. fields. destruct (entities w !! i); split; reflexivity.
    - split; reflexivity. }
  destruct (type entity); try apply same_reports_refl; try exact Hhurt.
  - refine (proj1 (forEach_rel (fun _ => True) same_reports (hit h i)
                     same_reports_refl same_reports_trans _ _ w I)).
    intros j s _. split; [apply same_reports_hit | exact I].
  - unfold pickup. destruct (isColliding (player w) entity);
      [|apply same_reports_refl].
    eapply same_reports_trans; [|apply same_reports_iter].
    + eapply same_reports_trans; [|apply same_reports_modify].
      split; reflexivity.
    + intros w0. split; reflexivity.
Qed.

Lemma reports_set_currentBossHp (v : Z) (w : World) :
  gameOver (set_currentBossHp v w) = gameOver w /\
  hudState (set_currentBossHp v w) = hudState w.
Proof. split; reflexivity. Qed.

Lemma reports_player_physics (w : World) :
  gameOver (player_physics w) = gameOver w /\
  hudState (player_physics w) = hudState w.
Proof. split; reflexivity. Qed.

Lemma same_reports_pre_cleanup (w : World) :
  same_reports w (pre_cleanup h w).
Proof.
  rewrite pre_cleanup_stages.
  assert (Hc : same_reports (at_collisions h w)
                 (collisions h (at_collisions h w))).
  { refine (proj1 (forEach_rel (fun _ => True) same_reports (collide h)
                     same_reports_refl same_reports_trans _ _ _ I)).
    intros i s _. split; [apply same_reports_collide | exact I]. }
  eapply same_reports_trans; [|exact Hc].
  pose proof (Ur_gameOver _ _ (proj1 (at_collisions_spec h w))) as U1.
  pose proof (Ur_hud _ _ (proj1 (at_collisions_spec h w))) as U2.
  assert (L : gameOver (at_loop h w) = gameOver w /\
              hudState (at_loop h w) = hudState w).
  { unfold at_loop.
    destruct (reports_set_currentBossHp 0 (spawning h (pre_spawn h w)))
      as [-> ->].
    destruct (spawning_spec h (pre_spawn h w)) as (Ps & _).
    rewrite (Pr_gameOver _ _ Ps), (Pr_hud _ _ Ps). unfold pre_spawn.
    destruct (shoot_spec h
                (player_physics (set_frameCount (frameCount w + 1) w)))
      as (Pb & _).
    rewrite (Pr_gameOver _ _ Pb), (Pr_hud _ _ Pb).
    destruct (reports_player_physics
                (set_frameCount (frameCount w + 1) w)) as [-> ->].
    split; reflexivity. }
  destruct L as [L1 L2]. split; congruence.
Qed.

(** X9. Falling below the canvas is fatal: if the player's new position is
    below the bottom edge, the tick ends with the player's hp at zero or
    less and calls [onGameOver] once, with the score of the end of the
    tick. *)
Theorem X9_fall_is_fatal (w : World) :
  gameStatus w = PLAYING ->
  height (canvas w) < y (pos (integrate (steer (input w) (player w)))) ->
  (hp (player (update h w)) <= 0)%Z /\
  gameStatus (update h w) = GAME_OVER /\
  gameOver (update h w) = score (update h w) :: gameOver w.
Proof.
  intros Hp Hfall.
  assert (H0 : hp (player_before_platforms w) = 0%Z).
  { destruct (before_platforms_fields w) as (_ & _ & _ & ->).
    apply bounds_fall, Hfall. }
  assert (Hle : (hp (player (update h w)) <= 0)%Z).
  { pose proof (Pc_hp _ _ (player_after_tick h w Hp)) as Hh.
    rewrite (Rm_hp _ _ (R_mv_resolve_platforms _ _)), H0 in Hh. exact Hh. }
  split; [exact Hle|].
  rewrite update_playing in * by exact Hp.
  destruct (same_reports_pre_cleanup w) as [G _].
  rewrite <- G, <- (cleanup_gameOver (pre_cleanup h w)).
  apply finish_reports, Hle.
Qed.

(** X10. A tick advances the frame counter by exactly one and never touches
    the platforms, the canvas size or the input snapshot. *)
Theorem X10_tick_frame (w : World) :
  gameStatus w = PLAYING ->
  frameCount (update h w) = (frameCount w + 1)%Z /\
  platforms (update h w) = platforms w /\
  canvas (update h w) = canvas w /\
  input (update h w) = input w.
Proof.
  intros Hp. split; [|split; [|split]]; [| | |apply input_update].
  all: rewrite update_playing by exact Hp.
  all: destruct (finish_spec (cleanup (pre_cleanup h w)))
         as (_ & _ & _ & _ & F5 & F6 & F7 & _).
  all: destruct (col_rel_collisions h (at_collisions h w))
         as [_ C2 C3 C4 _ _ _ _ _].
  all: destruct (at_collisions_spec h w) as [[_ U2 _ _ U5 _ _ U8 _ _] _].
  all: destruct (at_loop_spec h w) as (_ & L2 & _ & _ & L5 & L6 & _).
  all: rewrite <- pre_cleanup_stages in *.
  - rewrite F5, cleanup_frameCount. congruence.
  - rewrite F6, cleanup_platforms. congruence.
  - rewrite F7, cleanup_canvas. congruence.
Qed.

End PlayerTick.

Lemma X8_witness :
  let p' := player (update flatHost standing) in
  0 <= x (pos p') /\ x (pos p') + width (size p') <= width (canvas standing).
Proof.
  apply X8_player_stays_on_screen; [reflexivity|]. vm_compute. discriminate.
Defined.

Lemma X10_witness :
  frameCount (update flatHost arena119) = (frameCount arena119 + 1)%Z /\
  platforms (update flatHost arena119) = platforms arena119 /\
  canvas (update flatHost arena119) = canvas arena119 /\
  input (update flatHost arena119) = input arena119.
Proof. apply X10_tick_frame. reflexivity. Defined.

(** ** Effects of single collisions *)

Section SingleCollisions.

Variable h : Host.

Lemma iter_spawnParticle_spec (n : nat) (px py : Q) (col : string)
    (w : World) :
  let w' := Nat.iter n (spawnParticle h px py col) w in
  player w' = player w /\ score w' = score w /\
  bossActive w' = bossActive w /\
  exists ps, entities w' = entities w ++ ps /\ length ps = n /\
             Forall (fun p => type p = T_particle) ps.
Proof.
  induction n as [|n IH].
  - simpl. repeat split; try reflexivity.
    exists []. rewrite app_nil_r. repeat split; constructor.
  - rewrite Nat.iter_succ. destruct IH as (P & S0 & B & ps & E & L & F).
    destruct (spawnParticle_entities h px py col
                (Nat.iter n (spawnParticle h px py col) w))
      as (p & Ep & Tp & _).
    cbv zeta. rewrite Ep, E.
    split; [exact P|]. split; [exact S0|]. split; [exact B|].
    exists (ps ++ [p]). rewrite app_assoc, length_app. simpl.
    split; [reflexivity|]. split; [lia|].
    apply Forall_app. split; [exact F|]. constructor; [exact Tp|constructor].
Qed.


Lemma iter_boss_spark_spec (n : nat) (target : Entity) (w : World) :
  let w' := Nat.iter n (boss_spark h target) w in
  player w' = player w /\ score w' = score w /\
  bossActive w' = bossActive w /\
  exists ps, entities w' = entities w ++ ps.
Proof.
  induction n as [|n IH].
  - simpl. repeat split; try reflexivity. exists []. rewrite app_nil_r.
    reflexivity.
  - rewrite Nat.iter_succ. destruct IH as (P & S0 & B & ps & E).
    destruct (boss_spark_entities h target
                (Nat.iter n (boss_spark h target) w)) as (p & Ep & _).
    cbv zeta. rewrite Ep, E.
    split; [exact P|]. split; [exact S0|]. split; [exact B|].
    exists (ps ++ [p]). rewrite app_assoc. reflexivity.
Qed.

(** X12. One hit.  When the inner loop of a bullet in cell [i] reaches an
    unflagged enemy in another cell [j] that the bullet overlaps, the enemy
    loses exactly one hp and the bullet pays with its penetration
    ([bullet_hit]).  The score moves only if this brings the enemy's hp to
    zero or below: then the enemy is flagged and the score grows by 100, or
    by 5000 for the boss, whose death also clears the boss-active flag.  The
    player is untouched. *)
Theorem X12_hit (w : World) (i j : nat) (b t : Entity) :
  i <> j ->
  entities w !! i = Some b -> entities w !! j = Some t ->
  type t = T_enemy -> markedForDeletion t = false ->
  isColliding b t = true ->
  let w' := hit h i j w in
  let dead := (hp t - 1 <=? 0)%Z in
  entities w' !! i = Some (bullet_hit b) /\
  (exists t', entities w' !! j = Some t' /\ hp t' = (hp t - 1)%Z /\
              markedForDeletion t' = dead /\ pos t' = pos t) /\
  score w' =
    (score w + (if dead then (if is_boss t then 5000 else 100) else 0))%Z /\
  bossActive w' = (if dead && is_boss t then false else bossActive w) /\
  player w' = player w.
Proof.
  intros Hne Hi Hj Ht Hm Hc w' dead. unfold w', hit.
  rewrite Hi, Hj, Ht, Hm, Hc. cbn [EntityType_eqb negb andb].
  set (w1 := modify j (fun t0 => set_hp (hp t0 - 1) t0) w).
  set (w2 := modify i bullet_hit w1).
  assert (Hli : (i < length (entities w))%nat)
    by (eapply lookup_lt_Some; eassumption).
  assert (Hlj : (j < length (entities w))%nat)
    by (eapply lookup_lt_Some; eassumption).
  assert (H2i : entities w2 !! i = Some (bullet_hit b)).
  { unfold w2, w1. rewrite !modify_lookup.
    destruct (decide (i = i)); [|congruence].
    destruct (decide (j = i)); [congruence|]. rewrite Hi. reflexivity. }
  assert (H2j : entities w2 !! j = Some (set_hp (hp t - 1) t)).
  { unfold w2, w1. rewrite !modify_lookup.
    destruct (decide (i = j)); [congruence|].
    destruct (decide (j = j)); [|congruence]. rewrite Hj. reflexivity. }
  assert (H2l : length (entities w2) = length (entities w))
    by (unfold w2, w1; rewrite !modify_length; reflexivity).
  assert (H2f : player w2 = player w /\ score w2 = score w /\
                bossActive w2 = bossActive w).
  { unfold w2, w1, modify.
    destruct (entities w !! j); fields;
      match goal with |- context [?l !! i] => destruct (l !! i) end;
      auto. }
  clearbody w2. clear w1. destruct H2f as (P2 & S2 & B2).
  set (w3 := spawnParticle h (x (pos b)) (y (pos b)) (color t) w2).
  assert (H3 : entities w3 !! i = Some (bullet_hit b) /\
               entities w3 !! j = Some (set_hp (hp t - 1) t) /\
               (j < length (entities w3))%nat /\
               player w3 = player w /\ score w3 = score w /\
               bossActive w3 = bossActive w).
  { destruct (spawnParticle_entities h (x (pos b)) (y (pos b)) (color t) w2)
      as (p & Ep & _).
    fold w3 in Ep. rewrite Ep, !lookup_app_l, length_app by lia.
    repeat split; try assumption; lia. }
  clearbody w3. destruct H3 as (H3i & H3j & H3l & P3 & S3 & B3).
  fold dead. destruct dead eqn:Hd.
  - unfold kill. destruct (is_boss t) eqn:Hb.
    + destruct (iter_boss_spark_spec 50 t
                  (set_bossActive false (set_score (score w3 + 5000) w3)))
        as (P & S0 & B & ps & E).
      cbv zeta in P, S0, B, E. fields.
      generalize dependent
        (Nat.iter 50 (boss_spark h t)
           (set_bossActive false (set_score (score w3 + 5000) w3))).
      intros wk P S0 B E.
      assert (Hki : entities wk !! i = Some (bullet_hit b))
        by (rewrite E, lookup_app_l by (rewrite <- H2l in Hli;
              apply lookup_lt_Some in H3i; exact H3i); exact H3i).
      assert (Hkj : entities wk !! j = Some (set_hp (hp t - 1) t))
        by (rewrite E, lookup_app_l by exact H3l; exact H3j).
      rewrite !modify_lookup.
      destruct (decide (j = i)); [congruence|].
      destruct (decide (j = j)); [|congruence]. rewrite Hki, Hkj.
      unfold modify. rewrite Hkj. unfold store. fields.
      cbn [fmap option_fmap option_map].
      split; [reflexivity|]. split; [eexists; repeat split|].
      rewrite S0, S3, B, P, P3. auto.
    + rewrite !modify_lookup.
      destruct (decide (j = i)); [congruence|].
      destruct (decide (j = j)); [|congruence]. fields. rewrite H3i, H3j.
      unfold modify. fields. rewrite H3j. unfold store. fields.
      cbn [fmap option_fmap option_map].
      split; [reflexivity|]. split; [eexists; repeat split|].
      rewrite S3, B3, P3. auto.
  - rewrite H3i, H3j. split; [reflexivity|].
    split; [eexists; split; [reflexivity|]; fields; auto|].
    rewrite S3, B3, P3. split; [lia|]. split; reflexivity.
Qed.

End SingleCollisions.


Lemma X12_witness :
  let w' := hit flatHost 0 1 skirmish in
  let dead := (hp (runnerAt 506 450) - 1 <=? 0)%Z in
  entities w' !! 0%nat = Some (bullet_hit (rifleBulletAt 512 460)) /\
  (exists t', entities w' !! 1%nat = Some t' /\
              hp t' = (hp (runnerAt 506 450) - 1)%Z /\
              markedForDeletion t' = dead /\
              pos t' = pos (runnerAt 506 450)) /\
  score w' =
    (score skirmish +
     (if dead then (if is_boss (runnerAt 506 450) then 5000 else 100)
      else 0))%Z /\
  bossActive w' =
    (if dead && is_boss (runnerAt 506 450) then false
     else bossActive skirmish) /\
  player w' = player skirmish.
Proof.
  refine (X12_hit flatHost skirmish 0 1 (rifleBulletAt 512 460)
            (runnerAt 506 450) _ eq_refl eq_refl eq_refl eq_refl _).
  - discriminate.
  - vm_compute. reflexivity.
Defined.

(** ** The boss *)

Section Boss.

Variable h : Host.

(** X13. The entrance of the boss never overshoots: a boss in phase 0 ends
    its visit at or to the right of its stop position (50 left of the right
    edge), keeps its height and fires nothing; it enters phase 1 exactly
    when its step reaches the stop position, where it is then placed. *)
Theorem X13_boss_entrance (w : World) (e : Entity) :
  bossPhase e = Some 0%Z ->
  let e' := (boss_ai h w e).1 in
  boss_stop (canvas w) e <= x (pos e') /\
  (bossPhase e' = Some 1%Z <->
   x (pos e) + x (vel e) <= boss_stop (canvas w) e) /\
  (bossPhase e' = Some 1%Z -> x (pos e') == boss_stop (canvas w) e) /\
  (bossPhase e' = Some 0%Z \/ bossPhase e' = Some 1%Z) /\
  y (pos e') = y (pos e) /\ hp e' = hp e /\ (boss_ai h w e).2 = [].
Proof.
  intros Hp. unfold boss_ai, boss_stop.
  rewrite bool_decide_eq_true_2 by exact Hp. unfold Math_max.
  set (stop := width (canvas w) - width (size e) - 50).
  destruct (Qle_bool stop (x (pos e) + x (vel e))) eqn:E1; fields.
  - change (width (size (set_pos_x (x (pos e) + x (vel e)) e)))
      with (width (size e)). fold stop.
    destruct (Qle_bool (x (pos e) + x (vel e)) stop) eqn:E2;
      cbn [fst snd]; fields; q_hyps.
    + repeat split; auto; try lra; intros; lra.
    + assert (Hn : ~ x (pos e) + x (vel e) <= stop).
      { intros Hle. apply Qle_bool_iff in Hle. congruence. }
      rewrite Hp.
      repeat split; auto; try lra; try discriminate; try contradiction.
  - change (width (size (set_pos_x stop e))) with (width (size e)).
    fold stop.
    assert (E2 : Qle_bool stop stop = true) by (apply Qle_bool_iff; lra).
    rewrite E2. cbn [fst snd]. fields.
    assert (Hlt : x (pos e) + x (vel e) < stop).
    { apply Qnot_le_lt. intros Hle. apply Qle_bool_iff in Hle. congruence. }
    repeat split; auto; try lra; intros; lra.
Qed.



End Boss.

Lemma X13_witness :
  let e' := (boss_ai flatHost arena (newBoss (canvas arena))).1 in
  boss_stop (canvas arena) (newBoss (canvas arena)) <= x (pos e') /\
  (bossPhase e' = Some 1%Z <->
   x (pos (newBoss (canvas arena))) + x (vel (newBoss (canvas arena)))
     <= boss_stop (canvas arena) (newBoss (canvas arena))) /\
  (bossPhase e' = Some 1%Z ->
   x (pos e') == boss_stop (canvas arena) (newBoss (canvas arena))) /\
  (bossPhase e' = Some 0%Z \/ bossPhase e' = Some 1%Z) /\
  y (pos e') = y (pos (newBoss (canvas arena))) /\
  hp e' = hp (newBoss (canvas arena)) /\
  (boss_ai flatHost arena (newBoss (canvas arena))).2 = [].
Proof.
  exact (X13_boss_entrance flatHost arena (newBoss (canvas arena)) eq_refl).
Defined.


(** ** Flight *)

Section Flight.

Variable h : Host.

(** X15. Drones fly a scripted path: a visit moves a drone sideways by its
    x velocity, once, puts it at height 100 + 50 sin(0.05 frame) whatever its
    height and vertical velocity were, and leaves its velocity and its
    grounding alone: neither gravity nor any platform acts on it. *)
Theorem X15_drone_flight (w : World) (e : Entity) :
  type e = T_enemy -> subtype e = Some drone ->
  let e' := (ai h w e).1.1 in
  vel e' = vel e /\
  x (pos e') = x (pos e) + x (vel e) /\
  y (pos e') = 100 + Math_sin h (inject_Z (frameCount w) * 0.05) * 50 /\
  isGrounded e' = isGrounded e /\ hp e' = hp e.
Proof.
  intros Ht Hs. unfold ai.
  assert (Hg : apply_gravity e = e).
  { unfold apply_gravity, has_gravity. rewrite Hs.
    cbn [subtype_is EnemyType_eqb negb]. rewrite !andb_false_r. reflexivity. }
  rewrite Hg, Ht. unfold enemy_ai, is_boss. rewrite Hs.
  cbn [subtype_is EnemyType_eqb].
  assert (Hd : let r := drone_ai h w (random h w) e in
               vel r.1.1 = vel e /\
               x (pos r.1.1) = x (pos e) + x (vel e) /\
               y (pos r.1.1) =
                 100 + Math_sin h (inject_Z (frameCount w) * 0.05) * 50 /\
               isGrounded r.1.1 = isGrounded e /\ hp r.1.1 = hp e /\
               subtype r.1.1 = Some drone).
  { unfold drone_ai. repeat break_if; fields; auto 10. }
  destruct (drone_ai h w (random h w) e) as [[e1 ps] k].
  cbn [fst snd] in *. destruct Hd as (V & X0 & Y0 & G & H0 & S1).
  assert (Ha : apply_position e1 = e1).
  { unfold apply_position, is_boss. rewrite S1. reflexivity. }
  assert (Hpl : enemy_platforms w e1 = e1).
  { unfold enemy_platforms, is_boss. rewrite S1. reflexivity. }
  rewrite Ha, Hpl. unfold enemy_cleanup.
  repeat break_if; fields; auto.
Qed.

(** X16. Bullets without a lifetime fly straight: a visit adds the velocity
    to the position, once per axis, keeps the velocity (no gravity) and the
    penetration, and flags the bullet exactly when it is more than 50 beyond
    the left or right edge of the canvas. *)
Theorem X16_bullet_flight (w : World) (e : Entity) :
  type e = T_bullet -> ttl e = None ->
  let e' := (ai h w e).1.1 in
  vel e' = vel e /\
  x (pos e') = x (pos e) + x (vel e) /\
  y (pos e') = y (pos e) + y (vel e) /\
  penetration e' = penetration e /\
  markedForDeletion e' =
    (markedForDeletion e ||
     (Qltb (x (pos e) + x (vel e)) (-50) ||
      Qgtb (x (pos e) + x (vel e)) (width (canvas w) + 50))) /\
  (ai h w e).1.2 = [].
Proof.
  intros Ht Hl. unfold ai.
  assert (Hg : apply_gravity e = e).
  { unfold apply_gravity, has_gravity. rewrite Ht. reflexivity. }
  rewrite Hg, Ht. cbn [fst snd].
  unfold projectile_ai, tick_ttl. fields. rewrite Hl. fields.
  destruct (Qltb (x (pos e) + x (vel e)) (-50) ||
            Qgtb (x (pos e) + x (vel e)) (width (canvas w) + 50));
    fields; rewrite ?orb_true_r, ?orb_false_r; auto 10.
Qed.

End Flight.

Lemma X15_witness :
  let e := droneAt 500 80 in
  let e' := (ai flatHost arena e).1.1 in
  vel e' = vel e /\
  x (pos e') = x (pos e) + x (vel e) /\
  y (pos e') =
    100 + Math_sin flatHost (inject_Z (frameCount arena) * 0.05) * 50 /\
  isGrounded e' = isGrounded e /\ hp e' = hp e.
Proof.
  exact (X15_drone_flight flatHost arena (droneAt 500 80) eq_refl eq_refl).
Defined.

Lemma X16_witness :
  let e := rifleBulletAt 500 460 in
  let e' := (ai flatHost arena e).1.1 in
  vel e' = vel e /\
  x (pos e') = x (pos e) + x (vel e) /\
  y (pos e') = y (pos e) + y (vel e) /\
  penetration e' = penetration e /\
  markedForDeletion e' =
    (markedForDeletion e ||
     (Qltb (x (pos e) + x (vel e)) (-50) ||
      Qgtb (x (pos e) + x (vel e)) (width (canvas arena) + 50))) /\
  (ai flatHost arena e).1.2 = [].
Proof.
  exact (X16_bullet_flight flatHost arena (rifleBulletAt 500 460)
           eq_refl eq_refl).
Defined.

Lemma X9_witness :
  (hp (player (update flatHost fallen)) <= 0)%Z /\
  gameStatus (update flatHost fallen) = GAME_OVER /\
  gameOver (update flatHost fallen) =
    score (update flatHost fallen) :: gameOver fallen.
Proof.
  apply X9_fall_is_fatal; [reflexivity | vm_compute; reflexivity].
Defined.

(** ** The HUD *)

Section Hud.

Variable h : Host.

Lemma cleanup_hudState (w : World) : hudState (cleanup w) = hudState w.
Proof. reflexivity. Qed.

Lemma pre_cleanup_constants (w : World) :
  frameCount (pre_cleanup h w) = (frameCount w + 1)%Z /\
  canvas (pre_cleanup h w) = canvas w /\
  platforms (pre_cleanup h w) = platforms w.
Proof.
  rewrite pre_cleanup_stages.
  destruct (col_rel_collisions h (at_collisions h w))
    as [_ C2 C3 C4 _ _ _ _ _].
  destruct (at_collisions_spec h w) as [[_ U2 _ _ U5 _ _ U8 _ _] _].
  destruct (at_loop_spec h w) as (_ & L2 & _ & _ & L5 & L6 & _).
  repeat split; congruence.
Qed.

(** X17. The HUD is refreshed on every fifth frame and on no other: a tick
    that makes the frame counter a multiple of 5 ends with the HUD showing
    the player's hp, the score and the weapon as they are at the end of the
    tick (and 150 as the boss's full hp); any other tick leaves the HUD as
    it was, whatever happened to hp and score. *)
Theorem X17_hud_sync (w : World) :
  gameStatus w = PLAYING ->
  if (Z.rem (frameCount w + 1) 5 =? 0)%Z
  then hud_current (update h w)
  else hudState (update h w) = hudState w.
Proof.
  intros Hp. rewrite update_playing by exact Hp.
  destruct (pre_cleanup_constants w) as (F & _ & _).
  destruct (same_reports_pre_cleanup h w) as [_ Hh].
  rewrite <- F, <- (cleanup_frameCount (pre_cleanup h w)).
  assert (Hc : hudState (cleanup (pre_cleanup h w)) = hudState w)
    by (rewrite cleanup_hudState; exact Hh).
  revert Hc. generalize (cleanup (pre_cleanup h w)). intros c Hc.
  unfold finish, syncHud, onGameOver, hud_current.
  destruct (Z.rem (frameCount c) 5 =? 0)%Z; repeat break_if; fields;
    auto.
Qed.

End Hud.

Lemma X17_witness :
  if (Z.rem (frameCount arena4 + 1) 5 =? 0)%Z
  then hud_current (update flatHost arena4)
  else hudState (update flatHost arena4) = hudState arena4.
Proof. exact (X17_hud_sync flatHost arena4 eq_refl). Defined.

(** ** Shooting *)

Section Shooting.

Variable h : Host.

Lemma shoot_bullets (w : World) :
  let p := player w in
  let ws := WEAPONS (default rifle (weaponType p)) in
  player (shoot h w) = p /\
  exists bs, entities (shoot h w) = entities w ++ bs /\
    length bs =
      (if fire (input w) && (Z.rem (frameCount w) (rate ws) =? 0)%Z
       then volley p else 0)%nat /\
    Forall (bullet_of p ws) bs.
Proof.
  cbv zeta. unfold shoot, volley.
  destruct (fire (input w)); cbn [andb];
    [|split; [reflexivity|]; exists []; rewrite app_nil_r;
      repeat split; constructor].
  destruct (Z.rem (frameCount w) _ =? 0)%Z;
    [|split; [reflexivity|]; exists []; rewrite app_nil_r;
      repeat split; constructor].
  unfold fireBullet, push, draw, bullet_of, spawnBullet.
  destruct (weaponType (player w)) as [[]|] eqn:Hw;
    cbn [weapon_is WeaponType_eqb default]; fields;
    (split; [reflexivity|]).
  all: try (eexists [_]; split; [reflexivity|]; split; [reflexivity|];
            repeat (apply Forall_cons_2;
                    [repeat split; fields; rewrite ?Hw; auto|]);
            apply Forall_nil_2).
  eexists [_; _; _]. rewrite <- !app_assoc. split; [reflexivity|].
  split; [reflexivity|].
  repeat (apply Forall_cons_2;
          [repeat split; fields; rewrite ?Hw; auto|]).
  apply Forall_nil_2.
Qed.

(** X18. The fire rate.  In a tick, the player fires exactly when the fire
    key is held and the new frame number is a multiple of the weapon's rate
    (rifle 10, spread 20, laser 25, flame 4; rifle when the player has no
    weapon).  A shot is three bullets for the spread gun and one otherwise;
    every bullet leaves from the player's position after this tick's
    movement, on the side the player faces, flies that way, lives 30 visits
    exactly when it is a flame, and pierces 5 exactly when it is a laser. *)
Theorem X18_fire_rate (w : World) :
  let w' := pre_spawn h w in
  let p := player w' in
  let ws := WEAPONS (default rifle (weaponType p)) in
  exists bs, entities w' = entities w ++ bs /\
    length bs =
      (if fire (input w) && (Z.rem (frameCount w + 1) (rate ws) =? 0)%Z
       then volley p else 0)%nat /\
    Forall (bullet_of p ws) bs.
Proof.
  cbv zeta. unfold pre_spawn.
  set (w1 := player_physics (set_frameCount (frameCount w + 1) w)).
  destruct (shoot_bullets w1) as (P & bs & E & L & F).
  cbv zeta in *. rewrite P. exists bs.
  split; [exact E|]. split; [exact L|]. exact F.
Qed.

End Shooting.

(** ** The player's speed *)

Lemma vx_rel_refl (w : World) : vx_rel w w.
Proof. left. reflexivity. Qed.

Lemma vx_rel_trans (a b c : World) : vx_rel a b -> vx_rel b c -> vx_rel a c.
Proof.
  unfold vx_rel. intros H1 [H2|H2]; [rewrite H2; exact H1 | right; exact H2].
Qed.

Lemma vx_rel_same (w w' : World) : player w' = player w -> vx_rel w w'.
Proof. intros H. left. rewrite H. reflexivity. Qed.

Lemma resolve_platforms_vx (plats : list Entity) (e : Entity) :
  x (vel (resolve_platforms plats e)) = x (vel e).
Proof.
  revert e. induction plats as [|p plats IH]; intros e; [reflexivity|].
  change (resolve_platforms (p :: plats) e)
    with (resolve_platforms plats (if lands e p then land p e else e)).
  rewrite IH. destruct (lands e p); reflexivity.
Qed.

Lemma steer_speed (inp : Input) (p : Entity) :
  speed_ok p -> speed_ok (steer inp p).
Proof.
  unfold speed_ok, steer, PLAYER_SPEED, FRICTION. intros [H1 H2].
  repeat break_if; fields; lra.
Qed.

Lemma player_set_player (p : Entity) (w : World) :
  player (set_player p w) = p.
Proof. reflexivity. Qed.

Lemma vel_set_isGrounded (v : option bool) (e : Entity) :
  vel (set_isGrounded v e) = vel e.
Proof. reflexivity. Qed.

Lemma integrate_vx (p : Entity) : x (vel (integrate p)) = x (vel p).
Proof. reflexivity. Qed.

Lemma physics_speed (w : World) :
  speed_ok (player w) -> speed_ok (player (player_physics w)).
Proof.
  intros Hs. unfold player_physics.
  rewrite player_set_player. unfold speed_ok.
  rewrite resolve_platforms_vx, vel_set_isGrounded.
  rewrite (proj1 (proj2 (bounds_spec (canvas w)
                           (integrate (steer (input w) (player w)))))).
  rewrite integrate_vx. apply steer_speed, Hs.
Qed.

Section Speed.

Variable h : Host.

Lemma player_modify (i : nat) (f : Entity -> Entity) (w : World) :
  player (modify i f w) = player w.
Proof. unfold modify. destruct (entities w !! i); reflexivity. Qed.

Lemma player_spawnParticle (px py : Q) (col : string) (w : World) :
  player (spawnParticle h px py col w) = player w.
Proof. reflexivity. Qed.

Lemma player_iter (n : nat) (f : World -> World) (w : World) :
  (forall w0, player (f w0) = player w0) ->
  player (Nat.iter n f w) = player w.
Proof.
  intros Hf. induction n as [|n IH]; [reflexivity|].
  rewrite Nat.iter_succ, Hf. exact IH.
Qed.

Lemma player_hit (i j : nat) (w : World) : player (hit h i j w) = player w.
Proof.
  unfold hit.
  destruct (entities w !! i) as [entity|]; [|reflexivity].
  destruct (entities w !! j) as [target|]; [|reflexivity].
  destruct (_ && _); [|reflexivity].
  assert (H3 : player
    (spawnParticle h (x (pos entity)) (y (pos entity)) (color target)
       (modify i bullet_hit
          (modify j (fun t => set_hp (hp t - 1) t) w))) = player w)
    by (rewrite player_spawnParticle, !player_modify; reflexivity).
  destruct (hp target - 1 <=? 0)%Z; [|exact H3].
  revert H3. generalize (spawnParticle h (x (pos entity)) (y (pos entity))
       (color target) (modify i bullet_hit
          (modify j (fun t => set_hp (hp t - 1) t) w))).
  intros w3 H3. unfold kill. destruct (is_boss target).
  - rewrite player_modify, player_iter; [exact H3|].
    intros w0. reflexivity.
  - rewrite player_modify. exact H3.
Qed.

Lemma vx_rel_collide (i : nat) (w : World) : vx_rel w (collide h i w).
Proof.
  unfold collide. destruct (entities w !! i) as [entity|];
    [|apply vx_rel_refl].
  destruct (markedForDeletion entity); [apply vx_rel_refl|].
  assert (Hhurt : vx_rel w (hurt h i entity w)).
  { unfold hurt. destruct (isColliding (player w) entity);
      [|apply vx_rel_refl].
    unfold vx_rel. rewrite player_spawnParticle. fields.
    destruct (Qgtb _ _); auto. }
  destruct (type entity); try apply vx_rel_refl; try exact Hhurt.
  - apply vx_rel_same.
    refine (proj1 (forEach_rel (fun _ => True)
                     (fun a b => player b = player a) (hit h i)
                     (fun _ => eq_refl) _ _ _ w I)).
    + intros a b c H1 H2. congruence.
    + intros j s _. split; [apply player_hit | exact I].
  - unfold pickup. destruct (isColliding (player w) entity);
      [|apply vx_rel_refl].
    left. rewrite player_iter by (intros; apply player_spawnParticle).
    rewrite player_modify. reflexivity.
Qed.

Lemma vx_rel_collisions (w : World) : vx_rel w (collisions h w).
Proof.
  refine (proj1 (forEach_rel (fun _ => True) vx_rel (collide h)
                   vx_rel_refl vx_rel_trans _ _ w I)).
  intros i s _. split; [apply vx_rel_collide | exact I].
Qed.

Lemma speed_update (w : World) :
  speed_ok (player w) -> speed_ok (player (update h w)).
Proof.
  intros Hs. destruct (update_cases h w) as [Hp| ->]; [|exact Hs].
  rewrite update_playing by exact Hp.
  destruct (finish_spec (cleanup (pre_cleanup h w))) as (_ & _ & -> & _).
  rewrite cleanup_player, pre_cleanup_stages.
  pose proof (vx_rel_collisions (at_collisions h w)) as V.
  pose proof (Ur_player _ _ (proj1 (at_collisions_spec h w))) as U.
  destruct (at_loop_spec h w) as (_ & _ & _ & _ & _ & _ & _ & L8 & _).
  destruct (at_spawn_spec h w) as (_ & _ & _ & _ & _ & _ & _ & S8 & _).
  unfold vx_rel in V. rewrite U, L8, S8 in V.
  pose proof (physics_speed (set_frameCount (frameCount w + 1) w) Hs) as Hb.
  unfold speed_ok in *.
  destruct V as [->| [->| ->]]; [exact Hb|split; lra..].
Qed.

Lemma speed_step (w : World) (ev : Event) :
  speed_ok (player w) -> speed_ok (player (step h w ev)).
Proof.
  intros Hs. destruct ev as [code|code|]; cbn [step].
  - unfold handleKeyDown, speed_ok in *.
    repeat break_if; fields; exact Hs.
  - destruct (handleKeyUp_spec code w) as (_ & _ & _ & _ & _ & _ & _ & ->).
    exact Hs.
  - apply speed_update, Hs.
Qed.

(** X19. The speed limit.  Whatever keys are pressed and whatever hits the
    player, its horizontal speed stays at most 10: running gives 6, friction
    only slows, and a knock-back gives exactly 10. *)
Theorem X19_speed_limit (w : World) (evs : list Event) :
  speed_ok (player w) -> speed_ok (player (run h w evs)).
Proof.
  unfold run. revert w. induction evs as [|ev evs IH]; intros w Hs.
  - exact Hs.
  - cbn [foldl]. apply IH, speed_step, Hs.
Qed.

End Speed.

Lemma X19_witness : speed_ok (player (run flatHost arena session)).
Proof.
  apply X19_speed_limit. split; vm_compute; discriminate.
Defined.

(** ** The canvas through a run *)

Section Restart.

Variable h : Host.

Lemma canvas_step (w : World) (ev : Event) : canvas (step h w ev) = canvas w.
Proof.
  destruct ev as [code|code|]; cbn [step].
  - apply (handleKeyDown_spec code w).
  - apply (handleKeyUp_spec code w).
  - destruct (update_cases h w) as [Hp| ->]; [|reflexivity].
    rewrite update_playing by exact Hp.
    destruct (finish_spec (cleanup (pre_cleanup h w)))
      as (_ & _ & _ & _ & _ & _ & -> & _).
    rewrite cleanup_canvas. apply pre_cleanup_constants.
Qed.

Lemma canvas_run (w : World) (evs : list Event) :
  canvas (run h w evs) = canvas w.
Proof.
  unfold run. revert w. induction evs as [|ev evs IH]; intros w.
  - reflexivity.
  - cbn [foldl]. rewrite IH. apply canvas_step.
Qed.

End Restart.

(** ** The spawner, entity by entity *)

Lemma stable_is_ordinary : stable_kind is_ordinary.
Proof.
  unfold stable_kind, is_ordinary, is_boss. repeat split.
  - intros a b -> ->. reflexivity.
  - intros a (-> & -> & _). reflexivity.
  - intros a (-> & ->). reflexivity.
  - intros a (-> & -> & _). reflexivity.
Qed.

Lemma stable_is_powerup : stable_kind is_powerup.
Proof.
  unfold stable_kind, is_powerup. repeat split.
  - intros a b -> _. reflexivity.
  - intros a (-> & _). reflexivity.
  - intros a (-> & _). reflexivity.
  - intros a (-> & _). reflexivity.
Qed.

Section SpawnerExact.

Variable h : Host.

Lemma spawnEnemy_exact (w : World) :
  frameCount (spawnEnemy h w) = frameCount w /\
  bossActive (spawnEnemy h w) = bossActive w /\
  if bossActive w then entities (spawnEnemy h w) = entities w
  else exists e, entities (spawnEnemy h w) = entities w ++ [e] /\
                 is_ordinary e = true /\ is_powerup e = false /\
                 markedForDeletion e = false.
Proof.
  unfold spawnEnemy. destruct (bossActive w) eqn:Hb; [auto|].
  unfold push, draw, random.
  repeat break_if; fields; rewrite ?Hb;
    (split; [reflexivity|]; split; [reflexivity|]);
    eexists; (split; [reflexivity|]); auto.
Qed.

Lemma spawnPowerup_exact (w : World) :
  exists p, entities (spawnPowerup h w) = entities w ++ [p] /\
            is_powerup p = true /\ is_ordinary p = false /\
            markedForDeletion p = false.
Proof.
  unfold spawnPowerup, push, draw. fields. eexists.
  split; [reflexivity|]. auto.
Qed.

(** What the spawner pushes, exactly: the boss when it is due, then an
    enemy every 120 frames and a powerup every 900 frames, both only while
    the gate is open. *)
Lemma spawning_exact (w : World) :
  exists en pw,
    entities (spawning h w) =
      entities w ++ (if boss_due w then [newBoss (canvas w)] else [])
                 ++ en ++ pw /\
    (if negb (bossActive w || boss_due w) &&
        (Z.rem (frameCount w) 120 =? 0)%Z
     then exists e, en = [e] /\ is_ordinary e = true /\
                    is_powerup e = false /\ markedForDeletion e = false
     else en = []) /\
    (if negb (bossActive w || boss_due w) &&
        (Z.rem (frameCount w) 900 =? 0)%Z
     then exists p, pw = [p] /\ is_powerup p = true /\
                    is_ordinary p = false /\ markedForDeletion p = false
     else pw = []).
Proof.
  unfold spawning.
  set (w1 := if boss_due w then spawnBoss w else w).
  assert (H1 : frameCount w1 = frameCount w /\
               bossActive w1 = bossActive w || boss_due w /\
               entities w1 = entities w ++
                 (if boss_due w then [newBoss (canvas w)] else [])).
  { subst w1. destruct (boss_due w).
    - rewrite orb_true_r. repeat split; reflexivity.
    - rewrite orb_false_r, app_nil_r. repeat split; reflexivity. }
  clearbody w1. destruct H1 as (F1 & B1 & E1).
  set (w2 := if (Z.rem (frameCount w1) 120 =? 0)%Z
             then spawnEnemy h w1 else w1).
  assert (H2 : frameCount w2 = frameCount w /\
               bossActive w2 = bossActive w || boss_due w /\
               exists en, entities w2 = entities w1 ++ en /\
                 (if negb (bossActive w || boss_due w) &&
                     (Z.rem (frameCount w) 120 =? 0)%Z
                  then exists e, en = [e] /\ is_ordinary e = true /\
                         is_powerup e = false /\ markedForDeletion e = false
                  else en = [])).
  { subst w2. rewrite F1.
    destruct (Z.rem (frameCount w) 120 =? 0)%Z.
    - destruct (spawnEnemy_exact w1) as (F & B & E).
      rewrite F, B, F1, B1. split; [reflexivity|]. split; [reflexivity|].
      rewrite B1 in E. destruct (bossActive w || boss_due w); cbn [negb andb].
      + exists []. rewrite app_nil_r. auto.
      + destruct E as (e & E & He). exists [e]. split; [exact E|].
        exists e. auto.
    - rewrite andb_false_r. split; [exact F1|]. split; [exact B1|].
      exists []. rewrite app_nil_r. auto. }
  clearbody w2. destruct H2 as (F2 & B2 & en & E2 & Hen).
  exists en. rewrite F2, B2, andb_comm.
  destruct (negb (bossActive w || boss_due w) &&
            (Z.rem (frameCount w) 900 =? 0)%Z).
  - destruct (spawnPowerup_exact w2) as (p & E & Hp).
    exists [p]. rewrite E, E2, E1, <- !app_assoc.
    split; [reflexivity|]. split; [exact Hen|]. exists p. auto.
  - exists []. rewrite E2, E1, <- !app_assoc, app_nil_r. auto.
Qed.

Lemma count_singleton (f : Entity -> bool) (e : Entity) :
  length (List.filter f [e]) = (if f e then 1 else 0)%nat.
Proof. simpl. destruct (f e); reflexivity. Qed.

Lemma at_loop_exact (w : World) :
  exists bs en pw,
    entities (at_loop h w) =
      entities w ++ bs
        ++ (if boss_due w then [newBoss (canvas w)] else []) ++ en ++ pw /\
    Forall is_new_bullet bs /\
    (if enemy_due w
     then exists e, en = [e] /\ is_ordinary e = true /\
                    is_powerup e = false /\ markedForDeletion e = false
     else en = []) /\
    (if powerup_due w
     then exists p, pw = [p] /\ is_powerup p = true /\
                    is_ordinary p = false /\ markedForDeletion p = false
     else pw = []).
Proof.
  destruct (at_spawn_spec h w) as (_ & S2 & S3 & _ & _ & S6 & _ & _ &
                                   bs & E1 & B).
  destruct (spawning_exact (at_spawn h w)) as (en & pw & E & Hen & Hpw).
  rewrite (boss_due_at_spawn h w), S2, S3, S6, E1 in *.
  exists bs, en, pw. unfold enemy_due, powerup_due, gate_closed.
  split; [|auto].
  unfold at_loop. fold (at_spawn h w).
  change (entities (set_currentBossHp 0 (spawning h (at_spawn h w))))
    with (entities (spawning h (at_spawn h w))).
  rewrite E, <- !app_assoc. reflexivity.
Qed.

Lemma new_boss_kind :
  forall cv, is_boss (newBoss cv) = true /\ is_ordinary (newBoss cv) = false /\
             is_powerup (newBoss cv) = false.
Proof. intros cv. repeat split. Qed.

(** C6, as the code has it.  The spawner of a tick pushes, after the
    bullets of the tick and the boss if the tick creates it, exactly: one
    ordinary enemy if the gate is open and the new frame number is a
    multiple of 120, and one powerup if the gate is open and the new frame
    number is a multiple of 900; nothing else.  The gate is closed when the
    tick starts with the boss-active flag true or creates the boss.  The two
    loops that follow create no ordinary enemy and no powerup, and the list
    at the end of the tick is what the purge leaves of theirs.  (After the
    boss's death the flag is clear, but the gate opens only if no boss is
    due again.) *)
Theorem C6_ambient_spawn_gate (w : World) :
  gameStatus w = PLAYING ->
  (exists bs en pw,
     entities (at_loop h w) =
       entities w ++ bs
         ++ (if boss_due w then [newBoss (canvas w)] else []) ++ en ++ pw /\
     Forall is_new_bullet bs /\
     (if enemy_due w
      then exists e, en = [e] /\ is_ordinary e = true /\
                     is_powerup e = false /\ markedForDeletion e = false
      else en = []) /\
     (if powerup_due w
      then exists p, pw = [p] /\ is_powerup p = true /\
                     is_ordinary p = false /\ markedForDeletion p = false
      else pw = [])) /\
  count_ordinary (entities (pre_cleanup h w)) =
    (count_ordinary (entities w) + (if enemy_due w then 1 else 0))%nat /\
  count_powerups (entities (pre_cleanup h w)) =
    (count_powerups (entities w) + (if powerup_due w then 1 else 0))%nat /\
  entities (update h w) = unflagged (entities (pre_cleanup h w)) /\
  (bossActive w = true \/ boss_due w = true ->
   enemy_due w = false /\ powerup_due w = false /\
   (count_ambient (entities (update h w)) <=
    count_ambient (entities w))%nat) /\
  (bossActive w = false -> boss_due w = false ->
   (Z.rem (frameCount w + 1) 120 = 0)%Z \/
   (Z.rem (frameCount w + 1) 900 = 0)%Z ->
   (count_ambient (entities w) <
    count_ambient (entities (at_loop h w)))%nat).
Proof.
  intros Hp.
  destruct (at_loop_exact w) as (bs & en & pw & E & B & Hen & Hpw).
  assert (Hbs : forall f, stable_kind f -> length (List.filter f bs) = 0%nat).
  { intros f (_ & _ & _ & Hb). apply count_none.
    eapply Forall_impl; [exact B | exact Hb]. }
  split; [exists bs, en, pw; auto|].
  split; [|split; [|split; [|split]]].
  - unfold count_ordinary.
    rewrite (count_loops h is_ordinary stable_is_ordinary), E, !count_app.
    rewrite (Hbs _ stable_is_ordinary).
    assert (H0 : length (List.filter is_ordinary
                   (if boss_due w then [newBoss (canvas w)] else [])) = 0%nat)
      by (destruct (boss_due w); reflexivity).
    rewrite H0.
    destruct (powerup_due w).
    + destruct Hpw as (p & -> & _ & Hp0 & _). rewrite count_singleton, Hp0.
      destruct (enemy_due w).
      * destruct Hen as (e & -> & He & _). rewrite count_singleton, He. lia.
      * rewrite Hen. simpl. lia.
    + rewrite Hpw. destruct (enemy_due w).
      * destruct Hen as (e & -> & He & _). rewrite count_singleton, He.
        simpl. lia.
      * rewrite Hen. simpl. lia.
  - unfold count_powerups.
    rewrite (count_loops h is_powerup stable_is_powerup), E, !count_app.
    rewrite (Hbs _ stable_is_powerup).
    assert (H0 : length (List.filter is_powerup
                   (if boss_due w then [newBoss (canvas w)] else [])) = 0%nat)
      by (destruct (boss_due w); reflexivity).
    rewrite H0.
    destruct (enemy_due w).
    + destruct Hen as (e & -> & _ & He0 & _). rewrite count_singleton, He0.
      destruct (powerup_due w).
      * destruct Hpw as (p & -> & Hp1 & _). rewrite count_singleton, Hp1. lia.
      * rewrite Hpw. simpl. lia.
    + rewrite Hen. destruct (powerup_due w).
      * destruct Hpw as (p & -> & Hp1 & _). rewrite count_singleton, Hp1.
        simpl. lia.
      * rewrite Hpw. simpl. lia.
  - rewrite update_playing by exact Hp.
    destruct (finish_spec (cleanup (pre_cleanup h w))) as (-> & _).
    apply cleanup_entities.
  - intros Hg.
    assert (Hc : gate_closed w = true)
      by (unfold gate_closed; destruct Hg as [-> | ->];
          [reflexivity | apply orb_true_r]).
    unfold enemy_due, powerup_due. rewrite Hc. cbn [negb andb].
    split; [reflexivity|]. split; [reflexivity|].
    rewrite <- (count_ambient_at_loop_closed h w) by exact Hc.
    apply (count_update_le h is_ambient stable_is_ambient w Hp).
  - intros Hf Hd Hz.
    destruct (at_spawn_spec h w) as (_ & S2 & S3 & _).
    assert (Ho : (count_ambient (entities (at_spawn h w)) <
                  count_ambient (entities (spawning h (at_spawn h w))))%nat).
    { apply spawning_open.
      - congruence.
      - rewrite boss_due_at_spawn. exact Hd.
      - rewrite S2. exact Hz. }
    unfold count_ambient in *.
    rewrite (count_at_spawn h is_ambient stable_is_ambient w) in Ho.
    exact Ho.
Qed.

End SpawnerExact.

Section BossSpawn.

Variable h : Host.

Lemma creates_boss_playing (w : World) :
  gameStatus w = PLAYING -> creates_boss h w = boss_due w.
Proof.
  intros Hp. unfold creates_boss. rewrite Hp. fold (at_spawn h w).
  apply boss_due_at_spawn.
Qed.

(** C2, as the code has it.  In a run the entity list never holds more than
    one boss.  A tick creates a boss exactly when it starts with the run
    playing, the boss-active flag false, the score above 1500 and no boss in
    the list: then the spawner pushes one boss, the object of [spawnBoss],
    and sets the flag; in every other tick the spawner pushes no boss and
    leaves the flag alone, the two loops create no boss either, and the list
    at the end of the tick is what the purge leaves.  Nothing makes the
    creation happen only once: its condition holds again as soon as a killed
    boss has been purged. *)
Theorem C2_boss_whenever_due (cv : Size) (evs : list Event) :
  let w := run h (start cv) evs in
  (count_bosses (entities w) <= 1)%nat /\
  (creates_boss h w = true <->
   gameStatus w = PLAYING /\ bossActive w = false /\ (score w > 1500)%Z /\
   count_bosses (entities w) = 0%nat) /\
  (creates_boss h w = true ->
   bossActive (at_loop h w) = true /\
   count_bosses (entities (at_loop h w)) = 1%nat) /\
  (gameStatus w = PLAYING ->
   (exists bs amb,
      entities (at_loop h w) =
        entities w ++ bs
          ++ (if creates_boss h w then [newBoss (canvas w)] else [])
          ++ amb /\
      Forall (fun e => is_boss e = false) bs /\
      Forall (fun e => is_boss e = false) amb) /\
   count_bosses (entities (at_loop h w)) =
     (count_bosses (entities w) + (if creates_boss h w then 1 else 0))%nat /\
   bossActive (at_loop h w) = bossActive w || creates_boss h w /\
   count_bosses (entities (pre_cleanup h w)) =
     count_bosses (entities (at_loop h w)) /\
   entities (update h w) = unflagged (entities (pre_cleanup h w))) /\
  (gameStatus w <> PLAYING -> creates_boss h w = false /\ update h w = w).
Proof.
  intros w. split; [|split; [|split; [|split]]].
  - apply boss_count_run. unfold count_bosses. simpl. lia.
  - apply creates_boss_iff.
  - intros Hc. apply creates_boss_iff in Hc.
    destruct Hc as (_ & Hf & Hs & Hn).
    assert (Hd : boss_due w = true) by (apply boss_due_iff; auto).
    rewrite count_bosses_at_loop, Hd, Hn.
    destruct (at_loop_spec h w) as (_ & _ & -> & _).
    rewrite boss_due_at_spawn, Hd, orb_true_r. auto.
  - intros Hp. rewrite (creates_boss_playing w Hp).
    split; [|split; [|split; [|split]]].
    + destruct (at_loop_spec h w) as (_ & _ & _ & _ & _ & _ & _ & _ &
                                      amb & E2 & A & _).
      destruct (at_spawn_spec h w) as (_ & _ & _ & _ & _ & _ & _ & _ &
                                       bs & E1 & B).
      rewrite boss_due_at_spawn in E2.
      exists bs, amb. split; [rewrite E2, E1, <- app_assoc; reflexivity|].
      split.
      * eapply Forall_impl; [exact B|]. intros e (_ & He & _).
        unfold is_boss. rewrite He. reflexivity.
      * eapply Forall_impl; [exact A|]. intros e (_ & He & _). exact He.
    + apply count_bosses_at_loop.
    + destruct (at_loop_spec h w) as (_ & _ & -> & _).
      rewrite boss_due_at_spawn. reflexivity.
    + apply (count_loops h is_boss stable_is_boss).
    + rewrite update_playing by exact Hp.
      destruct (finish_spec (cleanup (pre_cleanup h w))) as (-> & _).
      apply cleanup_entities.
  - intros Hn. split; [|apply update_not_playing, Hn].
    unfold creates_boss. destruct (gameStatus w); congruence.
Qed.

End BossSpawn.

Lemma C6_witness :
  count_ordinary (entities (pre_cleanup flatHost arena1799)) =
    (count_ordinary (entities arena1799) +
     (if enemy_due arena1799 then 1 else 0))%nat /\
  count_powerups (entities (pre_cleanup flatHost arena1799)) =
    (count_powerups (entities arena1799) +
     (if powerup_due arena1799 then 1 else 0))%nat /\
  enemy_due arena1799 = true /\ powerup_due arena1799 = true.
Proof.
  destruct (C6_ambient_spawn_gate flatHost arena1799 eq_refl)
    as (_ & H1 & H2 & _).
  split; [exact H1|]. split; [exact H2|]. split; reflexivity.
Defined.

(** ** The phases of the boss, tick by tick *)

Lemma count_unique (f : Entity -> bool) (l : list Entity) (a b : Entity) :
  (length (List.filter f l) <= 1)%nat ->
  a ∈ l -> f a = true -> b ∈ l -> f b = true -> a = b.
Proof.
  induction l as [|c l IH]; intros Hc Ha Fa Hb Fb; [inversion Ha|].
  simpl in Hc. apply elem_of_cons in Ha, Hb.
  assert (Hnone : forall e, f c = true -> e ∈ l -> f e = true -> False).
  { intros e Fc He Fe. rewrite Fc in Hc. simpl in Hc.
    apply list_elem_of_In in He.
    assert (Hin : In e (List.filter f l)) by (apply filter_In; auto).
    destruct (List.filter f l); [inversion Hin | simpl in Hc; lia]. }
  destruct Ha as [->|Ha], Hb as [->|Hb].
  - reflexivity.
  - exfalso. eapply Hnone; eassumption.
  - exfalso. eapply Hnone; eassumption.
  - apply IH; auto. destruct (f c); simpl in Hc; lia.
Qed.

Lemma boss_next_phase_spec (cv : Size) (b : Entity) (p : Z) :
  bossPhase b = Some p -> (0 <= p <= 2)%Z ->
  exists p', boss_next_phase cv b = Some p' /\
    (p <= p' /\ p' <= 2 /\ p' <= p + 1)%Z /\
    (p = 1%Z -> (p' = 2%Z <-> inject_Z (hp b) < inject_Z (maxHp b) / 2)) /\
    (p = 2%Z -> p' = 2%Z).
Proof.
  intros Hp Hr. unfold boss_next_phase. rewrite Hp.
  assert (Hc : p = 0%Z \/ p = 1%Z \/ p = 2%Z) by lia.
  destruct Hc as [->|[->| ->]].
  - rewrite bool_decide_eq_true_2 by reflexivity.
    destruct (Qle_bool _ _); eexists; (split; [reflexivity|]);
      (split; [lia|]); split; intros; discriminate.
  - rewrite bool_decide_eq_false_2 by discriminate.
    rewrite (bool_decide_eq_true_2 (Some 1%Z = Some 1%Z)) by reflexivity.
    rewrite andb_true_r.
    destruct (Qltb (inject_Z (hp b)) (inject_Z (maxHp b) / 2)) eqn:E.
    + exists 2%Z. apply Qltb_lt in E.
      split; [reflexivity|]. split; [lia|]. split; [|reflexivity].
      intros _. split; auto.
    + exists 1%Z. split; [reflexivity|]. split; [lia|].
      split; [|intros; discriminate].
      intros _. split; [intros; discriminate|].
      intros Hlt. apply Qltb_lt in Hlt. congruence.
  - rewrite bool_decide_eq_false_2 by discriminate.
    rewrite (bool_decide_eq_false_2 (Some 2%Z = Some 1%Z)) by discriminate.
    rewrite andb_false_r. exists 2%Z.
    split; [reflexivity|]. split; [lia|]. split; [|reflexivity].
    intros; discriminate.
Qed.

Section BossTick.

Variable h : Host.

Lemma boss_ai_next (w : World) (e : Entity) :
  bossPhase (boss_ai h w e).1 = boss_next_phase (canvas w) e.
Proof.
  unfold boss_next_phase, boss_ai, boss_stop.
  destruct (bool_decide (bossPhase e = Some 0%Z)) eqn:H0.
  - apply bool_decide_eq_true in H0. unfold Math_max.
    set (stop := width (canvas w) - width (size e) - 50).
    destruct (Qle_bool stop (x (pos e) + x (vel e))) eqn:E1; fields.
    + change (width (size (set_pos_x (x (pos e) + x (vel e)) e)))
        with (width (size e)). fold stop.
      destruct (Qle_bool (x (pos e) + x (vel e)) stop);
        cbn [fst]; fields; [reflexivity | exact H0].
    + change (width (size (set_pos_x stop e))) with (width (size e)).
      fold stop.
      assert (E2 : Qle_bool stop stop = true) by (apply Qle_bool_iff; lra).
      assert (E3 : Qle_bool (x (pos e) + x (vel e)) stop = true).
      { apply Qle_bool_iff. apply Qlt_le_weak, Qnot_le_lt. intros Hle.
        apply Qle_bool_iff in Hle. congruence. }
      rewrite E2, E3. reflexivity.
  - assert (Hph : forall e1 : Entity,
              bossPhase
                (let timer := (default 0 (attackTimer e1) + 1)%Z in
                 let e2 := set_attackTimer (Some timer) e1 in
                 let phase2 := bool_decide (bossPhase e2 = Some 2%Z) in
                 let attackRate := (if phase2 then 40 else 80)%Z in
                 if (Z.rem timer attackRate =? 0)%Z
                 then (e2, boss_projectile_aimed h w e2 ::
                           (if phase2 then [boss_projectile_spread e2] else []))
                 else (e2, [])).1 = bossPhase e1).
    { intros e1. cbv zeta. break_if; reflexivity. }
    rewrite Hph. unfold phase_switch. fields.
    destruct (Qltb (inject_Z (hp e)) (inject_Z (maxHp e) / 2) &&
              bool_decide (bossPhase e = Some 1%Z)); reflexivity.
Qed.

(** The visit of the update loop, for an enemy that is the boss. *)
Lemma ai_boss_next (w : World) (e : Entity) :
  type e = T_enemy -> is_boss e = true ->
  bossPhase (ai h w e).1.1 = boss_next_phase (canvas w) e.
Proof.
  intros Ht Hb. unfold ai.
  assert (Hg : apply_gravity e = e).
  { unfold apply_gravity, has_gravity. unfold is_boss in Hb. rewrite Hb.
    rewrite !andb_false_r. reflexivity. }
  rewrite Hg, Ht. unfold enemy_ai. rewrite Hb. unfold is_boss in Hb.
  pose proof (boss_ai_next w e) as Hph.
  pose proof (R_mv_boss_ai h w e) as Hmv.
  destruct (boss_ai h w e) as [e1 ps]. cbn [fst snd] in *.
  assert (Hs : subtype e1 = subtype e) by (destruct Hmv; assumption).
  assert (Heq : bossPhase
            (enemy_cleanup w (enemy_platforms w (apply_position e1)))
            = bossPhase e1).
  { unfold enemy_cleanup, enemy_platforms, apply_position, is_boss.
    rewrite Hs, Hb. simpl. rewrite Hs, Hb. simpl.
    repeat break_if; reflexivity. }
  rewrite Heq. exact Hph.
Qed.

(** Every boss that a tick leaves in the list is what the tick made of a
    boss it found there, or of the boss it created. *)
Lemma boss_descends (w : World) (b' : Entity) :
  gameStatus w = PLAYING ->
  b' ∈ entities (update h w) -> is_boss b' = true ->
  exists b : Entity,
    ((b ∈ entities w /\ is_boss b = true) \/
     (boss_due w = true /\ b = newBoss (canvas w))) /\
    type b' = type b /\ maxHp b' = maxHp b /\ (hp b' <= hp b)%Z /\
    (type b = T_enemy -> bossPhase b' = boss_next_phase (canvas w) b).
Proof.
  intros Hp Hin Hb. rewrite update_playing in Hin by exact Hp.
  destruct (finish_spec (cleanup (pre_cleanup h w))) as (E & _).
  rewrite E, cleanup_entities in Hin.
  apply list_elem_of_In, filter_In in Hin. destruct Hin as [Hin Hm].
  apply negb_true_iff in Hm. apply list_elem_of_In in Hin.
  apply list_elem_of_lookup in Hin. destruct Hin as [k Hk].
  rewrite pre_cleanup_stages in Hk.
  destruct (col_rel_collisions h (at_collisions h w))
    as [_ _ _ _ _ _ _ _ (_ & C2 & N2)].
  destruct (at_collisions_spec h w) as [[_ _ _ _ _ _ _ Ucv _ _] (_ & C1 & N1)].
  destruct (entities (at_collisions h w) !! k) as [b3|] eqn:H3.
  2:{ apply lookup_ge_None in H3. destruct (N2 k b' H3 Hk) as [_ Hs].
      unfold is_boss in Hb. rewrite Hs in Hb. discriminate. }
  destruct (C2 k b3 b' H3 Hk) as [R1 R2 _ _ _ _ R7 _ R9 R10 R11].
  destruct (entities (at_loop h w) !! k) as [b2|] eqn:H2.
  2:{ apply lookup_ge_None in H2. destruct (N1 k b3 H2 H3) as (_ & Hs & _).
      unfold is_boss in Hb. rewrite R2, Hs in Hb. discriminate. }
  pose proof (C1 k b2 b3 H2 H3) as HR.
  pose proof (R_ai_R_mv h _ _ _ HR) as [_ M2 M3 _ _ _ M7 M8 _ _ M11].
  assert (Hb2 : is_boss b2 = true) by (unfold is_boss in *; congruence).
  exists b2. split; [|split; [congruence|split; [congruence|split; [lia|]]]].
  - destruct (at_loop_spec h w) as (_ & _ & _ & _ & _ & _ & _ & _ &
                                    amb & E2 & A & _).
    destruct (at_spawn_spec h w) as (_ & _ & _ & _ & _ & _ & _ & _ &
                                     bs & E1 & B).
    assert (Hin2 : b2 ∈ entities (at_loop h w))
      by (apply list_elem_of_lookup; eauto).
    rewrite E2, E1, boss_due_at_spawn in Hin2.
    rewrite !elem_of_app in Hin2.
    destruct Hin2 as [[Hin2|Hin2]|[Hin2|Hin2]].
    + left. auto.
    + eapply Forall_forall in B; [|exact Hin2].
      destruct B as (_ & Hs & _). unfold is_boss in Hb2.
      rewrite Hs in Hb2. discriminate.
    + right. destruct (boss_due w).
      * apply list_elem_of_singleton in Hin2. auto.
      * inversion Hin2.
    + eapply Forall_forall in A; [|exact Hin2].
      destruct A as (_ & Hnb & _). congruence.
  - intros Ht2.
    destruct HR as [[Hmk ->]|[Hmk (w' & [_ _ _ _ _ _ _ Wcv _ _] & ->)]].
    + rewrite (R11 Hmk) in Hm. discriminate.
    + rewrite R9, (ai_boss_next w' b2 Ht2 Hb2), Wcv.
      destruct (at_loop_spec h w) as (_ & _ & _ & _ & _ & -> & _).
      reflexivity.
Qed.

Lemma boss_ok_next (cv : Size) (b b' : Entity) :
  boss_ok b -> type b' = type b ->
  bossPhase b' = boss_next_phase cv b -> boss_ok b'.
Proof.
  intros [Ht Hph] Ht' Hn. split; [congruence|].
  assert (Hex : exists p, bossPhase b = Some p /\ (0 <= p <= 2)%Z)
    by (destruct Hph as [->|[->| ->]]; eexists; split; eauto; lia).
  destruct Hex as (p & Hp & Hr).
  destruct (boss_next_phase_spec cv b p Hp Hr) as (p' & Hp' & Hle & _).
  rewrite Hn, Hp'.
  assert (Hc : p' = 0%Z \/ p' = 1%Z \/ p' = 2%Z) by lia.
  destruct Hc as [->|[->| ->]]; auto.
Qed.

Lemma boss_ok_newBoss (cv : Size) : boss_ok (newBoss cv).
Proof. split; [reflexivity | left; reflexivity]. Qed.

Lemma boss_inv_update (w : World) : boss_inv w -> boss_inv (update h w).
Proof.
  intros [Hc Hf]. destruct (update_cases h w) as [Hp| ->]; [|split; assumption].
  split; [apply boss_count_update, Hc|].
  apply Forall_forall. intros b' Hin Hb.
  destruct (boss_descends w b' Hp Hin Hb)
    as (b & Ho & Ht & _ & _ & Hn).
  assert (Hok : boss_ok b).
  { destruct Ho as [[Hi Hbb]|[_ ->]]; [|apply boss_ok_newBoss].
    eapply Forall_forall in Hf; [|exact Hi]. auto. }
  eapply boss_ok_next; [exact Hok | exact Ht | apply Hn, Hok].
Qed.

Lemma boss_inv_run (w : World) (evs : list Event) :
  boss_inv w -> boss_inv (run h w evs).
Proof.
  unfold run. revert w. induction evs as [|ev evs IH]; intros w Hw;
    cbn [foldl]; [exact Hw|].
  apply IH. destruct ev as [code|code|]; cbn [step].
  - unfold boss_inv.
    destruct (handleKeyDown_spec code w) as (_ & _ & _ & -> & _). exact Hw.
  - unfold boss_inv.
    destruct (handleKeyUp_spec code w) as (_ & _ & _ & -> & _). exact Hw.
  - apply boss_inv_update, Hw.
Qed.

(** C5, as the code has it.  In a run there is at most one boss, an enemy in
    phase 0, 1 or 2.  The boss a tick leaves in the list is what the tick
    made of the boss it found (or of the one it created), and its phase is a
    function of that boss alone, not of the frame counter: the phase never
    decreases and moves one step at most; from 1 it becomes 2 exactly when
    the hp of the boss, as the tick finds it, is strictly below half its
    maxHp; from 2 it stays 2; and hp never rises.  The hp that counts is the
    one the previous tick left: a hit that takes the boss below half leaves
    it in phase 1 at the end of that tick. *)
Theorem C5_boss_phase_monotone :
  (forall cv evs, boss_inv (run h (start cv) evs)) /\
  (forall w : World,
     boss_inv w -> gameStatus w = PLAYING ->
     boss_inv (update h w) /\
     forall b', b' ∈ entities (update h w) -> is_boss b' = true ->
       exists (b : Entity) (p p' : Z),
         ((b ∈ entities w /\ is_boss b = true /\
           forall b0, b0 ∈ entities w -> is_boss b0 = true -> b0 = b) \/
          (boss_due w = true /\ count_bosses (entities w) = 0%nat /\
           b = newBoss (canvas w))) /\
         bossPhase b = Some p /\ bossPhase b' = Some p' /\
         bossPhase b' = boss_next_phase (canvas w) b /\
         (0 <= p /\ p <= p' /\ p' <= 2 /\ p' <= p + 1)%Z /\
         (p = 1%Z ->
          (p' = 2%Z <-> inject_Z (hp b) < inject_Z (maxHp b) / 2)) /\
         (p = 2%Z -> p' = 2%Z) /\
         maxHp b' = maxHp b /\ (hp b' <= hp b)%Z).
Proof.
  split.
  - intros cv evs. apply boss_inv_run.
    split; [unfold count_bosses; simpl; lia | simpl; constructor].
  - intros w Hinv Hp. split; [apply boss_inv_update, Hinv|].
    destruct Hinv as [Hc Hf]. intros b' Hin Hb.
    destruct (boss_descends w b' Hp Hin Hb)
      as (b & Ho & Ht & Hmax & Hhp & Hn).
    assert (Hok : boss_ok b).
    { destruct Ho as [[Hi Hbb]|[_ ->]]; [|apply boss_ok_newBoss].
      eapply Forall_forall in Hf; [|exact Hi]. auto. }
    destruct Hok as [Hty Hph].
    assert (Hex : exists p, bossPhase b = Some p /\ (0 <= p <= 2)%Z)
      by (destruct Hph as [->|[->| ->]]; eexists; split; eauto; lia).
    destruct Hex as (p & Hbp & Hr).
    destruct (boss_next_phase_spec (canvas w) b p Hbp Hr)
      as (p' & Hp' & Hle & H12 & H22).
    exists b, p, p'. split; [|rewrite (Hn Hty); repeat split;
                               auto; try lia; apply H12; assumption].
    destruct Ho as [[Hi Hbb]|[Hd ->]].
    + left. split; [exact Hi|]. split; [exact Hbb|].
      intros b0 Hi0 Hb0.
      apply (count_unique is_boss (entities w)); assumption.
    + right. split; [exact Hd|]. split; [|reflexivity].
      apply boss_due_iff in Hd. tauto.
Qed.

End BossTick.

(** C5 as stated fails on the code: the boss in phase 1 with 75 of its 150 hp
    is hit; the tick ends with the boss at 74 hp, below half, and still in
    phase 1.  The next tick moves it to phase 2. *)
Lemma C5_below_half_in_phase_one :
  List.map (fun b => (hp b, maxHp b, bossPhase b))
    (List.filter is_boss (entities bossAtHalf)) =
    [(75%Z, 150%Z, Some 1%Z)] /\
  List.map (fun b => (hp b, maxHp b, bossPhase b))
    (List.filter is_boss (entities (update flatHost bossAtHalf))) =
    [(74%Z, 150%Z, Some 1%Z)] /\
  List.map (fun b => (hp b, maxHp b, bossPhase b))
    (List.filter is_boss
       (entities (update flatHost (update flatHost bossAtHalf)))) =
    [(74%Z, 150%Z, Some 2%Z)].
Proof. vm_compute. repeat split. Qed.

(** ** Landing, for the enemies too *)

Lemma landed_ext (plats : list Entity) (e e' : Entity) :
  pos e' = pos e -> vel e' = vel e -> size e' = size e ->
  isGrounded e' = isGrounded e -> landed plats e -> landed plats e'.
Proof.
  unfold landed. intros -> -> -> ->. auto.
Qed.

Section EnemyLanding.

Variable h : Host.

Lemma enemy_cleanup_fields (w : World) (e : Entity) :
  pos (enemy_cleanup w e) = pos e /\ vel (enemy_cleanup w e) = vel e /\
  size (enemy_cleanup w e) = size e /\
  isGrounded (enemy_cleanup w e) = isGrounded e.
Proof. unfold enemy_cleanup. repeat break_if; auto. Qed.

(** The visit of a runner or jumper: gravity, its branch, "Apply Position",
    then the platform loop, then the off-screen check, which only flags. *)
Lemma ai_ground_enemy (w : World) (e : Entity) :
  ground_enemy e = true ->
  (ai h w e).1.1 =
  enemy_cleanup w
    (resolve_platforms (platforms w) (enemy_before_platforms h w e)).
Proof.
  unfold ground_enemy. rewrite !andb_true_iff, !negb_true_iff.
  intros [[Ht Hb] Hd].
  assert (Hty : type e = T_enemy) by (destruct (type e); try discriminate; auto).
  clear Ht. unfold ai, enemy_before_platforms.
  assert (Hg : type (apply_gravity e) = type e /\
               subtype (apply_gravity e) = subtype e)
    by (unfold apply_gravity; break_if; auto).
  destruct Hg as [Hg1 Hg2]. rewrite Hg1, Hty. unfold enemy_ai, is_boss in *.
  rewrite Hg2, Hb, Hd.
  assert (Hstep : forall e1 : Entity, subtype e1 = subtype e ->
            enemy_platforms w (apply_position e1) =
            resolve_platforms (platforms w) (apply_position e1)).
  { intros e1 Hs. unfold enemy_platforms, is_boss.
    assert (Hs' : subtype (apply_position e1) = subtype e1)
      by (unfold apply_position; break_if; reflexivity).
    rewrite Hs', Hs, Hb, Hd. reflexivity. }
  destruct (subtype_is (subtype e) jumper).
  - assert (Hj : subtype (jumper_ai w (random h w) (apply_gravity e)).1 =
                 subtype e)
      by (unfold jumper_ai; repeat break_if; cbn [fst]; fields; exact Hg2).
    destruct (jumper_ai w (random h w) (apply_gravity e)) as [e1 k].
    cbn [fst snd] in *. rewrite (Hstep e1 Hj). reflexivity.
  - cbn [fst snd]. rewrite (Hstep (runner_ai (apply_gravity e)) Hg2).
    reflexivity.
Qed.

(** A visit leaves the other cells of the list. *)
Lemma update_entity_other (i k : nat) (s : World) :
  i <> k -> (k < length (entities s))%nat ->
  entities (update_entity h i s) !! k = entities s !! k.
Proof.
  intros Hne Hk. unfold update_entity.
  destruct (entities s !! i) as [e|] eqn:Hi; [|reflexivity].
  destruct (markedForDeletion e); [reflexivity|].
  match goal with |- context [ai h ?w1 e] =>
    destruct (ai h w1 e) as [[e' ps] d] end.
  assert (Hl : forall s0 : World, entities s0 = entities s ->
            entities (set_randomCalls (randomCalls (set_entities
              (entities (store i e' s0) ++ ps) (store i e' s0)) + d)
              (set_entities (entities (store i e' s0) ++ ps)
                 (store i e' s0))) !! k = entities s !! k).
  { intros s0 Hs0. unfold store. fields. rewrite Hs0.
    rewrite lookup_app_l by (rewrite length_insert; exact Hk).
    apply list_lookup_insert_ne. exact Hne. }
  break_if; apply Hl; reflexivity.
Qed.

Lemma later_visits_keep (k : nat) (x : Entity) (l : list nat) (s : World) :
  Forall (fun i => i <> k) l ->
  entities s !! k = Some x ->
  entities (foldl (fun acc i => update_entity h i acc) s l) !! k = Some x.
Proof.
  revert s. induction l as [|i l IH]; intros s Hl Hs; [exact Hs|].
  cbn [foldl]. apply Forall_cons in Hl. destruct Hl as [Hi Hl].
  apply IH; [exact Hl|].
  rewrite update_entity_other; [exact Hs | exact Hi |].
  eapply lookup_lt_Some; exact Hs.
Qed.

(** The cell of an unflagged entity that is not the boss, after the update
    loop: what [ai] makes of it in the state the loop has reached when it
    visits the cell. *)
Lemma visit_exact (w : World) (k : nat) (e : Entity) :
  entities w !! k = Some e -> markedForDeletion e = false ->
  is_boss e = false ->
  entities (update_entities h w) !! k =
  Some (ai h (forEach k (update_entity h) w) e).1.1.
Proof.
  intros Hk Hm Hb.
  assert (Hkn : (k < length (entities w))%nat)
    by (eapply lookup_lt_Some; exact Hk).
  unfold update_entities.
  rewrite (forEach_split (length (entities w)) k) by exact Hkn.
  set (sk := forEach k (update_entity h) w).
  destruct (upd_inv_forEach h w k ltac:(lia)) as [_ Hlen _ Htodo _].
  fold sk in Hlen, Htodo.
  assert (Hcell : entities sk !! k = Some e)
    by (rewrite Htodo by lia; exact Hk).
  apply later_visits_keep.
  - apply Forall_forall. intros i Hi. apply elem_of_seq in Hi. lia.
  - unfold update_entity. rewrite Hcell, Hm, Hb, andb_false_r.
    destruct (ai h sk e) as [[e' ps] d]. unfold store. fields.
    rewrite lookup_app_l by (rewrite length_insert; lia).
    apply list_lookup_insert_eq. lia.
Qed.

(** C8, as the code has it.  Platform resolution leaves any entity that met
    the landing condition of some platform grounded, with vertical velocity
    0 and its bottom edge on a platform top.  A runner or jumper that meets
    the landing condition when its platform loop starts (in the state the
    update loop has reached at its visit) is therefore landed after its
    visit, and the collisions that follow move no entity and leave velocity
    and grounding of the listed entities alone: it is still landed in the
    list that the purge of the tick filters.  For the player position
    and grounding still hold at the end of the tick, but the vertical
    velocity is 0 only if the player was not hurt: the knock-back of a hit
    sets it to -5. *)
Theorem C8_landing (w : World) :
  gameStatus w = PLAYING ->
  (forall e : Entity,
     (exists p, p ∈ platforms w /\ lands e p = true) ->
     landed (platforms w) (resolve_platforms (platforms w) e)) /\
  (forall k e e',
     entities (at_collisions h w) !! k = Some e ->
     entities (pre_cleanup h w) !! k = Some e' ->
     pos e' = pos e /\ vel e' = vel e /\ size e' = size e /\
     isGrounded e' = isGrounded e) /\
  ((exists p, p ∈ platforms w /\ lands (player_before_platforms w) p = true) ->
   let p' := player (update h w) in
   isGrounded p' = Some true /\
   (exists platform, platform ∈ platforms w /\
      y (pos p') + height (size p') == y (pos platform)) /\
   (y (vel p') = 0 \/
    (y (vel p') = -5 /\
     (hp p' <= hp (player_before_platforms w) - 10)%Z))) /\
  (forall k e e',
     entities (at_loop h w) !! k = Some e ->
     entities (pre_cleanup h w) !! k = Some e' ->
     ground_enemy e = true -> markedForDeletion e = false ->
     let s := forEach k (update_entity h) (at_loop h w) in
     (subtype_is (subtype e) jumper = false ->
      enemy_before_platforms h s e =
      enemy_before_platforms h (at_loop h w) e) /\
     ((exists p, p ∈ platforms w /\
                 lands (enemy_before_platforms h s e) p = true) ->
      landed (platforms w) e')) /\
  entities (update h w) = unflagged (entities (pre_cleanup h w)).
Proof.
  intros Hp. split; [|split; [|split; [|split]]].
  - intros e He. apply resolve_platforms_lands; auto.
  - intros k e e' He He'. rewrite pre_cleanup_stages in He'.
    destruct (col_rel_collisions h (at_collisions h w))
      as [_ _ _ _ _ _ _ _ (_ & C & _)].
    destruct (C k e e' He He'). auto.
  - intros Hl p'.
    pose proof (resolve_platforms_lands (platforms w) (platforms w)
                  (player_before_platforms w) (fun _ H => H) Hl)
      as (G & V & plat & Hin & Hy).
    destruct (player_after_tick h w Hp) as [Q1 Q2 Q3 _ Q5 Q6].
    fold p' in Q1, Q2, Q3, Q5, Q6.
    split; [congruence|]. split.
    + exists plat. split; [exact Hin|]. rewrite Q1, Q2. exact Hy.
    + destruct Q6 as [[Hv Hh]|[Hv Hh]].
      * left. rewrite Hv. exact V.
      * right. split; [exact Hv|].
        assert (Hhp : hp (resolve_platforms (platforms w)
                           (player_before_platforms w))
                      = hp (player_before_platforms w))
          by (destruct (R_mv_resolve_platforms (platforms w)
                          (player_before_platforms w)); assumption).
        lia.
  - intros k e e' He He' Hg Hm s. rewrite pre_cleanup_stages in He'.
    destruct (col_rel_collisions h (at_collisions h w))
      as [_ _ _ _ _ _ _ _ (L2 & C2 & _)].
    assert (Hb : is_boss e = false).
    { unfold ground_enemy in Hg. rewrite !andb_true_iff, !negb_true_iff in Hg.
      tauto. }
    pose proof (visit_exact (at_loop h w) k e He Hm Hb) as H3.
    fold (at_collisions h w) in H3. fold s in H3.
    destruct (C2 k _ e' H3 He') as [_ _ R3 R4 R5 _ _ R8 _ _ _].
    split.
    + intros Hj. unfold enemy_before_platforms.
      assert (Hs : subtype (apply_gravity e) = subtype e)
        by (unfold apply_gravity; break_if; reflexivity).
      rewrite Hs, Hj. reflexivity.
    + intros Hl.
      assert (Hpl : platforms s = platforms w).
      { destruct (upd_inv_forEach h (at_loop h w) k) as [Hu _ _ _ _].
        - apply lookup_lt_Some in He. lia.
        - fold s in Hu. rewrite (Ur_platforms _ _ Hu).
          destruct (at_loop_spec h w) as (_ & _ & _ & _ & L5 & _).
          exact L5. }
      rewrite (ai_ground_enemy s e Hg), Hpl in *.
      destruct (enemy_cleanup_fields s
                  (resolve_platforms (platforms w)
                     (enemy_before_platforms h s e)))
        as (F1 & F2 & F3 & F4).
      eapply landed_ext; [| | | |apply resolve_platforms_lands;
                                 [exact (fun _ H => H) | exact Hl]];
        congruence.
  - rewrite update_playing by exact Hp.
    destruct (finish_spec (cleanup (pre_cleanup h w))) as (-> & _).
    apply cleanup_entities.
Qed.

End EnemyLanding.

Lemma C8_witness :
  (let p' := player (update flatHost standing) in
   isGrounded p' = Some true /\
   (exists platform, platform ∈ platforms standing /\
      y (pos p') + height (size p') == y (pos platform)) /\
   (y (vel p') = 0 \/
    (y (vel p') = -5 /\
     (hp p' <= hp (player_before_platforms standing) - 10)%Z))) /\
  (forall e',
     entities (pre_cleanup flatHost runnerLanding) !! 0%nat = Some e' ->
     landed (platforms runnerLanding) e').
Proof.
  split.
  - apply (proj1 (proj2 (proj2 (C8_landing flatHost standing eq_refl)))).
    exists (mkPlatform "floor" 0 560 1000 40 "#334155").
    split; [apply list_elem_of_In; vm_compute; left; reflexivity|].
    vm_compute. reflexivity.
  - intros e' He'.
    destruct (proj1 (proj2 (proj2 (proj2
                (C8_landing flatHost runnerLanding eq_refl))))
                0%nat (runnerAt 500 528) e') as (Hj & Hl).
    + vm_compute. reflexivity.
    + exact He'.
    + reflexivity.
    + reflexivity.
    + apply Hl. rewrite Hj by reflexivity.
      exists (mkPlatform "floor" 0 560 1000 40 "#334155").
      split; [apply list_elem_of_In; vm_compute; left; reflexivity|].
      vm_compute. reflexivity.
Defined.

(** ** Contact damage, contact by contact *)

Section ContactCount.

Variable h : Host.

Lemma touches_hurts (k : nat) (s : World) :
  touches k s = true ->
  exists e, entities s !! k = Some e /\ collide h k s = hurt h k e s /\
            isColliding (player s) e = true.
Proof.
  unfold touches, in_contact, hurtful.
  destruct (entities s !! k) as [e|] eqn:He; [|discriminate].
  rewrite !andb_true_iff, negb_true_iff, orb_true_iff.
  intros [[Hm Ht] Hc]. exists e. split; [reflexivity|]. split; [|exact Hc].
  apply collide_hurts; [exact He | exact Hm |].
  destruct Ht as [Ht|Ht]; destruct (type e); try discriminate; auto.
Qed.

Lemma player_pickup (i : nat) (entity : Entity) (w : World) :
  hp (player (pickup h i entity w)) = hp (player w) /\
  vel (player (pickup h i entity w)) = vel (player w).
Proof.
  unfold pickup. destruct (isColliding (player w) entity); [|auto].
  rewrite player_iter by (intros; apply player_spawnParticle).
  rewrite player_modify. auto.
Qed.

Lemma player_hits (i n : nat) (w : World) :
  player (forEach n (hit h i) w) = player w.
Proof.
  refine (proj1 (forEach_rel (fun _ => True)
                   (fun a b => player b = player a) (hit h i)
                   (fun _ => eq_refl) _ _ n w I)).
  - intros a b c H1 H2. congruence.
  - intros j s _. split; [apply player_hit | exact I].
Qed.

(** A visit that is no contact leaves hp and velocity of the player. *)
Lemma collide_no_touch (k : nat) (s : World) :
  touches k s = false ->
  hp (player (collide h k s)) = hp (player s) /\
  vel (player (collide h k s)) = vel (player s).
Proof.
  unfold touches, in_contact, hurtful, collide.
  destruct (entities s !! k) as [e|] eqn:He; [|auto].
  destruct (markedForDeletion e); [auto|]. cbn [negb andb].
  destruct (type e) eqn:Ht; cbn [EntityType_eqb orb andb]; intros Hc; auto.
  - unfold hurt. rewrite Hc. auto.
  - rewrite player_hits. auto.
  - apply player_pickup.
  - unfold hurt. rewrite Hc. auto.
Qed.

Lemma collide_touch (k : nat) (s : World) :
  touches k s = true ->
  hp (player (collide h k s)) = (hp (player s) - 10)%Z /\
  knocked (player (collide h k s)).
Proof.
  intros Ht. destruct (touches_hurts k s Ht) as (e & He & -> & Hc).
  destruct (hurt_player h k e s Hc) as (H1 & H2 & H3 & _).
  split; [exact H1|]. split; [exact H2|]. rewrite H3.
  destruct (Qgtb _ _); auto.
Qed.

(** The account of a collision loop: 10 hp per contact. *)
Lemma contacts_account (w : World) (n : nat) :
  hp (player (forEach n (collide h) w)) =
    (hp (player w) - 10 * Z.of_nat (contacts h w n))%Z /\
  (if (0 <? contacts h w n)%nat
   then knocked (player (forEach n (collide h) w))
   else vel (player (forEach n (collide h) w)) = vel (player w)).
Proof.
  induction n as [|n [IH1 IH2]].
  { change (forEach 0 (collide h) w) with w. cbn [contacts Nat.ltb Nat.leb].
    split; [lia | reflexivity]. }
  rewrite forEach_S. cbn [contacts].
  destruct (touches n (forEach n (collide h) w)) eqn:Ht.
  - destruct (collide_touch _ _ Ht) as [H1 H2]. split; [lia|].
    replace (0 <? contacts h w n + 1)%nat with true
      by (symmetry; apply Nat.ltb_lt; lia).
    exact H2.
  - destruct (collide_no_touch _ _ Ht) as [H1 H2]. split; [lia|].
    rewrite Nat.add_0_r.
    destruct (0 <? contacts h w n)%nat.
    + unfold knocked in *. rewrite H2. exact IH2.
    + congruence.
Qed.

(** The visit of one cell leaves every other cell that holds no enemy. *)
Lemma hit_other_cell (i j k : nat) (w : World) (e : Entity) :
  i <> k -> entities w !! k = Some e ->
  EntityType_eqb (type e) T_enemy = false ->
  entities (hit h i j w) !! k = Some e.
Proof.
  intros Hik Hk Ht. unfold hit.
  destruct (entities w !! i) as [entity|] eqn:Hi; [|exact Hk].
  destruct (entities w !! j) as [target|] eqn:Hj; [|exact Hk].
  destruct (EntityType_eqb (type target) T_enemy &&
            negb (markedForDeletion target) &&
            isColliding entity target) eqn:Hc; [|exact Hk].
  assert (Hjk : j <> k).
  { intros ->. rewrite Hk in Hj. injection Hj as <-.
    rewrite Ht in Hc. discriminate. }
  set (w1 := modify j (fun t => set_hp (hp t - 1) t) w).
  set (w2 := modify i bullet_hit w1).
  assert (H2 : entities w2 !! k = Some e).
  { unfold w2, w1. rewrite !modify_lookup.
    destruct (decide (i = k)); [contradiction|].
    destruct (decide (j = k)); [contradiction|]. exact Hk. }
  clearbody w2. clear w1.
  set (w3 := spawnParticle h (x (pos entity)) (y (pos entity))
               (color target) w2).
  assert (H3 : entities w3 !! k = Some e).
  { destruct (spawnParticle_entities h (x (pos entity)) (y (pos entity))
                (color target) w2) as (p & Ep & _).
    fold w3 in Ep. rewrite Ep. apply lookup_app_l_Some. exact H2. }
  clearbody w3. destruct (hp target - 1 <=? 0)%Z; [|exact H3].
  unfold kill. destruct (is_boss target).
  - rewrite modify_lookup. destruct (decide (j = k)); [contradiction|].
    destruct (iter_boss_spark_spec h 50 target
                (set_bossActive false (set_score (score w3 + 5000) w3)))
      as (_ & _ & _ & ps & E).
    cbv zeta in E. rewrite E. apply lookup_app_l_Some. exact H3.
  - rewrite modify_lookup. destruct (decide (j = k)); [contradiction|].
    exact H3.
Qed.

Lemma collide_other_cell (i k : nat) (w : World) (e : Entity) :
  i <> k -> entities w !! k = Some e ->
  EntityType_eqb (type e) T_enemy = false ->
  entities (collide h i w) !! k = Some e.
Proof.
  intros Hik Hk Ht. unfold collide.
  destruct (entities w !! i) as [entity|] eqn:Hi; [|exact Hk].
  destruct (markedForDeletion entity); [exact Hk|].
  assert (Hflag : entities (modify i (set_markedForDeletion true) w) !! k
                  = Some e).
  { rewrite modify_lookup. destruct (decide (i = k)); [contradiction|].
    exact Hk. }
  assert (Hhurt : entities (hurt h i entity w) !! k = Some e).
  { unfold hurt. destruct (isColliding (player w) entity); [|exact Hk].
    match goal with |- entities (spawnParticle h ?a ?b ?c ?w0) !! k = _ =>
      destruct (spawnParticle_entities h a b c w0) as (p & -> & _)
    end.
    apply lookup_app_l_Some.
    destruct (EntityType_eqb (type entity) T_boss_projectile); fields.
    - rewrite modify_lookup. destruct (decide (i = k)); [contradiction|].
      exact Hk.
    - exact Hk. }
  destruct (type entity); try exact Hk; try exact Hhurt.
  - refine (proj2 (forEach_rel (fun s => entities s !! k = Some e)
                     (fun _ _ => True) (hit h i) (fun _ => I)
                     (fun _ _ _ _ _ => I) _ _ w Hk)).
    intros j s Hs. split; [exact I|]. apply hit_other_cell; assumption.
  - unfold pickup. destruct (isColliding (player w) entity); [|exact Hk].
    match goal with |- entities (Nat.iter 10 (spawnParticle h ?a ?b ?c) ?w0)
                         !! k = _ =>
      destruct (iter_spawnParticle_spec h 10 a b c w0)
        as (_ & _ & _ & ps & E & _)
    end.
    cbv zeta in E. rewrite E. apply lookup_app_l_Some.
    rewrite modify_lookup. destruct (decide (i = k)); [contradiction|].
    exact Hk.
Qed.

Lemma cell_until_visit (w : World) (k : nat) (e : Entity) :
  entities w !! k = Some e ->
  EntityType_eqb (type e) T_enemy = false ->
  entities (forEach k (collide h) w) !! k = Some e.
Proof.
  intros Hk Ht.
  assert (H : forall n, (n <= k)%nat ->
            entities (forEach n (collide h) w) !! k = Some e).
  { induction n as [|n IH]; intros Hn; [exact Hk|].
    rewrite forEach_S. apply collide_other_cell; [lia | apply IH; lia | exact Ht]. }
  apply H. lia.
Qed.

(** Which visits are contacts, read off the lists before and after the
    loop.  A contact is with an entity that was live, hurtful and on the
    player when the loop started; every such enemy projectile is a contact;
    and so is every such entity that the loop leaves unflagged. *)
Lemma touches_cases (w : World) (k : nat) (e0 : Entity) :
  entities w !! k = Some e0 ->
  (touches k (forEach k (collide h) w) = true ->
   in_contact (player w) e0 = true) /\
  (in_contact (player w) e0 = true -> type e0 = T_boss_projectile ->
   touches k (forEach k (collide h) w) = true) /\
  (in_contact (player w) e0 = true ->
   forall e', entities (collisions h w) !! k = Some e' ->
     markedForDeletion e' = false ->
     touches k (forEach k (collide h) w) = true).
Proof.
  intros Hk.
  assert (Hkn : (k < length (entities w))%nat)
    by (eapply lookup_lt_Some; exact Hk).
  pose proof (col_rel_forEach (collide h) k w (col_rel_collide h)) as Hpre.
  set (sk := forEach k (collide h) w) in *.
  destruct Hpre as [_ _ _ _ _ _ _ [P1 P2 _ _ _ _] (Lpre & Cpre & _)].
  destruct (entities sk !! k) as [ek|] eqn:Hek;
    [|apply lookup_ge_None in Hek; lia].
  destruct (Cpre k e0 ek Hk Hek) as [R1 _ R3 _ R5 _ _ _ _ _ R11].
  assert (Hc : isColliding (player sk) ek = isColliding (player w) e0)
    by (apply isColliding_ext; assumption).
  assert (Hh : hurtful ek = hurtful e0) by (unfold hurtful; rewrite R1; auto).
  unfold touches. rewrite Hek. unfold in_contact. rewrite Hc, Hh.
  split; [|split].
  - rewrite !andb_true_iff, !negb_true_iff. intros [[Hm ->] ->].
    destruct (markedForDeletion e0) eqn:E; [|auto].
    rewrite (R11 eq_refl) in Hm. discriminate.
  - intros Hin Ht.
    assert (Hsame : entities sk !! k = Some e0).
    { apply cell_until_visit; [exact Hk | rewrite Ht; reflexivity]. }
    rewrite Hek in Hsame. injection Hsame as ->. exact Hin.
  - intros Hin e' He' Hm'.
    unfold collisions in He'.
    rewrite (forEach_split (length (entities w)) k) in He' by exact Hkn.
    fold sk in He'.
    pose proof (col_rel_collide h k sk) as Hmid.
    pose proof (col_rel_foldl h (seq (S k) (length (entities w) - S k))
                  (collide h k sk)) as Hpost.
    destruct Hmid as [_ _ _ _ _ _ _ _ (Lmid & Cmid & _)].
    destruct (entities (collide h k sk) !! k) as [em|] eqn:Hem;
      [|apply lookup_ge_None in Hem; apply lookup_lt_Some in Hek; lia].
    destruct Hpost as [_ _ _ _ _ _ _ _ (_ & Cpost & _)].
    pose proof (R_col_trans _ _ _ (Cmid k ek em Hek Hem)
                  (Cpost k em e' Hem He')) as [_ _ _ _ _ _ _ _ _ _ Q11].
    assert (Hmk : markedForDeletion ek = false).
    { destruct (markedForDeletion ek) eqn:E; [|reflexivity].
      rewrite (Q11 eq_refl) in Hm'. discriminate. }
    rewrite Hmk. rewrite !andb_true_iff in Hin. destruct Hin as [[_ ->] ->].
    reflexivity.
Qed.

Lemma in_contact_ext (p p' e e' : Entity) :
  pos p' = pos p -> size p' = size p -> R_col e e' ->
  in_contact p' e' = true -> in_contact p e = true.
Proof.
  intros Hp Hs [R1 _ R3 _ R5 _ _ _ _ _ R11]. unfold in_contact, hurtful.
  rewrite R1, (isColliding_ext p p' e e' Hp Hs R3 R5).
  rewrite !andb_true_iff, !negb_true_iff. intros [[Hm Hh] Hc].
  repeat split; try assumption.
  destruct (markedForDeletion e); [|reflexivity].
  rewrite (R11 eq_refl) in Hm. discriminate.
Qed.

(** No more contacts than live hurtful entities on the player when the
    loop starts. *)
Lemma contacts_upper (w : World) (n : nat) :
  (n <= length (entities w))%nat ->
  (contacts h w n <= count_contacts (player w) (take n (entities w)))%nat.
Proof.
  unfold count_contacts. induction n as [|n IH]; intros Hn; [simpl; lia|].
  destruct (entities w !! n) as [e0|] eqn:He;
    [|apply lookup_ge_None in He; lia].
  rewrite (take_S_r _ _ _ He), count_app, count_singleton. cbn [contacts].
  destruct (touches_cases w n e0 He) as (T1 & _).
  destruct (touches n (forEach n (collide h) w)).
  - rewrite (T1 eq_refl). specialize (IH ltac:(lia)). lia.
  - specialize (IH ltac:(lia)). lia.
Qed.

(** No fewer contacts than hurtful entities that the loop leaves unflagged
    on the player. *)
Lemma contacts_lower (w : World) (n : nat) :
  (n <= length (entities w))%nat ->
  (count_contacts (player (collisions h w))
     (take n (entities (collisions h w))) <= contacts h w n)%nat.
Proof.
  unfold count_contacts.
  destruct (col_rel_collisions h w)
    as [_ _ _ _ _ _ _ [P1 P2 _ _ _ _] (L & C & _)].
  induction n as [|n IH]; intros Hn; [simpl; lia|].
  destruct (entities w !! n) as [e0|] eqn:He;
    [|apply lookup_ge_None in He; lia].
  destruct (entities (collisions h w) !! n) as [e'|] eqn:He';
    [|apply lookup_ge_None in He'; lia].
  rewrite (take_S_r _ _ _ He'), count_app, count_singleton. cbn [contacts].
  destruct (touches_cases w n e0 He) as (_ & _ & T3).
  specialize (IH ltac:(lia)).
  destruct (in_contact (player (collisions h w)) e') eqn:Hin; [|lia].
  assert (H0 : in_contact (player w) e0 = true)
    by (eapply in_contact_ext; [exact P1 | exact P2 | eapply C; eassumption
                               | exact Hin]).
  assert (Hm : markedForDeletion e' = false).
  { unfold in_contact in Hin. rewrite !andb_true_iff, negb_true_iff in Hin.
    tauto. }
  rewrite (T3 H0 e' He' Hm). lia.
Qed.

Lemma count_contacts_unflagged (p : Entity) (l : list Entity) :
  count_contacts p (unflagged l) = count_contacts p l.
Proof.
  unfold count_contacts, unflagged.
  induction l as [|e l IH]; [reflexivity|]. cbn [List.filter].
  destruct (markedForDeletion e) eqn:Hm; cbn [negb].
  - assert (Hf : in_contact p e = false)
      by (unfold in_contact; rewrite Hm; reflexivity).
    rewrite Hf. exact IH.
  - cbn [List.filter]. destruct (in_contact p e); cbn [length];
      rewrite IH; reflexivity.
Qed.

Lemma count_contacts_end (w : World) :
  count_contacts (player (collisions h w)) (entities (collisions h w)) =
  count_contacts (player (collisions h w))
    (take (length (entities w)) (entities (collisions h w))).
Proof.
  destruct (col_rel_collisions h w) as [_ _ _ _ _ _ _ _ (L & _ & N)].
  rewrite <- (take_drop (length (entities w)) (entities (collisions h w)))
    at 1.
  unfold count_contacts. rewrite count_app.
  rewrite (count_none _ (drop _ _)); [apply Nat.add_0_r|].
  apply Forall_lookup. intros k e Hk. rewrite lookup_drop in Hk.
  destruct (N (length (entities w) + k)%nat e ltac:(lia) Hk) as [Ht _].
  unfold in_contact, hurtful. rewrite Ht. cbn [EntityType_eqb orb].
  rewrite andb_false_r. reflexivity.
Qed.

(** C9. There is no invulnerability after a hit.  Whenever the collision
    loop visits an unflagged enemy or enemy projectile that overlaps the
    player, the player loses exactly 10 hp and is knocked back (vertical
    velocity -5, horizontal velocity 10 away from the entity), whatever
    happened before.  Over a tick the player loses exactly 10 hp per
    contact and nothing else: a contact is with an entity that was live,
    hurtful and on the player when the collisions started; every such enemy
    projectile is a contact, and so is every such enemy that ends the
    collisions unflagged.  So the number of contacts lies between the
    number of hurtful entities on the player at the end of the tick and
    their number when the collisions started.  After a tick with a contact the player is
    knocked back.  So an enemy that stays on the player costs 10 hp in
    every tick, and two of them cost 20. *)
Theorem C9_no_invulnerability (w : World) :
  (forall i e,
     entities w !! i = Some e -> markedForDeletion e = false ->
     type e = T_enemy \/ type e = T_boss_projectile ->
     isColliding (player w) e = true ->
     let p' := player (collide h i w) in
     hp p' = (hp (player w) - 10)%Z /\ y (vel p') = -5 /\
     x (vel p') =
       (if Qgtb (x (pos e)) (x (pos (player w))) then -10 else 10)) /\
  (gameStatus w = PLAYING ->
   forall e', e' ∈ entities (update h w) -> type e' = T_enemy ->
     isColliding (player (update h w)) e' = true ->
     (hp (player (update h w)) <= hp (player (at_spawn h w)) - 10)%Z /\
     y (vel (player (update h w))) = -5) /\
  (gameStatus w = PLAYING ->
   let c := at_collisions h w in
   let n := contacts h c (length (entities c)) in
   player c = player (at_spawn h w) /\
   hp (player (update h w)) = (hp (player c) - 10 * Z.of_nat n)%Z /\
   (if (0 <? n)%nat then knocked (player (update h w))
    else vel (player (update h w)) = vel (player c)) /\
   entities (update h w) = unflagged (entities (collisions h c)) /\
   (count_contacts (player (update h w)) (entities (update h w)) <= n)%nat /\
   (n <= count_contacts (player c) (entities c))%nat /\
   forall k e0, entities c !! k = Some e0 ->
     let touched := touches k (forEach k (collide h) c) in
     (touched = true -> in_contact (player c) e0 = true) /\
     (in_contact (player c) e0 = true -> type e0 = T_boss_projectile ->
      touched = true) /\
     (in_contact (player c) e0 = true ->
      forall e', entities (collisions h c) !! k = Some e' ->
        markedForDeletion e' = false -> touched = true)).
Proof.
  split; [|split].
  - intros i e Hi Hm Ht Hc p'. unfold p'.
    rewrite (collide_hurts h i e w Hi Hm Ht).
    destruct (hurt_player h i e w Hc) as (H1 & H2 & H3 & _). auto.
  - intros Hp e' Hin Ht Hc. rewrite update_playing in * by exact Hp.
    destruct (finish_spec (cleanup (pre_cleanup h w))) as (E & _ & P & _).
    rewrite P, cleanup_player in *. rewrite E, cleanup_entities in Hin.
    apply list_elem_of_In, filter_In in Hin. destruct Hin as [Hin Hm].
    apply negb_true_iff in Hm. apply list_elem_of_In in Hin.
    apply list_elem_of_lookup in Hin. destruct Hin as [k Hk].
    rewrite pre_cleanup_stages in *.
    destruct (collisions_contact h (at_collisions h w) k e' Hk Ht Hm Hc)
      as [H1 H2].
    split; [|exact H2].
    pose proof (Ur_player _ _ (proj1 (at_collisions_spec h w))) as U.
    destruct (at_loop_spec h w) as (_ & _ & _ & _ & _ & _ & _ & L8 & _).
    rewrite U, L8 in H1. exact H1.
  - intros Hp. cbv zeta.
    destruct (contacts_account (at_collisions h w)
                (length (entities (at_collisions h w)))) as [A1 A2].
    assert (Hpl : player (update h w) =
                  player (collisions h (at_collisions h w))).
    { rewrite update_playing by exact Hp.
      destruct (finish_spec (cleanup (pre_cleanup h w))) as (_ & _ & -> & _).
      rewrite cleanup_player, pre_cleanup_stages. reflexivity. }
    assert (Hen : entities (update h w) =
                  unflagged (entities (collisions h (at_collisions h w)))).
    { rewrite update_playing by exact Hp.
      destruct (finish_spec (cleanup (pre_cleanup h w))) as (-> & _).
      rewrite cleanup_entities, pre_cleanup_stages. reflexivity. }
    assert (Hlow : (count_contacts (player (update h w))
                      (entities (update h w)) <=
                    contacts h (at_collisions h w)
                      (length (entities (at_collisions h w))))%nat).
    { rewrite Hen, Hpl, count_contacts_unflagged, count_contacts_end.
      apply contacts_lower. lia. }
    assert (Hup : (contacts h (at_collisions h w)
                     (length (entities (at_collisions h w))) <=
                   count_contacts (player (at_collisions h w))
                     (entities (at_collisions h w)))%nat).
    { pose proof (contacts_upper (at_collisions h w)
                    (length (entities (at_collisions h w))) (le_n _)) as U.
      rewrite firstn_all in U. exact U. }
    revert Hlow. rewrite Hpl. unfold collisions at 1 2 3. intros Hlow.
    split; [|split; [exact A1|split; [exact A2|split; [exact Hen|
            split; [exact Hlow|split; [exact Hup|]]]]]].
    + rewrite (Ur_player _ _ (proj1 (at_collisions_spec h w))).
      destruct (at_loop_spec h w) as (_ & _ & _ & _ & _ & _ & _ & L8 & _).
      exact L8.
    + intros k e0 Hk. apply touches_cases. exact Hk.
Qed.

End ContactCount.

Lemma C9_witness :
  let c := at_collisions flatHost crowded in
  let n := contacts flatHost c (length (entities c)) in
  n = 2%nat /\
  hp (player (update flatHost crowded)) = (hp (player c) - 10 * Z.of_nat n)%Z /\
  (if (0 <? n)%nat then knocked (player (update flatHost crowded))
   else vel (player (update flatHost crowded)) = vel (player c)) /\
  (count_contacts (player (update flatHost crowded))
     (entities (update flatHost crowded)) <= n)%nat /\
  (n <= count_contacts (player c) (entities c))%nat.
Proof.
  destruct (proj2 (proj2 (C9_no_invulnerability flatHost crowded)) eq_refl)
    as (_ & H1 & H2 & _ & H3 & H4 & _).
  split; [vm_compute; reflexivity|].
  split; [exact H1|]. split; [exact H2|]. split; [exact H3 | exact H4].
Defined.

(** ** Penetration, from the shot to the hits *)

Section Penetration.

Variable h : Host.




End Penetration.


Lemma C5_witness :
  exists (b : Entity) (p p' : Z),
    ((b ∈ entities bossHalf /\ is_boss b = true /\
      forall b0, b0 ∈ entities bossHalf -> is_boss b0 = true -> b0 = b) \/
     (boss_due bossHalf = true /\ count_bosses (entities bossHalf) = 0%nat /\
      b = newBoss (canvas bossHalf))) /\
    bossPhase b = Some p /\ bossPhase bossHalfAfter = Some p' /\
    bossPhase bossHalfAfter = boss_next_phase (canvas bossHalf) b /\
    (0 <= p /\ p <= p' /\ p' <= 2 /\ p' <= p + 1)%Z /\
    (p = 1%Z ->
     (p' = 2%Z <-> inject_Z (hp b) < inject_Z (maxHp b) / 2)) /\
    (p = 2%Z -> p' = 2%Z) /\
    maxHp bossHalfAfter = maxHp b /\ (hp bossHalfAfter <= hp b)%Z.
Proof.
  refine (proj2 (proj2 (C5_boss_phase_monotone flatHost) bossHalf _ eq_refl)
            bossHalfAfter _ eq_refl).
  - split; [vm_compute; lia|].
    repeat (constructor; [intros _; split;
                          [reflexivity | right; left; reflexivity]|]).
    constructor.
  - apply list_elem_of_In. vm_compute. left. reflexivity.
Defined.

(** ** Restart *)

Lemma Entity_ext (a b : Entity) :
  id a = id b -> type a = type b -> subtype a = subtype b ->
  weaponType a = weaponType b -> pos a = pos b -> vel a = vel b ->
  size a = size b -> color a = color b -> hp a = hp b ->
  maxHp a = maxHp b -> markedForDeletion a = markedForDeletion b ->
  direction a = direction b -> isGrounded a = isGrounded b ->
  ttl a = ttl b -> attackTimer a = attackTimer b ->
  bossPhase a = bossPhase b -> penetration a = penetration b -> a = b.
Proof. destruct a, b. cbn. intros. subst. reflexivity. Qed.

Lemma World_ext (a b : World) :
  gameStatus a = gameStatus b -> frameCount a = frameCount b ->
  bossActive a = bossActive b -> player a = player b ->
  entities a = entities b -> platforms a = platforms b ->
  score a = score b -> input a = input b -> canvas a = canvas b ->
  hudState a = hudState b -> gameOver a = gameOver b ->
  currentBossHp a = currentBossHp b -> randomCalls a = randomCalls b ->
  a = b.
Proof. destruct a, b. cbn. intros. subst. reflexivity. Qed.

Lemma P_static_refl (p : Entity) : P_static p p.
Proof. split; reflexivity. Qed.

Lemma P_static_trans (a b c : Entity) :
  P_static a b -> P_static b c -> P_static a c.
Proof. intros [] []. split; congruence. Qed.

Lemma P_static_resolve_platforms (plats : list Entity) (e : Entity) :
  P_static e (resolve_platforms plats e).
Proof.
  revert e. induction plats as [|p plats IH]; intros e;
    [apply P_static_refl|].
  change (resolve_platforms (p :: plats) e)
    with (resolve_platforms plats (if lands e p then land p e else e)).
  eapply P_static_trans; [|apply IH].
  destruct (lands e p); split; reflexivity.
Qed.

Lemma P_static_physics (w : World) :
  P_static (player w) (player (player_physics w)).
Proof.
  unfold player_physics. rewrite player_set_player.
  eapply P_static_trans; [|apply P_static_resolve_platforms].
  generalize (player w). intros p.
  unfold bounds, integrate, steer.
  repeat break_if; split; reflexivity.
Qed.

Section RestartFrame.

Variable h : Host.

Lemma P_static_collide (i : nat) (w : World) :
  P_static (player w) (player (collide h i w)).
Proof.
  unfold collide. destruct (entities w !! i) as [entity|];
    [|apply P_static_refl].
  destruct (markedForDeletion entity); [apply P_static_refl|].
  assert (Hhurt : P_static (player w) (player (hurt h i entity w))).
  { unfold hurt. destruct (isColliding (player w) entity);
      [|apply P_static_refl].
    rewrite player_spawnParticle. fields.
    destruct (EntityType_eqb (type entity) T_boss_projectile);
      rewrite ?player_modify; split; reflexivity. }
  destruct (type entity); try apply P_static_refl; try exact Hhurt.
  - rewrite player_hits. apply P_static_refl.
  - unfold pickup. destruct (isColliding (player w) entity);
      [|apply P_static_refl].
    rewrite player_iter by (intros; apply player_spawnParticle).
    rewrite player_modify. split; reflexivity.
Qed.

Lemma P_static_collisions (w : World) :
  P_static (player w) (player (collisions h w)).
Proof.
  refine (proj1 (forEach_rel (fun _ => True)
                   (fun a b => P_static (player a) (player b)) (collide h)
                   (fun s => P_static_refl (player s)) _ _ _ w I)).
  - intros a b c. apply P_static_trans.
  - intros i s _. split; [apply P_static_collide | exact I].
Qed.

Lemma P_static_update (w : World) :
  P_static (player w) (player (update h w)).
Proof.
  destruct (update_cases h w) as [Hp| ->]; [|apply P_static_refl].
  rewrite update_playing by exact Hp.
  destruct (finish_spec (cleanup (pre_cleanup h w))) as (_ & _ & -> & _).
  rewrite cleanup_player, pre_cleanup_stages.
  eapply P_static_trans; [|apply P_static_collisions].
  rewrite (Ur_player _ _ (proj1 (at_collisions_spec h w))).
  destruct (at_loop_spec h w) as (_ & _ & _ & _ & _ & _ & _ & -> & _).
  destruct (at_spawn_spec h w) as (_ & _ & _ & _ & _ & _ & _ & -> & _).
  apply (P_static_physics (set_frameCount (frameCount w + 1) w)).
Qed.

Lemma P_static_step (w : World) (ev : Event) :
  P_static (player w) (player (step h w ev)).
Proof.
  destruct ev as [code|code|]; cbn [step].
  - unfold handleKeyDown. repeat break_if; split; reflexivity.
  - destruct (handleKeyUp_spec code w) as (_ & _ & _ & _ & _ & _ & _ & ->).
    apply P_static_refl.
  - apply P_static_update.
Qed.

Lemma P_static_run (w : World) (evs : list Event) :
  P_static (player w) (player (run h w evs)).
Proof.
  unfold run. revert w. induction evs as [|ev evs IH]; intros w;
    cbn [foldl]; [apply P_static_refl|].
  eapply P_static_trans; [apply P_static_step | apply IH].
Qed.

(** X20. A restart forgets the run, and only the run.  After any sequence
    of frames and key events, [initLevel] gives exactly the world that
    [initLevel] would have given at once, but for what it never writes,
    which is as the run left it: the player's direction and grounding, the
    input flags (a key that is held stays held), the HUD, the game-over
    reports, the status, the draw counter. *)
Theorem X20_restart_forgets (w : World) (evs : list Event) :
  initLevel (run h w evs) = initLevel (carried (run h w evs) w).
Proof.
  pose proof (canvas_run h w evs) as Hc.
  pose proof (P_static_run w evs) as Hs.
  generalize dependent (run h w evs). intros r Hc [].
  unfold initLevel, carried. fields. rewrite Hc.
  apply World_ext; fields; try reflexivity; try exact Hc.
  apply Entity_ext; fields; auto.
Qed.

End RestartFrame.

(** ** The mission briefing *)

(** X21. The briefing never fails, and is not checked.  Whatever the model
    call and [JSON.parse] do (return anything, return no text, throw),
    [generateMissionBriefing] returns a value: what [JSON.parse] made of a
    non-empty text, or else the built-in SILENT ECHO briefing.  So
    [startGame] always ends in the BRIEFING status, not loading, with
    exactly that value as the mission: the [catch] of [startGame], with its
    ALPHA PROTOCOL briefing, never runs.  The value need not be a mission:
    the cast is unchecked, and whatever [JSON.parse] returns for the text,
    [null] included, becomes the mission. *)
Theorem X21_briefing_never_fails (s : Service) (a : App) :
  (exists v, generateMissionBriefing s = Returns v /\
     (from_model s v \/
      (v = silentEcho /\ is_mission v = true /\
       forall v', ~ from_model s v')) /\
     startGame s a = mkApp BRIEFING (app_score a) v false) /\
  (forall t v,
     generateContent s = Returns (Some t) -> t <> EmptyString ->
     JSON_parse s t = Returns v ->
     generateMissionBriefing s = Returns v /\
     app_mission (startGame s a) = v).
Proof.
  split.
  - unfold startGame, generateMissionBriefing, from_model.
    destruct (generateContent s) as [[t|]|] eqn:Hg; cbn [andThen no_text].
    + destruct (String.eqb t EmptyString) eqn:Ht.
      * exists silentEcho. split; [reflexivity|]. split; [|reflexivity].
        right. split; [reflexivity|]. split; [reflexivity|].
        intros v' (t' & Ht' & Hne & _).
        apply String.eqb_eq in Ht. congruence.
      * destruct (JSON_parse s t) as [v|] eqn:Hj.
        -- exists v. split; [reflexivity|]. split; [|reflexivity].
           left. exists t. repeat split; try assumption.
           intros ->. rewrite String.eqb_refl in Ht. discriminate.
        -- exists silentEcho. split; [reflexivity|]. split; [|reflexivity].
           right. split; [reflexivity|]. split; [reflexivity|].
           intros v' (t' & Ht' & _ & Hj'). congruence.
    + exists silentEcho. split; [reflexivity|]. split; [|reflexivity].
      right. split; [reflexivity|]. split; [reflexivity|].
      intros v' (t' & Ht' & _). discriminate.
    + exists silentEcho. split; [reflexivity|]. split; [|reflexivity].
      right. split; [reflexivity|]. split; [reflexivity|].
      intros v' (t' & Ht' & _). discriminate.
  - intros t v Hg Hne Hj.
    assert (Hr : generateMissionBriefing s = Returns v).
    { unfold generateMissionBriefing. rewrite Hg. cbn [andThen no_text].
      destruct (String.eqb t EmptyString) eqn:Ht.
      - apply String.eqb_eq in Ht. contradiction.
      - rewrite Hj. reflexivity. }
    split; [exact Hr|]. unfold startGame. rewrite Hr. reflexivity.
Qed.

Lemma X21_witness :
  generateMissionBriefing nullService = Returns JNull /\
  app_mission (startGame nullService initialApp) = JNull /\
  is_mission JNull = false.
Proof.
  destruct (proj2 (X21_briefing_never_fails nullService initialApp)
              "null"%string JNull eq_refl ltac:(discriminate) eq_refl)
    as [H1 H2].
  split; [exact H1|]. split; [exact H2 | reflexivity].
Defined.
